(** * cpm timers and the LCC round-trip-time aggregator

    A shallow embedding of
    - [cpm_lib/src/TimerFD.cpp]            (real-time timer),
    - [cpm_lib/src/TimerSimulated.cpp]     (simulated-time timer),
    - [lab_control_center/src/RTTAggregator.cpp]
    together with the properties the design document states about them.

    Conventions.  A [uint64_t] is a [Z] in [0, 2^64) and every arithmetic
    operation of the source is written with its wrap-around ([add64],
    [sub64], [mul64]).  Blocking calls read from an explicit environment: the
    list of wake-ups the thread observes.  A run over a finite list of
    wake-ups ends either because the function returned ([Returned]), threw
    ([Thrown]), or is still blocked after the last recorded wake-up
    ([Blocked]); each carries the object as the call left it.  Everything observable that the
    code does (publishing, logging, invoking callbacks, waiting) is appended
    to a trace of [Event]s. *)

From Stdlib Require Import ZArith QArith Lia.
From stdpp Require Import gmap strings list fin_maps.

Local Open Scope Z_scope.

(** ** Unsigned 64-bit arithmetic *)

Definition wrap64 (z : Z) : Z := z mod 2 ^ 64.
Definition add64 (a b : Z) : Z := wrap64 (a + b).
Definition sub64 (a b : Z) : Z := wrap64 (a - b).
Definition mul64 (a b : Z) : Z := wrap64 (a * b).

Definition is_u64 (z : Z) : Prop := 0 <= z < 2 ^ 64.

(** [static_cast<int>] of a [uint64_t] (two's complement, 32 bits). *)
Definition static_cast_int (z : Z) : Z :=
  let r := z mod 2 ^ 32 in
  if r <? 2 ^ 31 then r else r - 2 ^ 32.

(** ** Vocabulary shared by both timers *)

(** [cpm::TRIGGER_STOP_SYMBOL] of [Timer.hpp]. *)
Definition TRIGGER_STOP_SYMBOL : Z := 0xffffffffffffffff.

(** One element of [reader_system_trigger.take()]: the validity bit of
    [sample.info()] and [sample.data().next_start().nanoseconds()]. *)
Record Sample := mkSample { valid : bool; next_start : Z }.

(** What the thread sees when a blocking wait on the trigger reader ends:
    the samples the following [take()] yields, and whether another thread
    called [stop()] while this one was blocked. *)
Record Wake := mkWake { samples : list Sample; stop_requested : bool }.

Inductive LogMsg :=
| MsgStartedTwice           (* "The cpm::Timer can not be started twice." *)
| MsgOffsetHigher           (* "TimerFD: Offset set higher than period." *)
| MsgPeriodsMissed (k : Z)  (* "TimerFD: Periods missed: %d" *)
| MsgTimeMeasurement        (* TimeMeasurement::Instance().get_str() *)
| MsgRttOverflow.           (* "Warning: An overflow occured in RTT aggregator, ..." *)

Inductive Event :=
| WriteReadyStatus (source_id : string) (next_start_stamp : Z)
| WaitsetWait (timeout_ms : option Z)
| UpdateCallback (t_now : Z)
| StopCallback
| LogWrite (level : Z) (msg : LogMsg)
| TimerfdCreate
| TimerfdRead
| TimerfdClose.

(** [ErrorConfiguration] is named by the design document only; no code path
    below raises it. *)
Inductive Exception := ErrorTimerStart | ErrorConfiguration.

Definition EXIT_FAILURE : Z := 1.

(** How a member function call on an object of type [A] ends. *)
Inductive Outcome (A : Type) :=
| Returned (a : A)
| Thrown (e : Exception) (a : A)
| Blocked (a : A).
Arguments Returned {A} a.
Arguments Thrown {A} e a.
Arguments Blocked {A} a.

(** How a constructor call ends: with the object, with an exception and no
    object, or with [exit(code)] and no caller left to see anything. *)
Inductive Construction (A : Type) :=
| Constructed (a : A)
| ConstructionThrows (e : Exception)
| ProcessExits (code : Z).
Arguments Constructed {A} a.
Arguments ConstructionThrows {A} e.
Arguments ProcessExits {A} code.

(** The deadlines handed to the update callback, in order. *)
Fixpoint callbacks (tr : list Event) : list Z :=
  match tr with
  | [] => []
  | UpdateCallback t :: tr' => t :: callbacks tr'
  | _ :: tr' => callbacks tr'
  end.

(** The stamps of the published ready messages, in order. *)
Fixpoint ready_stamps (tr : list Event) : list Z :=
  match tr with
  | [] => []
  | WriteReadyStatus _ d :: tr' => d :: ready_stamps tr'
  | _ :: tr' => ready_stamps tr'
  end.

(** The arguments of the "Periods missed" log lines, in order. *)
Fixpoint missed_warnings (tr : list Event) : list Z :=
  match tr with
  | [] => []
  | LogWrite _ (MsgPeriodsMissed k) :: tr' => k :: missed_warnings tr'
  | _ :: tr' => missed_warnings tr'
  end.

(** Consecutive elements differ by a positive multiple of [P]. *)
Definition steps_by (P : Z) (l : list Z) : Prop :=
  forall (i : nat) (a b : Z),
    l !! i = Some a -> l !! S i = Some b -> exists k, 1 <= k /\ b = a + k * P.

(** [chain P lo l]: the elements of [l] lie on the grid [lo + j * P] and
    each one is at least a period after its predecessor. *)
Inductive chain (P : Z) : Z -> list Z -> Prop :=
| chain_nil lo : chain P lo []
| chain_cons lo j x l :
    0 <= j -> x = lo + j * P -> chain P (x + P) l -> chain P lo (x :: l).

(** The object as a call left it. *)
Definition state_of {A : Type} (o : Outcome A) : A :=
  match o with
  | Returned a => a
  | Thrown _ a => a
  | Blocked a => a
  end.

(** The [n] values [d], [d + P], [d + 2 * P], ... *)
Fixpoint progression (d P : Z) (n : nat) : list Z :=
  match n with
  | O => []
  | S n' => d :: progression (d + P) P n'
  end.

(** How many trigger samples a list of wake-ups brings. *)
Definition total_samples (wakes : list Wake) : nat :=
  length (concat (map samples wakes)).

(** ** The real-time timer, [TimerFD.cpp] *)

Module TimerFD.

(** The members [start], [stop] and the accessors read or write.  A
    [std::function] member is [None] when empty, else the identity of the
    callable it holds.  [runner_joinable] is [runner_thread.joinable()]. *)
Record t := mk {
  period_nanoseconds : Z;
  offset_nanoseconds : Z;
  node_id : string;
  wait_for_start : bool;
  stop_signal : Z;
  active : bool;
  cancelled : bool;
  start_point : Z;
  start_point_initialized : bool;
  m_update_callback : option nat;
  m_stop_callback : option nat;
  runner_joinable : bool
}.

Definition set_active (b : bool) (tm : t) : t :=
  mk (period_nanoseconds tm) (offset_nanoseconds tm) (node_id tm)
     (wait_for_start tm) (stop_signal tm) b (cancelled tm) (start_point tm)
     (start_point_initialized tm) (m_update_callback tm)
     (m_stop_callback tm) (runner_joinable tm).

Definition set_cancelled (b : bool) (tm : t) : t :=
  mk (period_nanoseconds tm) (offset_nanoseconds tm) (node_id tm)
     (wait_for_start tm) (stop_signal tm) (active tm) b (start_point tm)
     (start_point_initialized tm) (m_update_callback tm)
     (m_stop_callback tm) (runner_joinable tm).

Definition set_start_point (s : Z) (tm : t) : t :=
  mk (period_nanoseconds tm) (offset_nanoseconds tm) (node_id tm)
     (wait_for_start tm) (stop_signal tm) (active tm) (cancelled tm) s
     (start_point_initialized tm) (m_update_callback tm)
     (m_stop_callback tm) (runner_joinable tm).

Definition set_start_point_initialized (b : bool) (tm : t) : t :=
  mk (period_nanoseconds tm) (offset_nanoseconds tm) (node_id tm)
     (wait_for_start tm) (stop_signal tm) (active tm) (cancelled tm)
     (start_point tm) b (m_update_callback tm)
     (m_stop_callback tm) (runner_joinable tm).

Definition set_update_callback (cb : option nat) (tm : t) : t :=
  mk (period_nanoseconds tm) (offset_nanoseconds tm) (node_id tm)
     (wait_for_start tm) (stop_signal tm) (active tm) (cancelled tm)
     (start_point tm) (start_point_initialized tm) cb
     (m_stop_callback tm) (runner_joinable tm).

Definition set_stop_callback (cb : option nat) (tm : t) : t :=
  mk (period_nanoseconds tm) (offset_nanoseconds tm) (node_id tm)
     (wait_for_start tm) (stop_signal tm) (active tm) (cancelled tm)
     (start_point tm) (start_point_initialized tm) (m_update_callback tm)
     cb (runner_joinable tm).

Definition set_runner_joinable (b : bool) (tm : t) : t :=
  mk (period_nanoseconds tm) (offset_nanoseconds tm) (node_id tm)
     (wait_for_start tm) (stop_signal tm) (active tm) (cancelled tm)
     (start_point tm) (start_point_initialized tm) (m_update_callback tm)
     (m_stop_callback tm) b.

(** Modelled from the spec: the in-class initialiser of
    [start_point_initialized] in [TimerFD.hpp], a header that is not among
    the sources at hand.  "get_start_time() returns 0 before the first
    successful start": the start point is not marked initialized when the
    timer is constructed. *)
Definition start_point_initialized_at_construction : bool := false.

(** Constructor, lines 21-54.  A default-constructed [std::function] is
    empty and a default-constructed [std::thread] is not joinable; the
    value of [start_point] is not read before [start] writes it. *)
Definition new (_node_id : string) (_period_nanoseconds _offset_nanoseconds : Z)
    (_wait_for_start : bool) (_stop_signal : Z)
  : Construction t * list Event :=
  if _offset_nanoseconds >=? _period_nanoseconds then
    (ProcessExits EXIT_FAILURE, [LogWrite 1 MsgOffsetHigher])
  else
    (Constructed (mk _period_nanoseconds _offset_nanoseconds _node_id
                  _wait_for_start _stop_signal false false 0
                  start_point_initialized_at_construction
                  None None false), []).

(** [stop()], lines 252-265, read sequentially: the two stores, the join
    and the last store with no other call in between.  This is exact for a
    timer without a joinable worker.  With a joinable worker
    [runner_thread.join()] is only approximated by clearing
    [runner_joinable]: called on the worker itself the join throws
    [std::system_error], and a worker that enters [start] while the join
    blocks stores [active = true] before it sees [cancelled] (the case
    the comment at line 147 describes).  Statements about [stop] as such
    are therefore made for [runner_joinable tm = false]. *)
Definition stop (tm : t) : t :=
  let tm := set_cancelled true tm in
  let tm := set_active false tm in
  let tm := if runner_joinable tm then set_runner_joinable false tm else tm in
  set_cancelled false tm.

(** [get_start_time()], lines 290-296. *)
Definition get_start_time (tm : t) : Z :=
  if negb (start_point_initialized tm) then 0 else start_point tm.

(** The first valid sample of a [take()], as the [for] loops that return
    from inside look for it. *)
Fixpoint first_valid (l : list Sample) : option Sample :=
  match l with
  | [] => None
  | s :: l' => if valid s then Some s else first_valid l'
  end.

(** [received_stop_signal()], lines 298-314. *)
Fixpoint received_stop_signal (tm : t) (l : list Sample) : bool :=
  match l with
  | [] => false
  | s :: l' =>
      if valid s && (next_start s =? stop_signal tm) then true
      else received_stop_signal tm l'
  end.

(** The initial deadline, lines 172-177.  The source divides by the
    period; a period of zero is outside the model. *)
Definition initial_deadline (period offset start : Z) : Z :=
  if (sub64 start offset) mod period =? 0 then start
  else add64 (mul64 (add64 (sub64 start offset / period) 1) period) offset.

(** Missed-period correction, lines 188-201: [deadline] is the already
    incremented deadline and [current_time] the clock read after the
    callback. *)
Definition correct_missed (period deadline current_time : Z) : Z * list Event :=
  if current_time >=? deadline then
    (add64 deadline
       (mul64 (add64 (sub64 current_time deadline / period) 1) period),
     [LogWrite 1 (MsgPeriodsMissed
        (static_cast_int (add64 (sub64 current_time deadline / period) 1)));
      LogWrite 1 MsgTimeMeasurement])
  else (deadline, []).

Section Run.

(** What the user's callables do to the timer: whether the update
    callback, called with [t_now], calls [stop()], and whether the stop
    callback does. *)
Variable update_calls_stop : Z -> bool.
Variable stop_callback_calls_stop : bool.

(** One pass of the main loop after [wait()] returned: the clock read
    at line 183, the clock read at line 188, the samples taken at line
    203, and whether another thread called [stop()] meanwhile. *)
Record Tick := mkTick {
  t_wake : Z;
  t_after : Z;
  taken : list Sample;
  tick_stop_requested : bool
}.

(** [receiveStartTime()], lines 111-133. *)
Fixpoint receiveStartTime (wakes : list Wake) (tm : t)
  : option Z * t * list Event :=
  if negb (active tm) then (Some (stop_signal tm), tm, [])
  else
    match wakes with
    | [] => (None, tm,
             [WriteReadyStatus (node_id tm) 0; WaitsetWait (Some 2000)])
    | w :: wakes' =>
        let tm' := if stop_requested w then stop tm else tm in
        match first_valid (samples w) with
        | Some s =>
            (Some (next_start s), tm',
             [WriteReadyStatus (node_id tm) 0; WaitsetWait (Some 2000)])
        | None =>
            let '(r, tm'', tr) := receiveStartTime wakes' tm' in
            (r, tm'',
             WriteReadyStatus (node_id tm) 0 :: WaitsetWait (Some 2000) :: tr)
        end
    end.

(** The body of the main loop, lines 182-214. *)
Definition tick (tk : Tick) (tm : t) (deadline : Z) : t * Z * list Event :=
  if t_wake tk >=? deadline then
    let tr_cb :=
      match m_update_callback tm with
      | Some _ => [UpdateCallback deadline]
      | None => []
      end in
    let tm1 :=
      match m_update_callback tm with
      | Some _ => if update_calls_stop deadline then stop tm else tm
      | None => tm
      end in
    let deadline1 := add64 deadline (period_nanoseconds tm) in
    let '(deadline2, tr_miss) :=
      correct_missed (period_nanoseconds tm) deadline1 (t_after tk) in
    let tm2 := if tick_stop_requested tk then stop tm1 else tm1 in
    if received_stop_signal tm (taken tk) then
      match m_stop_callback tm with
      | Some _ =>
          (if stop_callback_calls_stop then stop tm2 else tm2, deadline2,
           TimerfdRead :: tr_cb ++ tr_miss ++ [StopCallback])
      | None =>
          (set_active false tm2, deadline2,
           TimerfdRead :: tr_cb ++ tr_miss)
      end
    else (tm2, deadline2, TimerfdRead :: tr_cb ++ tr_miss)
  else
    ((if tick_stop_requested tk then stop tm else tm), deadline,
     [TimerfdRead]).

(** The main loop, lines 181-217. *)
Fixpoint main_loop (ticks : list Tick) (tm : t) (deadline : Z)
  {struct ticks} : Outcome t * list Event :=
  if negb (active tm) then (Returned tm, [TimerfdClose])
  else
    match ticks with
    | [] => (Blocked tm, [])
    | tk :: ticks' =>
        let '(tm', deadline', tr) := tick tk tm deadline in
        let '(o, tr') := main_loop ticks' tm' deadline' in
        (o, tr ++ tr')
    end.

(** [start(update_callback)], lines 135-218.  [now] is the clock read
    at line 169. *)
Definition start (update_callback : option nat) (wakes : list Wake)
    (now : Z) (ticks : list Tick) (tm : t) : Outcome t * list Event :=
  if active tm then (Thrown ErrorTimerStart tm, [LogWrite 2 MsgStartedTwice])
  else
    let tm := set_active true tm in
    if cancelled tm then (Returned tm, [])
    else
      let tm := set_update_callback update_callback tm in
      let negotiated :=
        if wait_for_start tm then receiveStartTime wakes tm
        else (Some now, tm, []) in
      match negotiated with
      | (None, tm, tr) => (Blocked tm, TimerfdCreate :: tr)
      | (Some s, tm, tr) =>
          let tm := set_start_point s tm in
          if wait_for_start tm && (s =? stop_signal tm) then
            (Returned tm, TimerfdCreate :: tr)
          else
            let deadline :=
              initial_deadline (period_nanoseconds tm)
                               (offset_nanoseconds tm) (start_point tm) in
            let tm := set_start_point_initialized true tm in
            let '(o, tr') := main_loop ticks tm deadline in
            (o, TimerfdCreate :: tr ++ tr')
      end.

(** [start(update_callback, stop_callback)], lines 220-224. *)
Definition start2 (update_callback stop_callback : option nat)
    (wakes : list Wake) (now : Z) (ticks : list Tick) (tm : t)
  : Outcome t * list Event :=
  start update_callback wakes now ticks (set_stop_callback stop_callback tm).

(** [start_async(update_callback)], lines 226-244, as seen by the
    caller: the worker runs [start] on its own thread. *)
Definition start_async (update_callback : option nat) (tm : t)
  : Outcome t * list Event :=
  if negb (runner_joinable tm) then
    (Returned (set_runner_joinable true
                 (set_update_callback update_callback tm)), [])
  else (Thrown ErrorTimerStart tm, [LogWrite 2 MsgStartedTwice]).

End Run.

(** The members that [stop] and the loops leave alone. *)
Definition same_config (tm tm' : t) : Prop :=
  period_nanoseconds tm' = period_nanoseconds tm /\
  offset_nanoseconds tm' = offset_nanoseconds tm /\
  node_id tm' = node_id tm /\
  wait_for_start tm' = wait_for_start tm /\
  stop_signal tm' = stop_signal tm /\
  start_point tm' = start_point tm /\
  start_point_initialized tm' = start_point_initialized tm /\
  m_update_callback tm' = m_update_callback tm /\
  m_stop_callback tm' = m_stop_callback tm.

(** The clock values of a pass are 64-bit values that stay a period
    below the wrap-around. *)
Definition tick_in_range (P : Z) (tk : Tick) : Prop :=
  0 <= t_wake tk /\ t_wake tk + P < 2 ^ 64 /\
  0 <= t_after tk /\ t_after tk + P < 2 ^ 64.

(** The deadlines a pass that fires at [d] hands to the callback. *)
Definition callback_of (tm : t) (d : Z) : list Z :=
  match m_update_callback tm with Some _ => [d] | None => [] end.

(** The [struct itimerspec] that [createTimer] hands to
    [timerfd_settime]. *)
Record itimerspec := mk_itimerspec {
  it_value_tv_sec : Z;
  it_value_tv_nsec : Z;
  it_interval_tv_sec : Z;
  it_interval_tv_nsec : Z
}.

(** Why [createTimer] ends the process with [exit(EXIT_FAILURE)]. *)
Inductive CreateTimerFailure :=
| TimerfdCreateFailed
| TimerSettimeFailed (status : Z).

(** [createTimer()], lines 56-93.  [timer_fd] is what [timerfd_create]
    returns and [status] what [timerfd_settime] returns; the result is the
    timer specification the descriptor was armed with, or the failure the
    process exits on. *)
Definition createTimer (timer_fd status : Z) (tm : t)
  : itimerspec + CreateTimerFailure :=
  if timer_fd =? -1 then inr TimerfdCreateFailed
  else
    let offset_nanoseconds_fd :=
      if offset_nanoseconds tm =? 0 then 1 else offset_nanoseconds tm in
    let its :=
      mk_itimerspec (offset_nanoseconds_fd / 1000000000)
                    (offset_nanoseconds_fd mod 1000000000)
                    (period_nanoseconds tm / 1000000000)
                    (period_nanoseconds tm mod 1000000000) in
    if negb (status =? 0) then inr (TimerSettimeFailed status)
    else inl its.

End TimerFD.

(** ** The simulated-time timer, [TimerSimulated.cpp] *)

Module TimerSimulated.

Record t := mk {
  period_nanoseconds : Z;
  offset_nanoseconds : Z;
  node_id : string;
  current_time : Z;
  active : bool;
  cancelled : bool;
  m_update_callback : option nat;
  m_stop_callback : option nat;
  runner_joinable : bool
}.

Definition set_current_time (c : Z) (tm : t) : t :=
  mk (period_nanoseconds tm) (offset_nanoseconds tm) (node_id tm) c
     (active tm) (cancelled tm) (m_update_callback tm) (m_stop_callback tm)
     (runner_joinable tm).

Definition set_active (b : bool) (tm : t) : t :=
  mk (period_nanoseconds tm) (offset_nanoseconds tm) (node_id tm)
     (current_time tm) b (cancelled tm) (m_update_callback tm)
     (m_stop_callback tm) (runner_joinable tm).

Definition set_cancelled (b : bool) (tm : t) : t :=
  mk (period_nanoseconds tm) (offset_nanoseconds tm) (node_id tm)
     (current_time tm) (active tm) b (m_update_callback tm)
     (m_stop_callback tm) (runner_joinable tm).

Definition set_update_callback (cb : option nat) (tm : t) : t :=
  mk (period_nanoseconds tm) (offset_nanoseconds tm) (node_id tm)
     (current_time tm) (active tm) (cancelled tm) cb (m_stop_callback tm)
     (runner_joinable tm).

Definition set_stop_callback (cb : option nat) (tm : t) : t :=
  mk (period_nanoseconds tm) (offset_nanoseconds tm) (node_id tm)
     (current_time tm) (active tm) (cancelled tm) (m_update_callback tm) cb
     (runner_joinable tm).

Definition set_runner_joinable (b : bool) (tm : t) : t :=
  mk (period_nanoseconds tm) (offset_nanoseconds tm) (node_id tm)
     (current_time tm) (active tm) (cancelled tm) (m_update_callback tm)
     (m_stop_callback tm) b.

(** Constructor, lines 18-37: no check relates offset and period. *)
Definition new (_node_id : string) (_period_nanoseconds _offset_nanoseconds : Z)
  : Construction t * list Event :=
  (Constructed (mk _period_nanoseconds _offset_nanoseconds _node_id 0
                false false None None false), []).

(** [stop()], lines 168-180, read sequentially as for the real-time
    timer: exact for a timer without a joinable worker; with a joinable
    worker the join is only approximated by clearing [runner_joinable]
    (the comment at line 102 describes the worker that enters [start]
    meanwhile). *)
Definition stop (tm : t) : t :=
  let tm := set_cancelled true tm in
  let tm := set_active false tm in
  let tm := if runner_joinable tm then set_runner_joinable false tm else tm in
  set_cancelled false tm.

Definition get_time (tm : t) : Z := current_time tm.
Definition get_start_time (tm : t) : Z := 0.

Inductive Answer := STOP | DEADLINE | ANY | NONE.

Section Run.

Variable update_calls_stop : Z -> bool.
Variable stop_callback_calls_stop : bool.

(** The body of the [for] loop of [handle_system_trigger], lines 44-75,
    on the locals [got_valid], [got_new_deadline] and the reference
    [deadline].  The first component tells that the body returned
    [Answer::STOP]. *)
Definition on_sample (s : Sample) (got_valid got_new_deadline : bool)
    (tm : t) (deadline : Z) : bool * (bool * bool * t * Z) * list Event :=
  if valid s then
    if next_start s =? deadline then
      let tm1 := set_current_time deadline tm in
      let tr_cb :=
        match m_update_callback tm1 with
        | Some _ => [UpdateCallback deadline]
        | None => []
        end in
      let tm2 :=
        match m_update_callback tm1 with
        | Some _ => if update_calls_stop deadline then stop tm1 else tm1
        | None => tm1
        end in
      let deadline' := add64 deadline (period_nanoseconds tm) in
      (false, (true, true, tm2, deadline'),
       tr_cb ++ [WriteReadyStatus (node_id tm) deadline'])
    else if next_start s =? TRIGGER_STOP_SYMBOL then
      match m_stop_callback tm with
      | Some _ =>
          (true, (true, got_new_deadline,
                  (if stop_callback_calls_stop then stop tm else tm),
                  deadline), [StopCallback])
      | None =>
          (true, (true, got_new_deadline, set_active false tm, deadline), [])
      end
    else (false, (true, got_new_deadline, tm, deadline), [])
  else (false, (got_valid, got_new_deadline, tm, deadline), []).

(** The [for] loop and the final answer, lines 43-86. *)
Fixpoint handle_samples (l : list Sample) (got_valid got_new_deadline : bool)
    (tm : t) (deadline : Z) : Answer * t * Z * list Event :=
  match l with
  | [] =>
      ((if got_new_deadline then DEADLINE
        else if got_valid then ANY else NONE), tm, deadline, [])
  | s :: l' =>
      let '(ret, (gv, gn, tm', deadline'), tr) :=
        on_sample s got_valid got_new_deadline tm deadline in
      if ret then (STOP, tm', deadline', tr)
      else
        let '(a, tm'', deadline'', tr') :=
          handle_samples l' gv gn tm' deadline' in
        (a, tm'', deadline'', tr ++ tr')
  end.

(** [handle_system_trigger(deadline)], lines 39-87, on the samples the
    [take()] yields. *)
Definition handle_system_trigger (l : list Sample) (tm : t) (deadline : Z)
  : Answer * t * Z * list Event :=
  handle_samples l false false tm deadline.

(** The second loop of [start], lines 127-133: an untimed wait. *)
Fixpoint main_loop (wakes : list Wake) (tm : t) (deadline : Z)
  {struct wakes} : Outcome t * list Event :=
  if negb (active tm) then (Returned tm, [])
  else
    match wakes with
    | [] => (Blocked tm, [WaitsetWait None])
    | w :: wakes' =>
        let tm1 := if stop_requested w then stop tm else tm in
        let '(_, tm2, deadline2, tr) :=
          handle_system_trigger (samples w) tm1 deadline in
        let '(o, tr') := main_loop wakes' tm2 deadline2 in
        (o, WaitsetWait None :: tr ++ tr')
    end.

(** The first loop of [start], lines 115-124, followed by the second. *)
Fixpoint ready_loop (wakes : list Wake) (tm : t) (deadline : Z)
  {struct wakes} : Outcome t * list Event :=
  if negb (active tm) then main_loop wakes tm deadline
  else
    match wakes with
    | [] =>
        (Blocked tm,
         [WriteReadyStatus (node_id tm) deadline; WaitsetWait (Some 2000)])
    | w :: wakes' =>
        let tm1 := if stop_requested w then stop tm else tm in
        let '(a, tm2, deadline2, tr) :=
          handle_system_trigger (samples w) tm1 deadline in
        let '(o, tr') :=
          match a with
          | NONE => ready_loop wakes' tm2 deadline2
          | _ => main_loop wakes' tm2 deadline2
          end in
        (o, WriteReadyStatus (node_id tm) deadline
              :: WaitsetWait (Some 2000) :: tr ++ tr')
    end.

(** [start(update_callback)], lines 89-134. *)
Definition start (update_callback : option nat) (wakes : list Wake) (tm : t)
  : Outcome t * list Event :=
  if active tm then (Thrown ErrorTimerStart tm, [LogWrite 2 MsgStartedTwice])
  else
    let tm := set_active true tm in
    if cancelled tm then (Returned tm, [])
    else
      let tm := set_update_callback update_callback tm in
      let deadline := offset_nanoseconds tm in
      let tm := set_current_time deadline tm in
      ready_loop wakes tm deadline.

(** [start(update_callback, stop_callback)], lines 136-140. *)
Definition start2 (update_callback stop_callback : option nat)
    (wakes : list Wake) (tm : t) : Outcome t * list Event :=
  start update_callback wakes (set_stop_callback stop_callback tm).

(** [start_async(update_callback)], lines 142-160, as seen by the caller. *)
Definition start_async (update_callback : option nat) (tm : t)
  : Outcome t * list Event :=
  if negb (runner_joinable tm) then
    (Returned (set_runner_joinable true
                 (set_update_callback update_callback tm)), [])
  else (Thrown ErrorTimerStart tm, [LogWrite 2 MsgStartedTwice]).

End Run.

(** A sample the timer passes over when its deadline is [d]: an invalid
    one, or one that carries neither [d] nor the stop symbol. *)
Definition ignored (d : Z) (s : Sample) : Prop :=
  valid s = false \/ (next_start s <> d /\ next_start s <> TRIGGER_STOP_SYMBOL).

(** A wake-up without effect on the timer at deadline [d]. *)
Definition idle (d : Z) (w : Wake) : Prop :=
  stop_requested w = false /\ Forall (ignored d) (samples w).

(** A wake-up caused by the timeout, or with invalid samples only. *)
Definition silent (w : Wake) : Prop :=
  stop_requested w = false /\ Forall (fun s => valid s = false) (samples w).

(** The members that [stop] and the processing of triggers leave alone. *)
Definition same_config (tm tm' : t) : Prop :=
  period_nanoseconds tm' = period_nanoseconds tm /\
  offset_nanoseconds tm' = offset_nanoseconds tm /\
  node_id tm' = node_id tm /\
  m_update_callback tm' = m_update_callback tm /\
  m_stop_callback tm' = m_stop_callback tm.

End TimerSimulated.

(** ** The round-trip-time aggregator, [RTTAggregator.cpp] *)

Module RTTAggregator.

(** The maps of [RTTAggregator.hpp].  [measure_count] and
    [missed_answers] are [std::map<std::string, double>] that only ever
    hold whole numbers (they start at 0 or 1 and grow by 1), kept here as
    integers. *)
Record t := mk {
  current_best_rtt : gmap string Z;
  current_worst_rtt : gmap string Z;
  all_time_worst_rtt : gmap string Z;
  measure_count : gmap string Z;
  missed_answers : gmap string Z;
  last_msg_timestamp : gmap string Z;
  received_ids : gset string
}.

(** [delete_entry_timeout_ns = 10e9]. *)
Definition delete_entry_timeout_ns : Z := 10000000000.

(** The state after construction and after the clearing of
    [restart_measurement]. *)
Definition empty : t := mk ∅ ∅ ∅ ∅ ∅ ∅ ∅.

(** [m[k]] of a [std::map] read as a value: the stored value, or the
    value-initialised 0 that the subscript inserts. *)
Definition subscript (m : gmap string Z) (k : string) : Z :=
  default 0 (m !! k).

(** The map after a read-only [m[k]]. *)
Definition touched (m : gmap string Z) (k : string) : gmap string Z :=
  match m !! k with
  | Some _ => m
  | None => <[k := 0]> m
  end.

(** Modelled from the spec: [cpm::RTTTool::measure_rtt], of which the
    sources hold only the declaration.  Every response of the window is
    filed under its class key; at window close a class maps to the
    minimum and the maximum of its list, and a class without response is
    absent from the result. *)
Fixpoint measure_rtt (responses : list (string * Z)) : gmap string (Z * Z) :=
  match responses with
  | [] => ∅
  | (k, rtt) :: rest =>
      let m := measure_rtt rest in
      match m !! k with
      | Some (best, worst) => <[k := (Z.min rtt best, Z.max rtt worst)]> m
      | None => <[k := (rtt, rtt)]> m
      end
  end.

(** One measurement round as the worker sees it: the result of
    [measure_rtt()] and the clock value [cpm::get_time_ns()] returns while
    the given id is processed. *)
Record Round := mkRound {
  rtt : gmap string (Z * Z);
  now : string -> Z
}.

(** [delete_entry(id)], lines 106-115. *)
Definition delete_entry (id : string) (a : t) : t :=
  mk (delete id (current_best_rtt a)) (delete id (current_worst_rtt a))
     (delete id (all_time_worst_rtt a)) (delete id (measure_count a))
     (delete id (missed_answers a)) (delete id (last_msg_timestamp a))
     (received_ids a ∖ {[id]}).

(** The body of the loop over the received entries, lines 38-62. *)
Definition store_entry (r : Round) (a : t) (entry : string * (Z * Z)) : t :=
  let id := entry.1 in
  let best := entry.2.1 in
  let worst := entry.2.2 in
  match measure_count a !! id with
  | None =>
      mk (<[id := best]> (current_best_rtt a))
         (<[id := worst]> (current_worst_rtt a))
         (<[id := worst]> (all_time_worst_rtt a))
         (<[id := 1]> (measure_count a))
         (<[id := 0]> (missed_answers a))
         (<[id := now r id]> (last_msg_timestamp a))
         ({[id]} ∪ received_ids a)
  | Some count =>
      mk (<[id := best]> (current_best_rtt a))
         (<[id := worst]> (current_worst_rtt a))
         (<[id := Z.max worst (subscript (all_time_worst_rtt a) id)]>
            (all_time_worst_rtt a))
         (<[id := count + 1]> (measure_count a))
         (missed_answers a)
         (<[id := now r id]> (last_msg_timestamp a))
         ({[id]} ∪ received_ids a)
  end.

(** The body of the loop over the missing ids, lines 69-90. *)
Definition store_missing (r : Round) (a : t) (id : string) : t :=
  if sub64 (now r id) (subscript (last_msg_timestamp a) id)
       >? delete_entry_timeout_ns
  then delete_entry id a
  else
    match measure_count a !! id with
    | None =>
        mk (<[id := 0]> (current_best_rtt a))
           (<[id := 0]> (current_worst_rtt a))
           (all_time_worst_rtt a)
           (<[id := 1]> (measure_count a))
           (<[id := 1]> (missed_answers a))
           (touched (last_msg_timestamp a) id)
           (received_ids a)
    | Some count =>
        mk (<[id := 0]> (current_best_rtt a))
           (<[id := 0]> (current_worst_rtt a))
           (all_time_worst_rtt a)
           (<[id := count + 1]> (measure_count a))
           (<[id := subscript (missed_answers a) id + 1]> (missed_answers a))
           (touched (last_msg_timestamp a) id)
           (received_ids a)
    end.

(** One pass of the worker loop, lines 27-91. *)
Definition measurement_round (r : Round) (a : t) : t :=
  let missing_ids := received_ids a ∖ dom (rtt r) in
  let a1 :=
    if (0 <? size (rtt r))%nat
    then foldl (store_entry r) a (map_to_list (rtt r))
    else a in
  foldl (store_missing r) a1 (elements missing_ids).

(** The clearing of [restart_measurement], lines 121-129. *)
Definition restart_measurement (a : t) : t := empty.

(** The reference parameters of [get_rtt]. *)
Record Outputs := mkOutputs {
  _current_best_rtt : Z;
  _current_worst_rtt : Z;
  _all_time_worst_rtt : Z;
  _missed_answers : Q
}.

(** [get_rtt], lines 139-165: the returned flag, the reference parameters
    after the call, what was logged, and the maps after the subscripts. *)
Definition get_rtt (participant_id : string) (out : Outputs) (a : t)
  : bool * Outputs * list Event * t :=
  match current_best_rtt a !! participant_id with
  | None => (false, out, [], a)
  | Some best =>
      let a' :=
        mk (current_best_rtt a)
           (touched (current_worst_rtt a) participant_id)
           (touched (all_time_worst_rtt a) participant_id)
           (touched (measure_count a) participant_id)
           (if subscript (measure_count a) participant_id <=? 0
            then missed_answers a
            else touched (missed_answers a) participant_id)
           (last_msg_timestamp a) (received_ids a) in
      if subscript (measure_count a) participant_id <=? 0 then
        (true,
         mkOutputs best (subscript (current_worst_rtt a) participant_id)
           (subscript (all_time_worst_rtt a) participant_id) 0%Q,
         [LogWrite 1 MsgRttOverflow], a')
      else
        (true,
         mkOutputs best (subscript (current_worst_rtt a) participant_id)
           (subscript (all_time_worst_rtt a) participant_id)
           (Qmake (subscript (missed_answers a) participant_id)
                  (Z.to_pos (subscript (measure_count a) participant_id))),
         [], a')
  end.

(** The states the aggregator can be in: constructed, after a
    measurement round whose responses carry 64-bit round-trip times,
    after a restart, after a query. *)
Inductive reachable : t -> Prop :=
| reach_empty : reachable empty
| reach_round a responses clock :
    reachable a ->
    Forall (fun p => is_u64 p.2) responses ->
    reachable (measurement_round (mkRound (measure_rtt responses) clock) a)
| reach_restart a : reachable a -> reachable (restart_measurement a)
| reach_get a id out : reachable a -> reachable (get_rtt id out a).2.

(** Everything the aggregator holds about one id. *)
Record View := mkView {
  v_best : option Z;
  v_worst : option Z;
  v_all_time_worst : option Z;
  v_count : option Z;
  v_missed : option Z;
  v_last : option Z;
  v_known : bool
}.

Definition view (a : t) (id : string) : View :=
  mkView (current_best_rtt a !! id) (current_worst_rtt a !! id)
         (all_time_worst_rtt a !! id) (measure_count a !! id)
         (missed_answers a !! id) (last_msg_timestamp a !! id)
         (bool_decide (id ∈ received_ids a)).

Definition no_entry : View := mkView None None None None None None false.

(** What [store_entry] does to the id it stores. *)
Definition entry_step (r : Round) (id : string) (e : Z * Z) (v : View) : View :=
  match v_count v with
  | None =>
      mkView (Some e.1) (Some e.2) (Some e.2) (Some 1) (Some 0)
             (Some (now r id)) true
  | Some count =>
      mkView (Some e.1) (Some e.2)
             (Some (Z.max e.2 (default 0 (v_all_time_worst v))))
             (Some (count + 1)) (v_missed v) (Some (now r id)) true
  end.

(** What [store_missing] does to the id it handles. *)
Definition missing_step (r : Round) (id : string) (v : View) : View :=
  if sub64 (now r id) (default 0 (v_last v)) >? delete_entry_timeout_ns
  then no_entry
  else
    match v_count v with
    | None =>
        mkView (Some 0) (Some 0) (v_all_time_worst v) (Some 1) (Some 1)
               (Some (default 0 (v_last v))) (v_known v)
    | Some count =>
        mkView (Some 0) (Some 0) (v_all_time_worst v) (Some (count + 1))
               (Some (default 0 (v_missed v) + 1))
               (Some (default 0 (v_last v))) (v_known v)
    end.

(** The entry of an id is complete and its numbers are consistent, or
    the id has no entry at all. *)
Definition ok_view (v : View) : Prop :=
  match v with
  | mkView (Some b) (Some w) (Some x) (Some c) (Some m) (Some _) true =>
      0 <= b <= w /\ w <= x /\ 1 <= c /\ 0 <= m < c
  | mkView None None None None None None false => True
  | _ => False
  end.

Definition wf (a : t) : Prop := forall id, ok_view (view a id).

(** Two rounds with one "vehicle" responder, then a silent round. *)
Definition vehicle_rounds : RTTAggregator.t :=
  measurement_round (mkRound (measure_rtt []) (fun _ => 300))
    (measurement_round
       (mkRound (measure_rtt [("vehicle"%string, 5); ("vehicle"%string, 3)])
                (fun _ => 200))
       (measurement_round
          (mkRound (measure_rtt [("vehicle"%string, 9)]) (fun _ => 100))
          empty)).

End RTTAggregator.

(** * Facts *)

(** ** 64-bit arithmetic without wrap-around *)

Lemma wrap64_small z : is_u64 z -> wrap64 z = z.
Proof. intros H. unfold wrap64. apply Z.mod_small. exact H. Qed.

Lemma add64_small a b : is_u64 (a + b) -> add64 a b = a + b.
Proof. apply wrap64_small. Qed.

Lemma sub64_small a b : is_u64 (a - b) -> sub64 a b = a - b.
Proof. apply wrap64_small. Qed.

Lemma mul64_small a b : is_u64 (a * b) -> mul64 a b = a * b.
Proof. apply wrap64_small. Qed.

Lemma static_cast_int_small z : 0 <= z <= 2147483647 -> static_cast_int z = z.
Proof.
  intros H. unfold static_cast_int.
  rewrite Z.mod_small by lia.
  destruct (z <? 2 ^ 31) eqn:E; [reflexivity | apply Z.ltb_ge in E; lia].
Qed.

Lemma geb_lt a b : (a >=? b) = false <-> a < b.
Proof. rewrite Z.geb_leb. apply Z.leb_gt. Qed.

(** ** Traces *)

Lemma callbacks_app tr1 tr2 : callbacks (tr1 ++ tr2) = callbacks tr1 ++ callbacks tr2.
Proof.
  induction tr1 as [|e tr1 IH]; [reflexivity|].
  destruct e; simpl; rewrite IH; reflexivity.
Qed.

Lemma missed_warnings_app tr1 tr2 :
  missed_warnings (tr1 ++ tr2) = missed_warnings tr1 ++ missed_warnings tr2.
Proof.
  induction tr1 as [|e tr1 IH]; [reflexivity|].
  destruct e as [| | | |lvl []| | |]; simpl; rewrite IH; reflexivity.
Qed.

Lemma chain_weaken P lo lo' j l :
  0 <= P -> 0 <= j -> lo = lo' + j * P -> chain P lo l -> chain P lo' l.
Proof.
  intros HP Hj -> H. inversion H as [|? j' x l' Hj' Hx Hl]; subst.
  - constructor.
  - apply (chain_cons P lo' (j + j')); [lia | lia | exact Hl].
Qed.

Lemma chain_steps_by P lo l : 0 <= P -> chain P lo l -> steps_by P l.
Proof.
  intros HP H. induction H as [|lo j x l Hj Hx Hl IH].
  - intros i a b Ha. rewrite lookup_nil in Ha. discriminate.
  - intros [|i] a b Ha Hb.
    + simpl in Ha, Hb. injection Ha as <-.
      inversion Hl as [|? j' y l' Hj' Hy Hl']; subst; simpl in Hb; [discriminate|].
      injection Hb as <-. exists (j' + 1). lia.
    + simpl in Ha, Hb. exact (IH i a b Ha Hb).
Qed.

Lemma chain_lower_bound P lo l x : 0 <= P -> chain P lo l -> x ∈ l -> lo <= x.
Proof.
  intros HP H. induction H as [|lo j y l Hj Hy Hl IH]; intros Hin.
  - inversion Hin.
  - apply elem_of_cons in Hin as [->|Hin]; [nia|].
    specialize (IH Hin). nia.
Qed.

Lemma chain_on_grid P lo l x :
  0 <= P -> chain P lo l -> x ∈ l -> exists j, 0 <= j /\ x = lo + j * P.
Proof.
  intros HP H. induction H as [|lo j y l Hj Hy Hl IH]; intros Hin.
  - inversion Hin.
  - apply elem_of_cons in Hin as [->|Hin]; [eauto|].
    destruct (IH Hin) as (j' & Hj' & ->). exists (j + 1 + j'). lia.
Qed.

(** ** The real-time timer *)

Section TimerFDFacts.
Import TimerFD.

Lemma same_config_refl tm : same_config tm tm.
Proof. repeat split. Qed.

Lemma same_config_trans tm1 tm2 tm3 :
  same_config tm1 tm2 -> same_config tm2 tm3 -> same_config tm1 tm3.
Proof. unfold same_config. intuition congruence. Qed.

Lemma same_config_stop tm : same_config tm (stop tm).
Proof. unfold stop. destruct tm as [? ? ? ? ? ? ? ? ? ? ? []]; repeat split. Qed.

Lemma same_config_set_active b tm : same_config tm (set_active b tm).
Proof. repeat split. Qed.

Lemma stop_flags tm :
  active (stop tm) = false /\ cancelled (stop tm) = false /\
  runner_joinable (stop tm) = false.
Proof. unfold stop. destruct tm as [? ? ? ? ? ? ? ? ? ? ? []]; repeat split. Qed.

(** *** The initial deadline *)

Lemma initial_deadline_aligned P O S :
  0 < P -> 0 <= O < P -> O <= S -> S + P <= 2 ^ 64 ->
  S <= initial_deadline P O S < S + P /\
  (initial_deadline P O S - O) mod P = 0.
Proof.
  intros HP HO HS Hfit. unfold initial_deadline.
  rewrite sub64_small by (unfold is_u64; lia).
  pose proof (Z.div_mod (S - O) P ltac:(lia)) as Hdm.
  pose proof (Z.mod_pos_bound (S - O) P HP) as Hr.
  destruct ((S - O) mod P =? 0) eqn:E.
  - apply Z.eqb_eq in E. split; [lia | exact E].
  - apply Z.eqb_neq in E.
    assert (Hq : 0 <= (S - O) / P) by (apply Z.div_pos; lia).
    set (q := (S - O) / P) in *. set (r := (S - O) mod P) in *.
    clearbody q r.
    assert (Hqp : q <= q * P) by nia.
    assert (Hmul : (q + 1) * P = S - O - r + P) by lia.
    rewrite (add64_small q 1) by (unfold is_u64; lia).
    rewrite mul64_small by (unfold is_u64; lia).
    rewrite add64_small by (unfold is_u64; lia).
    split; [lia|].
    replace ((q + 1) * P + O - O) with ((q + 1) * P) by lia.
    apply Z.mod_mul. lia.
Qed.

Lemma initial_deadline_least P O S d :
  0 < P -> 0 <= O < P -> O <= S -> S + P <= 2 ^ 64 ->
  S <= d -> (d - O) mod P = 0 -> initial_deadline P O S <= d.
Proof.
  intros HP HO HS Hfit Hd Hmod.
  destruct (initial_deadline_aligned P O S HP HO HS Hfit) as [Hrange Hal].
  set (d0 := initial_deadline P O S) in *.
  apply Z.mod_divide in Hmod; [|lia]. apply Z.mod_divide in Hal; [|lia].
  destruct Hmod as [a Ha]. destruct Hal as [b Hb].
  destruct (Z_le_gt_dec d0 d) as [|Hgt]; [assumption|exfalso].
  assert (a < b) by nia. assert (b * P - a * P < P) by lia. nia.
Qed.

(** *** One pass of the main loop *)

Lemma correct_missed_late P d1 t' :
  0 < P -> 0 <= d1 <= t' -> t' + P < 2 ^ 64 ->
  correct_missed P d1 t' =
    (d1 + ((t' - d1) / P + 1) * P,
     [LogWrite 1 (MsgPeriodsMissed (static_cast_int ((t' - d1) / P + 1)));
      LogWrite 1 MsgTimeMeasurement]).
Proof.
  intros HP Hd Hfit. unfold correct_missed.
  destruct (t' >=? d1) eqn:E; [|apply geb_lt in E; lia].
  pose proof (Z.div_mod (t' - d1) P ltac:(lia)) as Hdm.
  pose proof (Z.mod_pos_bound (t' - d1) P HP) as Hr.
  assert (Hq : 0 <= (t' - d1) / P) by (apply Z.div_pos; lia).
  rewrite sub64_small by (unfold is_u64; lia).
  set (q := (t' - d1) / P) in *. set (r := (t' - d1) mod P) in *.
  clearbody q r.
  assert (Hqp : q <= q * P) by nia.
  assert (Hmul : (q + 1) * P = t' - d1 - r + P) by lia.
  rewrite (add64_small q 1) by (unfold is_u64; lia).
  rewrite mul64_small by (unfold is_u64; lia).
  rewrite add64_small by (unfold is_u64; lia).
  reflexivity.
Qed.

Lemma correct_missed_in_time P d1 t' :
  t' < d1 -> correct_missed P d1 t' = (d1, []).
Proof.
  intros H. unfold correct_missed.
  destruct (t' >=? d1) eqn:E; [apply Z.geb_le in E; lia | reflexivity].
Qed.

Lemma correct_missed_callbacks P d1 t' : callbacks (correct_missed P d1 t').2 = [].
Proof. unfold correct_missed. destruct (t' >=? d1); reflexivity. Qed.

Section Loop.

Variable update_calls_stop : Z -> bool.
Variable stop_callback_calls_stop : bool.

Let tick := tick update_calls_stop stop_callback_calls_stop.
Let main_loop := main_loop update_calls_stop stop_callback_calls_stop.

Lemma tick_same_config tk tm d : same_config tm (tick tk tm d).1.1.
Proof.
  unfold tick, TimerFD.tick.
  destruct (correct_missed _ _ _) as [d2 trm].
  repeat match goal with
         | |- context [if ?b then _ else _] => destruct b
         | |- context [match ?o with Some _ => _ | None => _ end] => destruct o
         end; simpl;
    repeat first
      [ apply same_config_refl
      | apply same_config_stop
      | apply same_config_set_active
      | eapply same_config_trans; [|apply same_config_stop]
      | eapply same_config_trans; [|apply same_config_set_active] ].
Qed.

Lemma tick_early tk tm d :
  t_wake tk < d -> (tick tk tm d).1.2 = d /\ (tick tk tm d).2 = [TimerfdRead].
Proof.
  intros H. unfold tick, TimerFD.tick.
  destruct (t_wake tk >=? d) eqn:E; [apply Z.geb_le in E; lia|].
  split; reflexivity.
Qed.

Lemma tick_on_time tk tm d :
  0 < period_nanoseconds tm -> 0 <= d <= t_wake tk ->
  tick_in_range (period_nanoseconds tm) tk ->
  t_after tk < d + period_nanoseconds tm ->
  (tick tk tm d).1.2 = d + period_nanoseconds tm /\
  callbacks (tick tk tm d).2 = callback_of tm d /\
  missed_warnings (tick tk tm d).2 = [].
Proof.
  intros HP Hd (Hw0 & Hw & Ha0 & Ha) Hlate. unfold tick, TimerFD.tick, callback_of.
  destruct (t_wake tk >=? d) eqn:E; [|apply geb_lt in E; lia].
  rewrite add64_small by (unfold is_u64; lia).
  rewrite correct_missed_in_time by lia.
  destruct (m_update_callback tm), (received_stop_signal tm (taken tk)),
    (m_stop_callback tm); repeat split; reflexivity.
Qed.

Lemma tick_late tk tm d :
  0 < period_nanoseconds tm -> 0 <= d <= t_wake tk ->
  tick_in_range (period_nanoseconds tm) tk ->
  d + period_nanoseconds tm <= t_after tk ->
  let P := period_nanoseconds tm in
  let k := (t_after tk - (d + P)) / P + 1 in
  (tick tk tm d).1.2 = d + P + k * P /\
  callbacks (tick tk tm d).2 = callback_of tm d /\
  missed_warnings (tick tk tm d).2 = [static_cast_int k].
Proof.
  intros HP Hd (Hw0 & Hw & Ha0 & Ha) Hlate P k. subst P k.
  unfold tick, TimerFD.tick, callback_of.
  destruct (t_wake tk >=? d) eqn:E; [|apply geb_lt in E; lia].
  rewrite add64_small by (unfold is_u64; lia).
  rewrite correct_missed_late by lia.
  destruct (m_update_callback tm), (received_stop_signal tm (taken tk)),
    (m_stop_callback tm); repeat split; reflexivity.
Qed.

Lemma missed_periods_positive P d1 t' : 0 < P -> d1 <= t' -> 1 <= (t' - d1) / P + 1.
Proof. intros HP H. assert (0 <= (t' - d1) / P) by (apply Z.div_pos; lia). lia. Qed.

(** Every pass leaves the deadline on the grid of the period, and hands
    the callback at most the deadline it started with. *)
Lemma tick_grid tk tm d :
  0 < period_nanoseconds tm -> 0 <= d ->
  tick_in_range (period_nanoseconds tm) tk ->
  let P := period_nanoseconds tm in
  (callbacks (tick tk tm d).2 = [] /\
   exists j, 0 <= j /\ (tick tk tm d).1.2 = d + j * P) \/
  (callbacks (tick tk tm d).2 = [d] /\
   exists j, 0 <= j /\ (tick tk tm d).1.2 = d + P + j * P).
Proof.
  intros HP Hd Hr P.
  destruct (Z_lt_le_dec (t_wake tk) d) as [Hearly|Hfire].
  - destruct (tick_early tk tm d Hearly) as [Hd' Htr]. left.
    rewrite Htr, Hd'. split; [reflexivity|]. exists 0. lia.
  - assert (Hcase :
      exists j, 0 <= j /\ (tick tk tm d).1.2 = d + P + j * P /\
                callbacks (tick tk tm d).2 = callback_of tm d).
    { destruct (Z_lt_le_dec (t_after tk) (d + P)) as [Hin|Hlate].
      - destruct (tick_on_time tk tm d HP (conj Hd Hfire) Hr Hin) as (H1 & H2 & _).
        exists 0. fold P in H1. repeat split; [lia | lia | exact H2].
      - destruct (tick_late tk tm d HP (conj Hd Hfire) Hr Hlate) as (H1 & H2 & _).
        exists ((t_after tk - (d + P)) / P + 1).
        pose proof (missed_periods_positive P (d + P) (t_after tk) HP Hlate).
        repeat split; [lia | exact H1 | exact H2]. }
    destruct Hcase as (j & Hj & Hd' & Hcb). unfold callback_of in Hcb.
    destruct (m_update_callback tm).
    + right. split; [exact Hcb|]. exists j. split; assumption.
    + left. split; [exact Hcb|]. exists (j + 1). split; [lia|]. rewrite Hd'. lia.
Qed.

Lemma main_loop_chain ticks : forall tm d,
  0 < period_nanoseconds tm -> 0 <= d ->
  Forall (tick_in_range (period_nanoseconds tm)) ticks ->
  chain (period_nanoseconds tm) d (callbacks (main_loop ticks tm d).2).
Proof.
  induction ticks as [|tk ticks IH]; intros tm d HP Hd Hall;
    unfold main_loop; simpl; destruct (active tm); simpl; try constructor.
  apply Forall_cons in Hall as [Htk Hall].
  pose proof (tick_same_config tk tm d) as Hcfg.
  pose proof (tick_grid tk tm d HP Hd Htk) as Hgrid.
  unfold tick in Hcfg, Hgrid.
  destruct (TimerFD.tick _ _ tk tm d) as [[tm' d'] tr]. simpl in Hcfg, Hgrid.
  destruct Hcfg as (HP' & _).
  specialize (IH tm' d'). unfold main_loop in IH. rewrite HP' in IH.
  destruct Hgrid as [(Hcb & j & Hj & ->)|(Hcb & j & Hj & ->)].
  - specialize (IH HP ltac:(nia) Hall).
    destruct (TimerFD.main_loop _ _ ticks tm' _) as [o tr']. simpl in *.
    rewrite callbacks_app, Hcb. simpl.
    eapply chain_weaken; [| exact Hj | reflexivity | exact IH]. lia.
  - specialize (IH HP ltac:(nia) Hall).
    destruct (TimerFD.main_loop _ _ ticks tm' _) as [o tr']. simpl in *.
    rewrite callbacks_app, Hcb. simpl.
    apply (chain_cons _ d 0); [lia | lia |].
    eapply chain_weaken; [| exact Hj | reflexivity | exact IH]. lia.
Qed.

End Loop.

Lemma receiveStartTime_quiet wakes : forall tm,
  same_config tm (receiveStartTime wakes tm).1.2 /\
  callbacks (receiveStartTime wakes tm).2 = [].
Proof.
  induction wakes as [|w wakes IH]; intros tm; simpl;
    destruct (active tm); simpl; try (split; [apply same_config_refl | reflexivity]).
  destruct (first_valid (samples w)) as [s|]; simpl.
  - split; [|reflexivity]. destruct (stop_requested w);
      [apply same_config_stop | apply same_config_refl].
  - specialize (IH (if stop_requested w then stop tm else tm)).
    destruct (receiveStartTime wakes _) as [[r tm''] tr]. simpl in *.
    destruct IH as [Hcfg Hcb]. split; [|exact Hcb].
    eapply same_config_trans; [|exact Hcfg].
    destruct (stop_requested w); [apply same_config_stop | apply same_config_refl].
Qed.

Lemma receiveStartTime_stop_signal pre w post s : forall tm,
  Forall (fun w => first_valid (samples w) = None) pre ->
  first_valid (samples w) = Some s ->
  next_start s = stop_signal tm ->
  (receiveStartTime (pre ++ w :: post) tm).1.1 = Some (stop_signal tm).
Proof.
  induction pre as [|w0 pre IH]; intros tm Hpre Hw Hs; simpl;
    destruct (active tm); simpl; try reflexivity.
  - rewrite Hw. simpl. congruence.
  - apply Forall_cons in Hpre as [Hw0 Hpre]. rewrite Hw0.
    specialize (IH (if stop_requested w0 then stop tm else tm) Hpre Hw).
    assert (Hsig : stop_signal (if stop_requested w0 then stop tm else tm)
                   = stop_signal tm)
      by (destruct (stop_requested w0); [apply same_config_stop | reflexivity]).
    rewrite Hsig in IH. specialize (IH Hs).
    destruct (receiveStartTime (pre ++ w :: post) _) as [[r tm''] tr].
    exact IH.
Qed.

(** Whatever the negotiation and the loop do, a run of [start] hands the
    callback only deadlines on the grid of the initial deadline. *)
Lemma start_chain ucs scs cb wakes now ticks tm s :
  active tm = false -> cancelled tm = false ->
  0 < period_nanoseconds tm ->
  (if wait_for_start tm
   then (receiveStartTime wakes (set_update_callback cb (set_active true tm))).1.1
   else Some now) = Some s ->
  0 <= initial_deadline (period_nanoseconds tm) (offset_nanoseconds tm) s ->
  Forall (tick_in_range (period_nanoseconds tm)) ticks ->
  chain (period_nanoseconds tm)
    (initial_deadline (period_nanoseconds tm) (offset_nanoseconds tm) s)
    (callbacks (start ucs scs cb wakes now ticks tm).2).
Proof.
  intros Hact Hcan HP Hneg Hd0 Hticks. unfold start. rewrite Hact. simpl.
  rewrite Hcan. simpl.
  set (tm1 := set_update_callback cb (set_active true tm)) in *.
  assert (Hneg' :
    exists tm2 tr, (if wait_for_start tm then receiveStartTime wakes tm1
                    else (Some now, tm1, [])) = (Some s, tm2, tr)
                   /\ same_config tm1 tm2 /\ callbacks tr = []).
  { destruct (wait_for_start tm).
    - pose proof (receiveStartTime_quiet wakes tm1) as [Hcfg Hcb].
      destruct (receiveStartTime wakes tm1) as [[r tm2] tr]. simpl in *.
      subst r. exists tm2, tr. auto.
    - injection Hneg as ->. exists tm1, []. repeat split. }
  destruct Hneg' as (tm2 & tr & -> & Hcfg & Hcb).
  destruct Hcfg as (HP2 & HO2 & _). simpl in HP2, HO2. simpl.
  destruct (wait_for_start tm2 && (s =? stop_signal tm2)); simpl.
  - rewrite Hcb. constructor.
  - rewrite HP2, HO2.
    pose proof (main_loop_chain ucs scs ticks
      (set_start_point_initialized true (set_start_point s tm2))
      (initial_deadline (period_nanoseconds tm) (offset_nanoseconds tm) s)) as Hc.
    simpl in Hc. rewrite HP2 in Hc. specialize (Hc HP Hd0 Hticks).
    destruct (main_loop _ _ ticks _ _) as [o tr']. simpl in *.
    rewrite callbacks_app, Hcb. exact Hc.
Qed.

(** With a start instant at or above the offset and no wrap-around, every
    deadline a run of [start] hands to the callback is at or after the start
    instant and on a boundary congruent to the offset. *)
Lemma start_ticks_on_boundaries ucs scs cb wakes now ticks tm s d :
  active tm = false -> cancelled tm = false ->
  0 < period_nanoseconds tm ->
  0 <= offset_nanoseconds tm < period_nanoseconds tm ->
  (if wait_for_start tm
   then (receiveStartTime wakes (set_update_callback cb (set_active true tm))).1.1
   else Some now) = Some s ->
  offset_nanoseconds tm <= s -> s + period_nanoseconds tm <= 2 ^ 64 ->
  Forall (tick_in_range (period_nanoseconds tm)) ticks ->
  d ∈ callbacks (start ucs scs cb wakes now ticks tm).2 ->
  s <= d /\ (d - offset_nanoseconds tm) mod period_nanoseconds tm = 0.
Proof.
  intros Hact Hcan HP HO Hneg HS Hfit Hticks Hin.
  destruct (initial_deadline_aligned _ _ s HP HO HS Hfit) as [Hrange Hal].
  assert (Hd0 : 0 <= initial_deadline (period_nanoseconds tm)
                        (offset_nanoseconds tm) s) by lia.
  pose proof (start_chain ucs scs cb wakes now ticks tm s Hact Hcan HP Hneg
                Hd0 Hticks) as Hchain.
  assert (HP0 : 0 <= period_nanoseconds tm) by lia.
  destruct (chain_on_grid _ _ _ d HP0 Hchain Hin) as (j & Hj & ->).
  split; [nia|].
  replace (initial_deadline (period_nanoseconds tm) (offset_nanoseconds tm) s
           + j * period_nanoseconds tm - offset_nanoseconds tm)
    with (initial_deadline (period_nanoseconds tm) (offset_nanoseconds tm) s
          - offset_nanoseconds tm + j * period_nanoseconds tm) by lia.
  rewrite Z.mod_add by lia. exact Hal.
Qed.

(** C1, evaluated where the code departs from it.  A timer constructed with
    period 200 and offset 5 that waits for its start receives the start
    instant 0, a start instant below the offset.  The subtraction of lines
    172 and 176 wraps around: the initial deadline is 189, the callback is
    handed 189 and 389, and neither is on a boundary congruent to the
    offset, although 5 is such a boundary at or after the start instant and
    before 189. *)
Theorem initial_deadline_start_below_offset :
  exists tm,
    new "timer" 200 5 true TRIGGER_STOP_SYMBOL = (Constructed tm, []) /\
    initial_deadline 200 5 0 = 189 /\
    callbacks
      (start (fun _ => false) false (Some 1%nat)
         [mkWake [mkSample true 0] false] 0
         [mkTick 300 301 [] false;
          mkTick 400 401 [mkSample true TRIGGER_STOP_SYMBOL] false] tm).2
      = [189; 389] /\
    Forall (fun d => 0 <= d /\ (d - 5) mod 200 <> 0) [189; 389] /\
    (0 <= 5 < 189 /\ (5 - 5) mod 200 = 0).
Proof.
  eexists. split; [reflexivity|]. vm_compute.
  repeat split; try congruence; repeat constructor; congruence.
Qed.

(** C2.  In a pass of the main loop that invoked the callback with deadline
    [d], if the clock read after the callback is at or past the incremented
    deadline [d + P], exactly one missed-period warning is logged, with
    [k = (t' - (d + P)) div P + 1], the deadline becomes [d + P + k * P],
    and the callback was invoked for [d] only; over a whole run of the
    loop, consecutive callback deadlines differ by a positive multiple of
    the period.  Clock values stay a period below 2^64 and [k] fits the
    [int] it is printed as. *)
Theorem missed_period_recovery (ucs : Z -> bool) (scs : bool) (tm : TimerFD.t) :
  0 < period_nanoseconds tm ->
  (forall tk d,
     0 <= d <= t_wake tk ->
     tick_in_range (period_nanoseconds tm) tk ->
     d + period_nanoseconds tm <= t_after tk ->
     (t_after tk - (d + period_nanoseconds tm)) / period_nanoseconds tm + 1
       <= 2147483647 ->
     let P := period_nanoseconds tm in
     let k := (t_after tk - (d + P)) / P + 1 in
     1 <= k /\
     missed_warnings (tick ucs scs tk tm d).2 = [k] /\
     (tick ucs scs tk tm d).1.2 = d + P + k * P /\
     callbacks (tick ucs scs tk tm d).2 = callback_of tm d) /\
  (forall ticks d,
     0 <= d ->
     Forall (tick_in_range (period_nanoseconds tm)) ticks ->
     steps_by (period_nanoseconds tm)
       (callbacks (main_loop ucs scs ticks tm d).2)).
Proof.
  intros HP. split.
  - intros tk d Hd Hr Hlate Hint P k.
    pose proof (missed_periods_positive P (d + P) (t_after tk) HP Hlate) as Hk.
    destruct (tick_late ucs scs tk tm d HP Hd Hr Hlate) as (H1 & H2 & H3).
    fold P in H1, H3. fold k in H1, H3.
    rewrite static_cast_int_small in H3 by (subst k P; lia).
    repeat split; assumption.
  - intros ticks d Hd Hall.
    apply (chain_steps_by _ d); [lia|].
    apply main_loop_chain; assumption.
Qed.

(** The overrun scenario of the design document: period 100, the callback
    for deadline 1000 returns at 1250. *)
Lemma missed_period_recovery_witness :
  let tm := mk 100 0 "timer" false TRIGGER_STOP_SYMBOL
               true false 1000 true (Some 1%nat) None false in
  let tk := mkTick 1000 1250 [] false in
  (missed_warnings (tick (fun _ => false) false tk tm 1000).2 = [2] /\
   (tick (fun _ => false) false tk tm 1000).1.2 = 1300 /\
   callbacks (tick (fun _ => false) false tk tm 1000).2 = [1000]) /\
  steps_by 100
    (callbacks (main_loop (fun _ => false) false
                  [tk; mkTick 1300 1301 [] false] tm 1000).2).
Proof.
  intros tm tk.
  destruct (missed_period_recovery (fun _ => false) false tm ltac:(simpl; lia))
    as [Htick Hrun].
  split.
  - pose proof (Htick tk 1000 ltac:(simpl; lia)
                  ltac:(unfold tick_in_range; simpl; lia) ltac:(simpl; lia)
                  ltac:(vm_compute; discriminate)) as (_ & H1 & H2 & H3).
    split; [exact H1 | split; [exact H2 | exact H3]].
  - apply (Hrun [tk; mkTick 1300 1301 [] false] 1000); [lia|].
    repeat constructor; simpl; lia.
Defined.

(** C9.  A timer that waits for its start and is neither active nor
    cancelled, and whose start point was never marked initialized: if the
    first valid trigger sample seen during the negotiation carries the stop
    signal, [start] returns, the update callback was never invoked, and
    [get_start_time] returns 0 afterwards. *)
Theorem stop_during_start_negotiation
    (ucs : Z -> bool) (scs : bool) (cb : option nat)
    (pre : list Wake) (w : Wake) (post : list Wake) (s : Sample)
    (now : Z) (ticks : list Tick) (tm : TimerFD.t) :
  active tm = false -> cancelled tm = false ->
  wait_for_start tm = true -> start_point_initialized tm = false ->
  Forall (fun w => first_valid (samples w) = None) pre ->
  first_valid (samples w) = Some s ->
  next_start s = stop_signal tm ->
  exists tm' tr,
    start ucs scs cb (pre ++ w :: post) now ticks tm = (Returned tm', tr) /\
    callbacks tr = [] /\
    start_point_initialized tm' = false /\
    get_start_time tm' = 0.
Proof.
  intros Hact Hcan Hwait Hinit Hpre Hw Hs. unfold start.
  rewrite Hact. simpl. rewrite Hcan, Hwait. simpl.
  set (tm1 := set_update_callback cb (set_active true tm)).
  pose proof (receiveStartTime_quiet (pre ++ w :: post) tm1) as [Hcfg Hcb].
  pose proof (receiveStartTime_stop_signal pre w post s tm1 Hpre Hw Hs) as Hres.
  destruct (receiveStartTime (pre ++ w :: post) tm1) as [[r tm2] tr].
  simpl in Hcfg, Hcb, Hres. subst r.
  destruct Hcfg as (_ & _ & _ & Hwait2 & Hsig2 & _ & Hinit2 & _).
  simpl in Hwait2, Hsig2, Hinit2. simpl.
  rewrite Hwait2, Hwait, Hsig2, Z.eqb_refl. simpl.
  eexists _, _. split; [reflexivity|].
  split; [exact Hcb|].
  assert (Hi : start_point_initialized (set_start_point (stop_signal tm) tm2) = false)
    by (simpl; congruence).
  split; [exact Hi|]. unfold get_start_time. rewrite Hi. reflexivity.
Qed.

Lemma stop_during_start_negotiation_witness :
  let tm := mk 200 5 "timer" true TRIGGER_STOP_SYMBOL
               false false 0 false None None false in
  exists tm' tr,
    start (fun _ => false) false (Some 1%nat)
      ([mkWake [] false; mkWake [mkSample false 7] false]
         ++ mkWake [mkSample true TRIGGER_STOP_SYMBOL; mkSample true 1000] false
         :: [mkWake [mkSample true 2000] false])
      0 [mkTick 1005 1006 [] false] tm = (Returned tm', tr) /\
    callbacks tr = [] /\
    start_point_initialized tm' = false /\
    get_start_time tm' = 0.
Proof.
  intros tm.
  apply (stop_during_start_negotiation (fun _ => false) false (Some 1%nat)
           [mkWake [] false; mkWake [mkSample false 7] false]
           (mkWake [mkSample true TRIGGER_STOP_SYMBOL; mkSample true 1000] false)
           [mkWake [mkSample true 2000] false]
           (mkSample true TRIGGER_STOP_SYMBOL));
    try reflexivity.
  repeat constructor.
Defined.

(** C6 as stated fails: an offset equal to the period does not make the
    constructor of the real-time timer throw [ErrorConfiguration]. *)
Lemma offset_not_below_period_is_no_exception :
  ~ (forall node P O wait sig,
       P <= O ->
       (TimerFD.new node P O wait sig).1 = ConstructionThrows ErrorConfiguration).
Proof.
  intros H. specialize (H "timer"%string 10 10 true TRIGGER_STOP_SYMBOL ltac:(lia)).
  vm_compute in H. discriminate H.
Qed.

(** C6, amended.  The constructor of the real-time timer, given an offset
    that is not below the period, logs the error and terminates the process
    with [EXIT_FAILURE]: no object is created and no exception reaches the
    caller; with an offset below the period it constructs the timer.  The
    constructor of the simulated timer constructs the timer for every
    offset and period. *)
Theorem offset_not_below_period_exits :
  (forall node P O wait sig,
     P <= O ->
     TimerFD.new node P O wait sig
       = (ProcessExits EXIT_FAILURE, [LogWrite 1 MsgOffsetHigher])) /\
  (forall node P O wait sig,
     O < P ->
     exists tm, TimerFD.new node P O wait sig = (Constructed tm, []) /\
                period_nanoseconds tm = P /\ offset_nanoseconds tm = O /\
                active tm = false /\ cancelled tm = false) /\
  (forall node P O,
     exists tm, TimerSimulated.new node P O = (Constructed tm, []) /\
                TimerSimulated.period_nanoseconds tm = P /\
                TimerSimulated.offset_nanoseconds tm = O /\
                TimerSimulated.active tm = false).
Proof.
  split; [|split].
  - intros node P O wait sig H. unfold TimerFD.new.
    destruct (O >=? P) eqn:E; [reflexivity | apply geb_lt in E; lia].
  - intros node P O wait sig H. unfold TimerFD.new.
    destruct (O >=? P) eqn:E; [apply Z.geb_le in E; lia|].
    eexists. split; [reflexivity|]. repeat split.
  - intros node P O. eexists. split; [reflexivity|]. repeat split.
Qed.

Lemma offset_not_below_period_exits_witness :
  TimerFD.new "timer" 200 200 true TRIGGER_STOP_SYMBOL
    = (ProcessExits EXIT_FAILURE, [LogWrite 1 MsgOffsetHigher]) /\
  (exists tm, TimerFD.new "timer" 200 5 true TRIGGER_STOP_SYMBOL = (Constructed tm, []) /\
              period_nanoseconds tm = 200 /\ offset_nanoseconds tm = 5 /\
              active tm = false /\ cancelled tm = false) /\
  (exists tm, TimerSimulated.new "timer" 10 30 = (Constructed tm, []) /\
              TimerSimulated.period_nanoseconds tm = 10 /\
              TimerSimulated.offset_nanoseconds tm = 30 /\
              TimerSimulated.active tm = false).
Proof.
  destruct offset_not_below_period_exits as (H1 & H2 & H3).
  split; [|split].
  - apply H1. lia.
  - apply H2. lia.
  - apply H3.
Defined.

(** C4 as stated fails: [stop] does not make the instance terminal.  A
    later [start] on a stopped real-time timer invokes the callback. *)
Lemma start_after_stop_ticks_again :
  ~ (forall ucs scs cb wakes now ticks tm,
       callbacks (TimerFD.start ucs scs cb wakes now ticks (TimerFD.stop tm)).2 = []).
Proof.
  intros H.
  specialize (H (fun _ => true) false (Some 1%nat) [] 20
                [mkTick 20 21 [] false]
                (mk 10 0 "timer" false TRIGGER_STOP_SYMBOL
                    true false 0 true (Some 1%nat) None false)).
  vm_compute in H. discriminate H.
Qed.

(** C4, amended.  While a timer is active, [start(update_callback)] throws
    [ErrorTimerStart] and leaves the timer as it was, and so does
    [start_async(update_callback)] while the worker thread is joinable.
    On a timer without a joinable worker (never started, or started with
    the blocking [start]), [stop] leaves the timer inactive, not cancelled
    and still without a joinable worker, so the instance is not terminal:
    a later [start] on it is accepted and enters the tick loop again.
    This holds for the real-time and for the simulated timer. *)
Theorem start_twice_and_restart :
  (forall ucs scs cb wakes now ticks tm,
     TimerFD.active tm = true ->
     TimerFD.start ucs scs cb wakes now ticks tm
       = (Thrown ErrorTimerStart tm, [LogWrite 2 MsgStartedTwice])) /\
  (forall cb tm,
     TimerFD.runner_joinable tm = true ->
     TimerFD.start_async cb tm
       = (Thrown ErrorTimerStart tm, [LogWrite 2 MsgStartedTwice])) /\
  (forall ucs scs cb wakes tm,
     TimerSimulated.active tm = true ->
     TimerSimulated.start ucs scs cb wakes tm
       = (Thrown ErrorTimerStart tm, [LogWrite 2 MsgStartedTwice])) /\
  (forall cb tm,
     TimerSimulated.runner_joinable tm = true ->
     TimerSimulated.start_async cb tm
       = (Thrown ErrorTimerStart tm, [LogWrite 2 MsgStartedTwice])) /\
  (forall tm,
     TimerFD.runner_joinable tm = false ->
     TimerFD.active (TimerFD.stop tm) = false /\
     TimerFD.cancelled (TimerFD.stop tm) = false /\
     TimerFD.runner_joinable (TimerFD.stop tm) = false) /\
  (forall tm,
     TimerSimulated.runner_joinable tm = false ->
     TimerSimulated.active (TimerSimulated.stop tm) = false /\
     TimerSimulated.cancelled (TimerSimulated.stop tm) = false /\
     TimerSimulated.runner_joinable (TimerSimulated.stop tm) = false) /\
  (forall ucs scs cb wakes now ticks tm,
     TimerFD.runner_joinable tm = false ->
     TimerFD.wait_for_start tm = false ->
     TimerFD.start ucs scs cb wakes now ticks (TimerFD.stop tm) =
       let tm' :=
         TimerFD.set_start_point_initialized true
           (TimerFD.set_start_point now
              (TimerFD.set_update_callback cb
                 (TimerFD.set_active true (TimerFD.stop tm)))) in
       let run :=
         TimerFD.main_loop ucs scs ticks tm'
           (TimerFD.initial_deadline (TimerFD.period_nanoseconds tm)
              (TimerFD.offset_nanoseconds tm) now) in
       (run.1, TimerfdCreate :: run.2)) /\
  (forall ucs scs cb wakes tm,
     TimerSimulated.runner_joinable tm = false ->
     TimerSimulated.start ucs scs cb wakes (TimerSimulated.stop tm) =
       TimerSimulated.ready_loop ucs scs wakes
         (TimerSimulated.set_current_time (TimerSimulated.offset_nanoseconds tm)
            (TimerSimulated.set_update_callback cb
               (TimerSimulated.set_active true (TimerSimulated.stop tm))))
         (TimerSimulated.offset_nanoseconds tm)).
Proof.
  repeat apply conj.
  - intros ucs scs cb wakes now ticks tm H. unfold TimerFD.start. rewrite H. reflexivity.
  - intros cb tm H. unfold TimerFD.start_async. rewrite H. reflexivity.
  - intros ucs scs cb wakes tm H. unfold TimerSimulated.start. rewrite H. reflexivity.
  - intros cb tm H. unfold TimerSimulated.start_async. rewrite H. reflexivity.
  - intros tm _. apply stop_flags.
  - intros tm _. unfold TimerSimulated.stop.
    destruct tm as [? ? ? ? ? ? ? ? []]; repeat split.
  - intros ucs scs cb wakes now ticks tm _ Hwait.
    destruct tm as [P O n w sg a c sp spi ucb scb []]; simpl in Hwait; subst w;
      unfold TimerFD.start; simpl;
      destruct (TimerFD.main_loop _ _ _ _ _); reflexivity.
  - intros ucs scs cb wakes tm _.
    destruct tm as [P O n ct a c ucb scb []]; reflexivity.
Qed.

Lemma start_twice_and_restart_witness :
  let running := mk 10 0 "timer" false TRIGGER_STOP_SYMBOL
                    true false 0 true (Some 1%nat) None false in
  let running_async := mk 10 0 "timer" false TRIGGER_STOP_SYMBOL
                          true false 0 true (Some 1%nat) None true in
  TimerFD.start (fun _ => false) false (Some 2%nat) [] 50 [mkTick 50 51 [] false] running
    = (Thrown ErrorTimerStart running, [LogWrite 2 MsgStartedTwice]) /\
  TimerFD.start_async (Some 2%nat) running_async
    = (Thrown ErrorTimerStart running_async, [LogWrite 2 MsgStartedTwice]) /\
  (TimerFD.active (TimerFD.stop running) = false /\
   TimerFD.cancelled (TimerFD.stop running) = false /\
   TimerFD.runner_joinable (TimerFD.stop running) = false) /\
  callbacks (TimerFD.start (fun _ => false) false (Some 2%nat) [] 50
               [mkTick 50 51 [] false] (TimerFD.stop running)).2 = [50].
Proof.
  intros running running_async.
  destruct start_twice_and_restart as (H1 & H2 & _ & _ & H5 & _ & H7 & _).
  split; [|split; [|split]].
  - apply H1. reflexivity.
  - apply H2. reflexivity.
  - apply H5. reflexivity.
  - rewrite (H7 (fun _ => false) false (Some 2%nat) [] 50
               [mkTick 50 51 [] false] running eq_refl eq_refl).
    reflexivity.
Defined.

End TimerFDFacts.

(** ** The simulated-time timer *)

Section TimerSimulatedFacts.
Import TimerSimulated.

Section Handle.

Variable update_calls_stop : Z -> bool.
Variable stop_callback_calls_stop : bool.

Let on_sample := on_sample update_calls_stop stop_callback_calls_stop.
Let handle_samples := handle_samples update_calls_stop stop_callback_calls_stop.
Let handle_system_trigger :=
  handle_system_trigger update_calls_stop stop_callback_calls_stop.
Let main_loop := main_loop update_calls_stop stop_callback_calls_stop.
Let ready_loop := ready_loop update_calls_stop stop_callback_calls_stop.

Lemma on_sample_ignored s gv gn tm d :
  ignored d s ->
  on_sample s gv gn tm d = (false, (gv || valid s, gn, tm, d), []).
Proof.
  intros [Hinv|[Hd Hstop]]; unfold on_sample, TimerSimulated.on_sample.
  - rewrite Hinv, orb_false_r. reflexivity.
  - destruct (valid s); [|rewrite orb_false_r; reflexivity].
    apply Z.eqb_neq in Hd, Hstop. rewrite Hd, Hstop, orb_true_r. reflexivity.
Qed.

Lemma handle_samples_ignored l : forall gv gn tm d,
  Forall (ignored d) l ->
  handle_samples l gv gn tm d =
    ((if gn then DEADLINE
      else if gv || existsb valid l then ANY else NONE), tm, d, []).
Proof.
  induction l as [|s l IH]; intros gv gn tm d Hall.
  - simpl. rewrite orb_false_r. reflexivity.
  - apply Forall_cons in Hall as [Hs Hall].
    unfold handle_samples. simpl.
    pose proof (on_sample_ignored s gv gn tm d Hs) as Hstep.
    unfold on_sample in Hstep. rewrite Hstep.
    specialize (IH (gv || valid s) gn tm d Hall). unfold handle_samples in IH.
    rewrite IH. rewrite orb_assoc. reflexivity.
Qed.

Lemma handle_samples_match pre s post : forall gv gn tm d,
  Forall (ignored d) pre -> valid s = true -> next_start s = d ->
  exists tr,
    (handle_samples (pre ++ s :: post) gv gn tm d).2
      = match m_update_callback tm with
        | Some _ => [UpdateCallback d]
        | None => []
        end ++ tr.
Proof.
  induction pre as [|s0 pre IH]; intros gv gn tm d Hpre Hv Hd.
  - unfold handle_samples. simpl. unfold TimerSimulated.on_sample.
    rewrite Hv, Hd, Z.eqb_refl. simpl.
    destruct (TimerSimulated.handle_samples _ _ post _ _ _ _) as [[[a tm'] d'] tr'].
    simpl. rewrite <- app_assoc. eauto.
  - apply Forall_cons in Hpre as [Hs0 Hpre].
    unfold handle_samples. simpl.
    pose proof (on_sample_ignored s0 gv gn tm d Hs0) as Hstep.
    unfold on_sample in Hstep. rewrite Hstep.
    destruct (IH (gv || valid s0) gn tm d Hpre Hv Hd) as [tr Htr].
    unfold handle_samples in Htr.
    destruct (TimerSimulated.handle_samples _ _ (pre ++ s :: post) _ _ _ _)
      as [[[a tm'] d'] tr'].
    simpl in *. eauto.
Qed.

Lemma sample_cases d s :
  ignored d s \/ (valid s = true /\ next_start s = d) \/
  (valid s = true /\ next_start s <> d /\ next_start s = TRIGGER_STOP_SYMBOL).
Proof.
  unfold ignored. destruct (valid s); [|auto].
  destruct (Z.eq_dec (next_start s) d); [auto|].
  destruct (Z.eq_dec (next_start s) TRIGGER_STOP_SYMBOL); auto.
Qed.

Lemma on_sample_stop s gv gn tm d :
  valid s = true -> next_start s <> d -> next_start s = TRIGGER_STOP_SYMBOL ->
  on_sample s gv gn tm d =
    match m_stop_callback tm with
    | Some _ =>
        (true, (true, gn, (if stop_callback_calls_stop then stop tm else tm), d),
         [StopCallback])
    | None => (true, (true, gn, set_active false tm, d), [])
    end.
Proof.
  intros Hv Hd Hstop. unfold on_sample, TimerSimulated.on_sample.
  apply Z.eqb_neq in Hd. rewrite Hv, Hd, Hstop. simpl. reflexivity.
Qed.

Lemma handle_samples_callback l : forall gv gn tm d t,
  UpdateCallback t ∈ (handle_samples l gv gn tm d).2 ->
  exists pre s post,
    l = pre ++ s :: post /\ Forall (ignored d) pre /\
    valid s = true /\ next_start s = d.
Proof.
  induction l as [|s l IH]; intros gv gn tm d t Hin.
  - simpl in Hin. inversion Hin.
  - destruct (sample_cases d s) as [Hig|[[Hv Hd]|(Hv & Hd & Hstop)]].
    + unfold handle_samples in Hin. simpl in Hin.
      pose proof (on_sample_ignored s gv gn tm d Hig) as Hstep.
      unfold on_sample in Hstep. rewrite Hstep in Hin.
      specialize (IH (gv || valid s) gn tm d t). unfold handle_samples in IH.
      destruct (TimerSimulated.handle_samples _ _ l _ _ _ _) as [[[a tm'] d'] tr'].
      simpl in *. destruct (IH Hin) as (pre & s' & post & -> & Hpre & Hv & Hd).
      exists (s :: pre), s', post. repeat split; auto.
    + exists [], s, l. repeat split; auto.
    + unfold handle_samples in Hin. simpl in Hin.
      pose proof (on_sample_stop s gv gn tm d Hv Hd Hstop) as Hstep.
      unfold on_sample in Hstep. rewrite Hstep in Hin.
      destruct (m_stop_callback tm); simpl in Hin.
      * apply list_elem_of_singleton in Hin. discriminate.
      * inversion Hin.
Qed.

(** *** The two loops of [start] *)

Lemma silent_ignored d w : silent w -> idle d w.
Proof.
  intros [Hs Hall]. split; [exact Hs|].
  eapply Forall_impl; [exact Hall|]. intros s Hv. left. exact Hv.
Qed.

Lemma existsb_valid_silent l :
  Forall (fun s => valid s = false) l -> existsb valid l = false.
Proof.
  induction 1 as [|s l Hs _ IH]; [reflexivity|]. simpl. rewrite Hs, IH. reflexivity.
Qed.

Lemma main_loop_idle wakes : forall tm d,
  active tm = true -> Forall (idle d) wakes ->
  main_loop wakes tm d
    = (Blocked tm, replicate (S (length wakes)) (WaitsetWait None)).
Proof.
  induction wakes as [|w wakes IH]; intros tm d Hact Hall;
    unfold main_loop; simpl; rewrite Hact; simpl; [reflexivity|].
  apply Forall_cons in Hall as [[Hstop Hig] Hall]. rewrite Hstop.
  pose proof (handle_samples_ignored (samples w) false false tm d Hig) as Hh.
  unfold handle_samples in Hh. unfold TimerSimulated.handle_system_trigger.
  rewrite Hh. specialize (IH tm d Hact Hall). unfold main_loop in IH.
  rewrite IH. reflexivity.
Qed.

Lemma ready_loop_silent wakes : forall tm d,
  active tm = true -> Forall silent wakes ->
  ready_loop wakes tm d
    = (Blocked tm,
       concat (replicate (S (length wakes))
                 [WriteReadyStatus (node_id tm) d; WaitsetWait (Some 2000)])).
Proof.
  induction wakes as [|w wakes IH]; intros tm d Hact Hall;
    unfold ready_loop; simpl; rewrite Hact; simpl; [reflexivity|].
  apply Forall_cons in Hall as [Hw Hall].
  pose proof (silent_ignored d w Hw) as [Hstop Hig]. destruct Hw as [_ Hinv].
  rewrite Hstop.
  pose proof (handle_samples_ignored (samples w) false false tm d Hig) as Hh.
  unfold handle_samples in Hh. unfold TimerSimulated.handle_system_trigger.
  rewrite Hh, (existsb_valid_silent _ Hinv). simpl.
  specialize (IH tm d Hact Hall). unfold ready_loop in IH.
  rewrite IH. reflexivity.
Qed.

Lemma ready_loop_leaves w wakes tm d :
  active tm = true -> idle d w -> existsb valid (samples w) = true ->
  ready_loop (w :: wakes) tm d
    = ((main_loop wakes tm d).1,
       WriteReadyStatus (node_id tm) d :: WaitsetWait (Some 2000)
         :: (main_loop wakes tm d).2).
Proof.
  intros Hact [Hstop Hig] Hv. unfold ready_loop. simpl. rewrite Hact. simpl.
  rewrite Hstop.
  pose proof (handle_samples_ignored (samples w) false false tm d Hig) as Hh.
  unfold handle_samples in Hh. unfold TimerSimulated.handle_system_trigger.
  rewrite Hh, Hv. simpl. unfold main_loop.
  destruct (TimerSimulated.main_loop _ _ wakes tm d). reflexivity.
Qed.

Lemma loops_inactive wakes tm d :
  active tm = false ->
  main_loop wakes tm d = (Returned tm, []) /\
  ready_loop wakes tm d = (Returned tm, []).
Proof.
  intros H. unfold main_loop, ready_loop.
  destruct wakes; simpl; rewrite H; simpl; split; reflexivity.
Qed.

Lemma ready_loop_stopped w wakes tm d :
  active tm = true -> stop_requested w = true ->
  Forall (fun s => valid s = false) (samples w) ->
  ready_loop (w :: wakes) tm d
    = (Returned (stop tm),
       [WriteReadyStatus (node_id tm) d; WaitsetWait (Some 2000)]).
Proof.
  intros Hact Hstop Hinv.
  assert (Hig : Forall (ignored d) (samples w))
    by (eapply Forall_impl; [exact Hinv|]; intros s Hs; left; exact Hs).
  pose proof (handle_samples_ignored (samples w) false false (stop tm) d Hig) as Hh.
  assert (Hoff : active (stop tm) = false)
    by (unfold stop; destruct tm as [? ? ? ? ? ? ? ? []]; reflexivity).
  destruct (loops_inactive wakes (stop tm) d Hoff) as [_ Hr].
  unfold handle_samples in Hh. unfold ready_loop in *.
  cbn [TimerSimulated.ready_loop]. rewrite Hact. cbn [negb].
  unfold TimerSimulated.handle_system_trigger.
  rewrite Hstop, Hh, (existsb_valid_silent _ Hinv). cbn [orb].
  rewrite Hr. reflexivity.
Qed.

End Handle.

(** C3.  While [handle_system_trigger] goes through the samples of a
    [take()] with current deadline [d]:
    - a valid sample with [next_start = d] sets the current time to [d],
      invokes the update callback with [d] (when one is registered),
      advances the deadline to [d + P] and publishes one ready status with
      that new deadline;
    - a valid sample carrying the stop symbol (and not [d]) ends the
      processing with the answer STOP, invokes the stop callback when one
      is registered and otherwise marks the timer inactive, without any
      update callback or publication;
    - any other sample changes neither the timer nor the deadline and
      causes no event;
    and, with an update callback registered, the callback is invoked
    during the processing of a batch iff the batch holds a valid sample
    with [next_start = d] that only passed-over samples precede. *)
Theorem simulated_trigger_processing
    (ucs : Z -> bool) (scs : bool) (tm : TimerSimulated.t) (d : Z) :
  (forall s gv gn,
     valid s = true -> next_start s = d ->
     is_u64 (d + period_nanoseconds tm) ->
     let '(ret, (_, gn', tm', d'), tr) := on_sample ucs scs s gv gn tm d in
     ret = false /\ gn' = true /\
     d' = d + period_nanoseconds tm /\
     callbacks tr = match m_update_callback tm with Some _ => [d] | None => [] end /\
     ready_stamps tr = [d + period_nanoseconds tm] /\
     current_time tm' = d) /\
  (forall s gv gn,
     valid s = true -> next_start s <> d -> next_start s = TRIGGER_STOP_SYMBOL ->
     let '(ret, (_, gn', tm', d'), tr) := on_sample ucs scs s gv gn tm d in
     ret = true /\ gn' = gn /\ d' = d /\
     callbacks tr = [] /\ ready_stamps tr = [] /\
     match m_stop_callback tm with
     | Some _ => tr = [StopCallback]
     | None => tr = [] /\ active tm' = false
     end) /\
  (forall s gv gn,
     ignored d s ->
     on_sample ucs scs s gv gn tm d = (false, (gv || valid s, gn, tm, d), [])) /\
  (forall l,
     Forall (ignored d) l ->
     exists a, handle_system_trigger ucs scs l tm d = (a, tm, d, [])) /\
  (forall l,
     m_update_callback tm <> None ->
     (exists t, UpdateCallback t ∈ (handle_system_trigger ucs scs l tm d).2) <->
     (exists pre s post,
        l = pre ++ s :: post /\ Forall (ignored d) pre /\
        valid s = true /\ next_start s = d)).
Proof.
  repeat apply conj.
  - intros s gv gn Hv Hd Hfit. unfold on_sample. rewrite Hv, Hd, Z.eqb_refl.
    rewrite add64_small by exact Hfit. simpl.
    destruct (m_update_callback tm); simpl; repeat split; try reflexivity.
    destruct (ucs d); [|reflexivity].
    clear. destruct tm as [? ? ? ? ? ? ? ? []]; reflexivity.
  - intros s gv gn Hv Hd Hstop.
    rewrite (on_sample_stop ucs scs s gv gn tm d Hv Hd Hstop).
    destruct (m_stop_callback tm); repeat split; reflexivity.
  - intros s gv gn Hig. apply on_sample_ignored. exact Hig.
  - intros l Hig. unfold handle_system_trigger.
    rewrite (handle_samples_ignored ucs scs l false false tm d Hig). eauto.
  - intros l Hcb. unfold handle_system_trigger. split.
    + intros [t Hin]. exact (handle_samples_callback ucs scs l false false tm d t Hin).
    + intros (pre & s & post & -> & Hpre & Hv & Hd).
      destruct (handle_samples_match ucs scs pre s post false false tm d Hpre Hv Hd)
        as [tr Htr].
      exists d. rewrite Htr. destruct (m_update_callback tm); [|congruence].
      simpl. apply elem_of_cons. left. reflexivity.
Qed.

Lemma simulated_trigger_processing_witness :
  let tm := mk 10 0 "sim" 20 true false (Some 1%nat) None false in
  (let '(ret, (_, gn', tm', d'), tr) :=
     on_sample (fun _ => false) false (mkSample true 20) false false tm 20 in
   ret = false /\ gn' = true /\ d' = 30 /\ callbacks tr = [20] /\
   ready_stamps tr = [30] /\ current_time tm' = 20) /\
  (let '(ret, (_, gn', tm', d'), tr) :=
     on_sample (fun _ => false) false (mkSample true TRIGGER_STOP_SYMBOL)
       false false tm 20 in
   ret = true /\ gn' = false /\ d' = 20 /\ callbacks tr = [] /\
   ready_stamps tr = [] /\ tr = [] /\ active tm' = false) /\
  on_sample (fun _ => false) false (mkSample true 10) false false tm 20
    = (false, (true, false, tm, 20), []) /\
  (exists t, UpdateCallback t ∈
     (handle_system_trigger (fun _ => false) false
        [mkSample true 10; mkSample false 20; mkSample true 20] tm 20).2).
Proof.
  intros tm.
  destruct (simulated_trigger_processing (fun _ => false) false tm 20)
    as (Hmatch & Hstop & Hother & _ & Hiff).
  split; [|split; [|split]].
  - apply (Hmatch (mkSample true 20) false false); [reflexivity | reflexivity |].
    unfold is_u64. simpl. lia.
  - apply (Hstop (mkSample true TRIGGER_STOP_SYMBOL) false false);
      [reflexivity | discriminate | reflexivity].
  - apply (Hother (mkSample true 10) false false).
    right. split; discriminate.
  - apply Hiff; [discriminate|].
    exists [mkSample true 10; mkSample false 20], (mkSample true 20), [].
    split; [reflexivity|]. split; [|split; reflexivity].
    constructor; [right; split; discriminate|].
    constructor; [left; reflexivity | constructor].
Defined.

(** C8 as stated fails: after the first tick the simulated timer waits
    without a timeout, so not every wait of a run is bounded by 2 s. *)
Lemma wait_between_ticks_is_untimed :
  ~ (forall ucs scs cb wakes tm w,
       WaitsetWait w ∈ (TimerSimulated.start ucs scs cb wakes tm).2 ->
       w = Some 2000).
Proof.
  intros H.
  specialize (H (fun _ => false) false (Some 1%nat)
                [mkWake [mkSample true 0] false]
                (mk 10 0 "sim" 0 false false None None false) None).
  assert (Hin : WaitsetWait None ∈
    (TimerSimulated.start (fun _ => false) false (Some 1%nat)
       [mkWake [mkSample true 0] false]
       (mk 10 0 "sim" 0 false false None None false)).2).
  { vm_compute. repeat (apply elem_of_cons; first [left; reflexivity | right]). }
  specialize (H Hin). discriminate H.
Qed.

(** C8, amended.  In the first loop of [start], as long as the wake-ups
    bring no valid sample and nobody stops the timer, the timer publishes
    its ready status with the current deadline before every wait and every
    such wait is bounded by 2000 ms; a stop request ends the loop, and so
    does the first valid sample, whatever it carries.  In the main loop the
    timer waits without timeout, and wake-ups that bring no matching
    trigger and no stop symbol cause no publication at all. *)
Theorem ready_status_keep_alive
    (ucs : Z -> bool) (scs : bool) (tm : TimerSimulated.t) (d : Z) :
  active tm = true ->
  (forall wakes,
     Forall silent wakes ->
     ready_loop ucs scs wakes tm d
       = (Blocked tm,
          concat (replicate (S (length wakes))
                    [WriteReadyStatus (node_id tm) d; WaitsetWait (Some 2000)]))) /\
  (forall w wakes,
     stop_requested w = true ->
     Forall (fun s => valid s = false) (samples w) ->
     ready_loop ucs scs (w :: wakes) tm d
       = (Returned (stop tm),
          [WriteReadyStatus (node_id tm) d; WaitsetWait (Some 2000)])) /\
  (forall w wakes,
     idle d w -> existsb valid (samples w) = true ->
     ready_loop ucs scs (w :: wakes) tm d
       = ((main_loop ucs scs wakes tm d).1,
          WriteReadyStatus (node_id tm) d :: WaitsetWait (Some 2000)
            :: (main_loop ucs scs wakes tm d).2)) /\
  (forall wakes,
     Forall (idle d) wakes ->
     main_loop ucs scs wakes tm d
       = (Blocked tm, replicate (S (length wakes)) (WaitsetWait None))).
Proof.
  intros Hact. repeat apply conj.
  - intros wakes H. apply ready_loop_silent; assumption.
  - intros w wakes Hs Hinv. apply ready_loop_stopped; assumption.
  - intros w wakes Hidle Hv. apply ready_loop_leaves; assumption.
  - intros wakes H. apply main_loop_idle; assumption.
Qed.

Lemma ready_status_keep_alive_witness :
  let tm := mk 10 0 "sim" 0 true false (Some 1%nat) None false in
  ready_loop (fun _ => false) false
    [mkWake [] false; mkWake [mkSample false 0] false] tm 0
    = (Blocked tm,
       [WriteReadyStatus "sim" 0; WaitsetWait (Some 2000);
        WriteReadyStatus "sim" 0; WaitsetWait (Some 2000);
        WriteReadyStatus "sim" 0; WaitsetWait (Some 2000)]) /\
  main_loop (fun _ => false) false
    [mkWake [] false; mkWake [mkSample true 7] false] tm 0
    = (Blocked tm, [WaitsetWait None; WaitsetWait None; WaitsetWait None]).
Proof.
  intros tm.
  destruct (ready_status_keep_alive (fun _ => false) false tm 0 eq_refl)
    as (Hready & _ & _ & Hmain).
  split.
  - apply (Hready [mkWake [] false; mkWake [mkSample false 0] false]).
    repeat constructor.
  - apply (Hmain [mkWake [] false; mkWake [mkSample true 7] false]).
    constructor; [split; [reflexivity | constructor]|].
    constructor; [|constructor].
    split; [reflexivity|]. constructor; [|constructor].
    right. split; discriminate.
Defined.

End TimerSimulatedFacts.

(** ** The round-trip-time aggregator *)

Section RTTFacts.
Import RTTAggregator.

Lemma touched_lookup (m : gmap string Z) k id :
  touched m k !! id = if decide (k = id) then Some (default 0 (m !! k)) else m !! id.
Proof.
  unfold touched. destruct (m !! k) eqn:E; destruct (decide (k = id)); subst; simpl.
  - exact E.
  - reflexivity.
  - apply lookup_insert_eq.
  - apply lookup_insert_ne. assumption.
Qed.

Lemma view_store_entry r a k e id :
  view (store_entry r a (k, e)) id
    = if decide (k = id) then entry_step r id e (view a id) else view a id.
Proof.
  unfold store_entry, entry_step, view, subscript. simpl.
  destruct (decide (k = id)) as [Hk|Hk].
  - subst k. destruct (measure_count a !! id); simpl;
      rewrite ?lookup_insert_eq; f_equal;
      apply bool_decide_eq_true, elem_of_union; left;
      apply elem_of_singleton; reflexivity.
  - destruct (measure_count a !! k); simpl;
      rewrite ?lookup_insert_ne by assumption; f_equal;
      apply bool_decide_ext; rewrite elem_of_union, elem_of_singleton;
      intuition congruence.
Qed.

Lemma view_store_missing r a k id :
  view (store_missing r a k) id
    = if decide (k = id) then missing_step r id (view a id) else view a id.
Proof.
  unfold store_missing, missing_step, delete_entry, no_entry, view, subscript.
  destruct (decide (k = id)) as [Hk|Hk].
  - subst k. simpl.
    destruct (sub64 _ _ >? _); simpl.
    + rewrite !lookup_delete_eq. f_equal. apply bool_decide_eq_false.
      rewrite elem_of_difference, elem_of_singleton. intuition congruence.
    + destruct (measure_count a !! id); simpl;
        rewrite ?lookup_insert_eq, touched_lookup;
        (destruct (decide (id = id)); [|congruence]); reflexivity.
  - destruct (sub64 _ _ >? _); simpl.
    + rewrite !lookup_delete_ne by assumption. f_equal.
      apply bool_decide_ext. rewrite elem_of_difference, elem_of_singleton.
      intuition congruence.
    + destruct (measure_count a !! k); simpl;
        rewrite ?lookup_insert_ne by assumption; rewrite touched_lookup;
        (destruct (decide (k = id)); [congruence|]); reflexivity.
Qed.

Section Fold.

Context {X : Type} (f : t -> X -> t) (key : X -> string)
        (g : X -> View -> View) (id : string).

Hypothesis f_view : forall a x,
  view (f a x) id = if decide (key x = id) then g x (view a id) else view a id.

Lemma foldl_view_other l : forall a,
  id ∉ key <$> l -> view (foldl f a l) id = view a id.
Proof.
  induction l as [|y l IH]; intros a Hid; [reflexivity|]. simpl.
  rewrite fmap_cons in Hid. apply not_elem_of_cons in Hid as [Hy Hl].
  rewrite (IH _ Hl), f_view. destruct (decide (key y = id)); [congruence | reflexivity].
Qed.

Lemma foldl_view_at l : forall a x,
  NoDup (key <$> l) -> x ∈ l -> key x = id ->
  view (foldl f a l) id = g x (view a id).
Proof.
  induction l as [|y l IH]; intros a x Hnd Hx Hk; [inversion Hx|]. simpl.
  rewrite fmap_cons in Hnd. apply NoDup_cons in Hnd as [Hy Hnd].
  apply elem_of_cons in Hx as [->|Hx].
  - rewrite foldl_view_other by (rewrite <- Hk; exact Hy).
    rewrite f_view. destruct (decide (key y = id)); [reflexivity | congruence].
  - assert (key y <> id).
    { intros Heq. apply Hy. rewrite Heq, <- Hk.
      apply list_elem_of_fmap. exists x. auto. }
    rewrite (IH _ x Hnd Hx Hk), f_view.
    destruct (decide (key y = id)); [congruence | reflexivity].
Qed.

End Fold.

(** What one measurement round does to one id. *)
Lemma view_measurement_round r a id :
  view (measurement_round r a) id =
    match rtt r !! id with
    | Some e => entry_step r id e (view a id)
    | None =>
        if v_known (view a id) then missing_step r id (view a id)
        else view a id
    end.
Proof.
  unfold measurement_round.
  set (a1 := if (0 <? size (rtt r))%nat then _ else a).
  assert (Ha1 : a1 = foldl (store_entry r) a (map_to_list (rtt r))).
  { subst a1. destruct (0 <? size (rtt r))%nat eqn:E; [reflexivity|].
    apply Nat.ltb_ge in E. assert (size (rtt r) = 0%nat) as Hz by lia.
    apply map_size_empty_inv in Hz. rewrite Hz, map_to_list_empty. reflexivity. }
  rewrite Ha1. clear a1 Ha1.
  assert (Hentry : forall a0 x,
    view (store_entry r a0 x) id
      = if decide (x.1 = id) then entry_step r id x.2 (view a0 id) else view a0 id).
  { intros a0 [k e]. apply view_store_entry. }
  assert (Hmissing : forall a0 k,
    view (store_missing r a0 k) id
      = if decide (k = id) then missing_step r id (view a0 id) else view a0 id).
  { intros a0 k. apply view_store_missing. }
  destruct (rtt r !! id) as [e|] eqn:Hrtt.
  - rewrite (foldl_view_other _ (fun k => k) (fun _ => missing_step r id) id Hmissing).
    + apply (foldl_view_at _ fst (fun x => entry_step r id x.2) id Hentry
               _ a (id, e)).
      * apply NoDup_fst_map_to_list.
      * apply elem_of_map_to_list. exact Hrtt.
      * reflexivity.
    + rewrite list_fmap_id. rewrite elem_of_elements.
      apply not_elem_of_difference. right. apply elem_of_dom. eauto.
  - assert (Hsame : view (foldl (store_entry r) a (map_to_list (rtt r))) id
                    = view a id).
    { apply (foldl_view_other _ fst (fun x => entry_step r id x.2) id Hentry).
      intros Hin. apply list_elem_of_fmap in Hin as [[k e] [Hk Hin]].
      simpl in Hk. subst k. apply elem_of_map_to_list in Hin. congruence. }
    destruct (v_known (view a id)) eqn:Hknown.
    + rewrite (foldl_view_at _ (fun k => k) (fun _ => missing_step r id) id Hmissing
                 _ _ id).
      * rewrite Hsame. reflexivity.
      * rewrite list_fmap_id. apply NoDup_elements.
      * apply elem_of_elements. apply elem_of_difference. split.
        -- simpl in Hknown. apply bool_decide_eq_true in Hknown. exact Hknown.
        -- apply not_elem_of_dom. exact Hrtt.
      * reflexivity.
    + rewrite (foldl_view_other _ (fun k => k) (fun _ => missing_step r id) id Hmissing).
      * exact Hsame.
      * rewrite list_fmap_id. rewrite elem_of_elements.
        intros Hin. apply elem_of_difference in Hin as [Hin _].
        simpl in Hknown. apply bool_decide_eq_false in Hknown. contradiction.
Qed.

(** *** The invariant *)

Lemma measure_rtt_bounds responses id b w :
  Forall (fun p => is_u64 p.2) responses ->
  measure_rtt responses !! id = Some (b, w) -> 0 <= b <= w.
Proof.
  intros Hall. revert id b w.
  induction Hall as [|[k x] rest Hx _ IH]; intros id b w Hl; simpl in Hl.
  - rewrite lookup_empty in Hl. discriminate.
  - unfold is_u64 in Hx. simpl in Hx.
    destruct (measure_rtt rest !! k) as [[b0 w0]|] eqn:Hk.
    + destruct (decide (k = id)) as [->|Hne].
      * rewrite lookup_insert_eq in Hl. injection Hl as <- <-.
        specialize (IH id b0 w0 Hk). lia.
      * rewrite lookup_insert_ne in Hl by assumption. eauto.
    + destruct (decide (k = id)) as [->|Hne].
      * rewrite lookup_insert_eq in Hl. injection Hl as <- <-. lia.
      * rewrite lookup_insert_ne in Hl by assumption. eauto.
Qed.

Lemma entry_step_ok r id e v :
  0 <= e.1 <= e.2 -> ok_view v -> ok_view (entry_step r id e v).
Proof.
  intros He Hv. unfold entry_step.
  destruct v as [[b|] [w|] [x|] [c|] [m|] [l|] []]; simpl in *; try contradiction; lia.
Qed.

Lemma missing_step_ok r id v :
  ok_view v -> v_known v = true -> ok_view (missing_step r id v).
Proof.
  intros Hv Hk. unfold missing_step.
  destruct (sub64 _ _ >? _); [exact I|].
  destruct v as [[b|] [w|] [x|] [c|] [m|] [l|] []]; simpl in *;
    try contradiction; try discriminate; lia.
Qed.

Lemma wf_empty : wf empty.
Proof.
  intros id. unfold view, empty. simpl. rewrite !lookup_empty.
  rewrite bool_decide_eq_false_2 by apply not_elem_of_empty. exact I.
Qed.

Lemma wf_measurement_round r a :
  (forall id e, rtt r !! id = Some e -> 0 <= e.1 <= e.2) ->
  wf a -> wf (measurement_round r a).
Proof.
  intros Hrtt Hwf id. rewrite view_measurement_round.
  destruct (rtt r !! id) as [e|] eqn:He.
  - apply entry_step_ok; [eauto | apply Hwf].
  - destruct (v_known (view a id)) eqn:Hk; [|apply Hwf].
    apply missing_step_ok; [apply Hwf | exact Hk].
Qed.

Lemma touched_present (m : gmap string Z) k x : m !! k = Some x -> touched m k = m.
Proof. intros H. unfold touched. rewrite H. reflexivity. Qed.

(** On a consistent state the subscripts of [get_rtt] insert nothing. *)
Lemma get_rtt_state id out a : wf a -> (get_rtt id out a).2 = a.
Proof.
  intros Hwf. specialize (Hwf id). unfold view in Hwf. unfold get_rtt, subscript.
  destruct (current_best_rtt a !! id) as [b|] eqn:Hb; [|reflexivity].
  destruct (current_worst_rtt a !! id) as [w|] eqn:Hw; [|contradiction].
  destruct (all_time_worst_rtt a !! id) as [x|] eqn:Hx; [|contradiction].
  destruct (measure_count a !! id) as [c|] eqn:Hc; [|contradiction].
  destruct (missed_answers a !! id) as [m|] eqn:Hm; [|contradiction].
  simpl.
  rewrite (touched_present _ _ _ Hw), (touched_present _ _ _ Hx),
    (touched_present _ _ _ Hc), (touched_present _ _ _ Hm).
  destruct (c <=? 0); simpl; destruct a; reflexivity.
Qed.

Lemma reachable_wf a : reachable a -> wf a.
Proof.
  induction 1 as [|a responses clock _ IH Hresp|a _ _|a id out _ IH].
  - apply wf_empty.
  - apply wf_measurement_round; [|exact IH]. simpl.
    intros id [b w] He. simpl. eapply measure_rtt_bounds; eauto.
  - apply wf_empty.
  - rewrite get_rtt_state; assumption.
Qed.

Lemma view_fields a id b w x c m l k :
  view a id = mkView b w x c m l k ->
  current_best_rtt a !! id = b /\ current_worst_rtt a !! id = w /\
  all_time_worst_rtt a !! id = x /\ measure_count a !! id = c /\
  missed_answers a !! id = m /\ last_msg_timestamp a !! id = l /\
  bool_decide (id ∈ received_ids a) = k.
Proof. unfold view. intros H. injection H as <- <- <- <- <- <- <-. repeat split. Qed.

Lemma view_quiet_rounds id quiet : forall a,
  Forall (fun r => rtt r !! id = None) quiet ->
  view a id = no_entry ->
  view (foldl (fun a r => measurement_round r a) a quiet) id = no_entry.
Proof.
  induction quiet as [|r quiet IH]; intros a Hall Hv; [exact Hv|]. simpl.
  apply Forall_cons in Hall as [Hr Hall]. apply IH; [exact Hall|].
  rewrite view_measurement_round, Hr, Hv. reflexivity.
Qed.

(** C5.  In every reachable state and for every id with an entry, the
    query returns true, the stored best, worst and all-time worst values
    with [best <= worst <= all-time worst], and the missed fraction
    [missed / measured], which lies between 0 and 1; nothing is logged and
    the state is unchanged.  In any state, if the measurement count of an
    id with an entry is not positive, the query returns the fraction 0 and
    logs the overflow warning.  For an id without entry the query returns
    false and leaves the output parameters as they were. *)
Theorem rtt_query_bounds :
  (forall a id out,
     reachable a -> is_Some (current_best_rtt a !! id) ->
     exists b w x m c,
       current_best_rtt a !! id = Some b /\
       current_worst_rtt a !! id = Some w /\
       all_time_worst_rtt a !! id = Some x /\
       missed_answers a !! id = Some m /\
       measure_count a !! id = Some c /\
       get_rtt id out a = (true, mkOutputs b w x (m # Z.to_pos c), [], a) /\
       (m # Z.to_pos c == inject_Z m / inject_Z c)%Q /\
       (0 <= m # Z.to_pos c)%Q /\ (m # Z.to_pos c <= 1)%Q /\
       b <= w /\ w <= x) /\
  (forall a id out,
     is_Some (current_best_rtt a !! id) ->
     subscript (measure_count a) id <= 0 ->
     (get_rtt id out a).1.1.1 = true /\
     _missed_answers (get_rtt id out a).1.1.2 = 0%Q /\
     (get_rtt id out a).1.2 = [LogWrite 1 MsgRttOverflow]) /\
  (forall a id out,
     current_best_rtt a !! id = None ->
     get_rtt id out a = (false, out, [], a)).
Proof.
  repeat apply conj.
  - intros a id out Hreach [b Hb].
    pose proof (reachable_wf a Hreach) as Hwf.
    pose proof (get_rtt_state id out a Hwf) as Hstate.
    specialize (Hwf id). unfold view in Hwf. rewrite Hb in Hwf.
    destruct (current_worst_rtt a !! id) as [w|] eqn:Hw; [|contradiction].
    destruct (all_time_worst_rtt a !! id) as [x|] eqn:Hx; [|contradiction].
    destruct (measure_count a !! id) as [c|] eqn:Hc; [|contradiction].
    destruct (missed_answers a !! id) as [m|] eqn:Hm; [|contradiction].
    destruct (last_msg_timestamp a !! id) as [l|]; [|contradiction].
    destruct (bool_decide (id ∈ received_ids a)); [|contradiction].
    destruct Hwf as (Hbw & Hwx & Hc1 & Hmc).
    exists b, w, x, m, c. repeat split; try assumption; try lia.
    + revert Hstate. unfold get_rtt, subscript. rewrite Hb, Hw, Hx, Hc, Hm. simpl.
      destruct (c <=? 0) eqn:E; [apply Z.leb_le in E; lia|].
      simpl. intros ->. reflexivity.
    + rewrite (Qmake_Qdiv m (Z.to_pos c)). rewrite Z2Pos.id by lia. reflexivity.
    + unfold Qle. simpl. lia.
    + unfold Qle. simpl. rewrite Z2Pos.id by lia. lia.
  - intros a id out [b Hb] Hc. unfold get_rtt. rewrite Hb.
    destruct (subscript (measure_count a) id <=? 0) eqn:E;
      [repeat split | apply Z.leb_gt in E; lia].
  - intros a id out Hb. unfold get_rtt. rewrite Hb. reflexivity.
Qed.

Lemma vehicle_rounds_reachable : reachable vehicle_rounds.
Proof.
  unfold vehicle_rounds.
  repeat (apply reach_round; [|repeat constructor; unfold is_u64; simpl; lia]).
  apply reach_empty.
Qed.

Lemma rtt_query_bounds_witness :
  exists b w x m c,
    get_rtt "vehicle" (mkOutputs 7 7 7 7%Q) vehicle_rounds
      = (true, mkOutputs b w x (m # Z.to_pos c), [], vehicle_rounds) /\
    (0 <= m # Z.to_pos c)%Q /\ (m # Z.to_pos c <= 1)%Q /\ b <= w /\ w <= x.
Proof.
  destruct rtt_query_bounds as (H & _ & _).
  destruct (H vehicle_rounds "vehicle"%string (mkOutputs 7 7 7 7%Q)
              vehicle_rounds_reachable)
    as (b & w & x & m & c & _ & _ & _ & _ & _ & Hget & _ & H0 & H1 & Hbw & Hwx).
  - vm_compute. eauto.
  - exists b, w, x, m, c. auto.
Defined.

(** C7.  If a round brings no response for an id the aggregator knows and
    the clock read for it is more than [delete_entry_timeout_ns] (10 s)
    past the id's last message, then after the round none of the six maps
    holds the id, the set of known ids does not either, and the query
    reports no entry.  The id stays without entry through further rounds
    without response for it, and the next round with a response re-creates
    the entry with measurement count 1 and no missed answer. *)
Theorem rtt_eviction (a : RTTAggregator.t) (id : string)
    (responses : list (string * Z)) (clock : string -> Z) (last : Z) :
  id ∈ received_ids a ->
  measure_rtt responses !! id = None ->
  last_msg_timestamp a !! id = Some last ->
  0 <= clock id - last < 2 ^ 64 ->
  delete_entry_timeout_ns < clock id - last ->
  let a1 := measurement_round (mkRound (measure_rtt responses) clock) a in
  (current_best_rtt a1 !! id = None /\
   current_worst_rtt a1 !! id = None /\
   all_time_worst_rtt a1 !! id = None /\
   measure_count a1 !! id = None /\
   missed_answers a1 !! id = None /\
   last_msg_timestamp a1 !! id = None /\
   (id ∉ received_ids a1) /\
   forall out, get_rtt id out a1 = (false, out, [], a1)) /\
  (forall quiet responses' clock' b w,
     Forall (fun r => rtt r !! id = None) quiet ->
     measure_rtt responses' !! id = Some (b, w) ->
     let a2 := foldl (fun a r => measurement_round r a) a1 quiet in
     let a3 := measurement_round (mkRound (measure_rtt responses') clock') a2 in
     (forall out, get_rtt id out a2 = (false, out, [], a2)) /\
     measure_count a3 !! id = Some 1 /\
     missed_answers a3 !! id = Some 0 /\
     current_best_rtt a3 !! id = Some b /\
     current_worst_rtt a3 !! id = Some w /\
     all_time_worst_rtt a3 !! id = Some w /\
     last_msg_timestamp a3 !! id = Some (clock' id) /\
     id ∈ received_ids a3).
Proof.
  intros Hknown Hsilent Hlast Hrange Hlate a1.
  assert (Hv1 : view a1 id = no_entry).
  { subst a1. rewrite view_measurement_round. simpl. rewrite Hsilent.
    unfold view at 1. simpl. rewrite bool_decide_eq_true_2 by exact Hknown.
    unfold missing_step, view. simpl. rewrite Hlast. simpl.
    rewrite sub64_small by exact Hrange.
    destruct (clock id - last >? delete_entry_timeout_ns) eqn:E; [reflexivity|].
    rewrite Z.gtb_ltb in E. apply Z.ltb_ge in E. lia. }
  split.
  - destruct (view_fields _ _ _ _ _ _ _ _ _ Hv1) as (H1 & H2 & H3 & H4 & H5 & H6 & H7).
    repeat split; try assumption.
    + apply bool_decide_eq_false in H7. exact H7.
    + intros out. unfold get_rtt. rewrite H1. reflexivity.
  - intros quiet responses' clock' b w Hquiet Hresp a2 a3.
    pose proof (view_quiet_rounds id quiet a1 Hquiet Hv1) as Hv2. fold a2 in Hv2.
    assert (Hv3 : view a3 id
                  = mkView (Some b) (Some w) (Some w) (Some 1) (Some 0)
                           (Some (clock' id)) true).
    { subst a3. rewrite view_measurement_round. simpl. rewrite Hresp, Hv2. reflexivity. }
    destruct (view_fields _ _ _ _ _ _ _ _ _ Hv2) as (G1 & _).
    destruct (view_fields _ _ _ _ _ _ _ _ _ Hv3) as (H1 & H2 & H3 & H4 & H5 & H6 & H7).
    repeat split; try assumption.
    + intros out. unfold get_rtt. rewrite G1. reflexivity.
    + apply bool_decide_eq_true in H7. exact H7.
Qed.

Lemma rtt_eviction_witness :
  let a1 :=
    measurement_round (mkRound (measure_rtt []) (fun _ => 20000000000))
                      vehicle_rounds in
  let a3 :=
    measurement_round
      (mkRound (measure_rtt [("vehicle"%string, 4)]) (fun _ => 30000000000)) a1 in
  (forall out, get_rtt "vehicle" out a1 = (false, out, [], a1)) /\
  measure_count a3 !! "vehicle"%string = Some 1 /\
  missed_answers a3 !! "vehicle"%string = Some 0.
Proof.
  intros a1 a3.
  destruct (rtt_eviction vehicle_rounds "vehicle"%string [] (fun _ => 20000000000) 200)
    as [(_ & _ & _ & _ & _ & _ & _ & Hget) Hnext].
  - vm_compute. reflexivity.
  - reflexivity.
  - reflexivity.
  - simpl. lia.
  - unfold delete_entry_timeout_ns. lia.
  - split; [exact Hget|].
    destruct (Hnext [] [("vehicle"%string, 4)] (fun _ => 30000000000) 4 4)
      as (_ & Hc & Hm & _); [constructor | reflexivity |].
    split; [exact Hc | exact Hm].
Defined.

(** C10.  If a round brings no response for an id the aggregator knows
    and the id is not yet due for deletion, the round sets the id's
    current best and worst round-trip time to 0 and leaves its all-time
    worst value as it was; a query after such a round can therefore return
    best = worst = 0 next to a positive all-time worst value. *)
Theorem missing_round_zeroes_current (a : RTTAggregator.t) (id : string)
    (responses : list (string * Z)) (clock : string -> Z) (last : Z) :
  id ∈ received_ids a ->
  measure_rtt responses !! id = None ->
  last_msg_timestamp a !! id = Some last ->
  0 <= clock id - last <= delete_entry_timeout_ns ->
  let a1 := measurement_round (mkRound (measure_rtt responses) clock) a in
  (current_best_rtt a1 !! id = Some 0 /\
   current_worst_rtt a1 !! id = Some 0 /\
   all_time_worst_rtt a1 !! id = all_time_worst_rtt a !! id) /\
  (exists a' id' out',
     reachable a' /\
     (forall out, (get_rtt id' out a').1 = (true, out', [])) /\
     _current_best_rtt out' = 0 /\ _current_worst_rtt out' = 0 /\
     0 < _all_time_worst_rtt out').
Proof.
  intros Hknown Hsilent Hlast Hrange a1. split.
  - assert (Hv1 : exists c m,
      view a1 id = mkView (Some 0) (Some 0) (all_time_worst_rtt a !! id) c m
                          (Some last) true).
    { subst a1. rewrite view_measurement_round. simpl. rewrite Hsilent.
      unfold view at 1. simpl. rewrite bool_decide_eq_true_2 by exact Hknown.
      unfold missing_step, view. simpl. rewrite Hlast. simpl.
      rewrite sub64_small by (unfold delete_entry_timeout_ns in Hrange; unfold is_u64; lia).
      destruct (clock id - last >? delete_entry_timeout_ns) eqn:E;
        [rewrite Z.gtb_ltb in E; apply Z.ltb_lt in E; lia|].
      destruct (measure_count a !! id); eauto. }
    destruct Hv1 as (c & m & Hv1).
    destruct (view_fields _ _ _ _ _ _ _ _ _ Hv1) as (H1 & H2 & H3 & _).
    auto.
  - exists vehicle_rounds, "vehicle"%string, (mkOutputs 0 0 9 (1 # 3)).
    split; [apply vehicle_rounds_reachable|].
    split; [intros out; vm_compute; reflexivity|].
    simpl. repeat split; lia.
Qed.

Lemma missing_round_zeroes_current_witness :
  let a :=
    measurement_round
      (mkRound (measure_rtt [("vehicle"%string, 9)]) (fun _ => 100)) empty in
  let a1 := measurement_round (mkRound (measure_rtt []) (fun _ => 200)) a in
  current_best_rtt a1 !! "vehicle"%string = Some 0 /\
  current_worst_rtt a1 !! "vehicle"%string = Some 0 /\
  all_time_worst_rtt a1 !! "vehicle"%string = Some 9.
Proof.
  intros a a1.
  destruct (missing_round_zeroes_current a "vehicle"%string [] (fun _ => 200) 100)
    as [(H1 & H2 & H3) _].
  - vm_compute. reflexivity.
  - reflexivity.
  - reflexivity.
  - unfold delete_entry_timeout_ns. simpl. lia.
  - split; [exact H1|]. split; [exact H2|].
    etransitivity; [exact H3 | vm_compute; reflexivity].
Defined.

End RTTFacts.

(** * Further properties of the real-time timer *)

Section TimerFDMore.
Import TimerFD.

(** X1.  When both system calls succeed, [createTimer] arms the descriptor
    with a specification that encodes the offset (or 1 ns for a zero
    offset) and the period exactly, with both nanosecond fields below one
    second and non-negative seconds; the first expiration is never the zero
    value that would disarm the timer, and a timer whose offset is below
    its period has a non-zero interval. *)
Theorem createTimer_arms_offset_and_period (timer_fd : Z) (tm : TimerFD.t) :
  timer_fd <> -1 ->
  0 <= offset_nanoseconds tm -> 0 <= period_nanoseconds tm ->
  exists its,
    createTimer timer_fd 0 tm = inl its /\
    it_value_tv_sec its * 1000000000 + it_value_tv_nsec its
      = (if offset_nanoseconds tm =? 0 then 1 else offset_nanoseconds tm) /\
    it_interval_tv_sec its * 1000000000 + it_interval_tv_nsec its
      = period_nanoseconds tm /\
    0 <= it_value_tv_sec its /\ 0 <= it_value_tv_nsec its < 1000000000 /\
    0 <= it_interval_tv_sec its /\ 0 <= it_interval_tv_nsec its < 1000000000 /\
    (it_value_tv_sec its <> 0 \/ it_value_tv_nsec its <> 0) /\
    (offset_nanoseconds tm < period_nanoseconds tm ->
     it_interval_tv_sec its <> 0 \/ it_interval_tv_nsec its <> 0).
Proof.
  intros Hfd HO HP. unfold createTimer.
  destruct (timer_fd =? -1) eqn:E; [apply Z.eqb_eq in E; contradiction|].
  simpl. eexists. split; [reflexivity|]. simpl.
  set (o := if offset_nanoseconds tm =? 0 then 1 else offset_nanoseconds tm).
  assert (Ho : 1 <= o).
  { subst o. destruct (offset_nanoseconds tm =? 0) eqn:E0; [lia|].
    apply Z.eqb_neq in E0. lia. }
  pose proof (Z.div_mod o 1000000000 ltac:(lia)) as Hdo.
  pose proof (Z.mod_pos_bound o 1000000000 ltac:(lia)) as Hro.
  pose proof (Z.div_mod (period_nanoseconds tm) 1000000000 ltac:(lia)) as Hdp.
  pose proof (Z.mod_pos_bound (period_nanoseconds tm) 1000000000 ltac:(lia)) as Hrp.
  assert (0 <= o / 1000000000) by (apply Z.div_pos; lia).
  assert (0 <= period_nanoseconds tm / 1000000000) by (apply Z.div_pos; lia).
  repeat split; try lia.
Qed.

Lemma createTimer_arms_offset_and_period_witness :
  exists its,
    createTimer 3 0 (mk 200000000 0 "timer" true TRIGGER_STOP_SYMBOL
                        false false 0 false None None false) = inl its /\
    it_value_tv_sec its = 0 /\ it_value_tv_nsec its = 1 /\
    it_interval_tv_sec its = 0 /\ it_interval_tv_nsec its = 200000000.
Proof.
  destruct (createTimer_arms_offset_and_period 3
              (mk 200000000 0 "timer" true TRIGGER_STOP_SYMBOL
                  false false 0 false None None false))
    as (its & Hc & _); [discriminate | simpl; lia | simpl; lia |].
  exists its. split; [exact Hc|].
  vm_compute in Hc. injection Hc as <-. repeat split.
Defined.

End TimerFDMore.

Section TimerFDNegotiationMore.
Import TimerFD.

Lemma receiveStartTime_inactive wakes tm :
  active tm = false ->
  receiveStartTime wakes tm = (Some (stop_signal tm), tm, []).
Proof. intros H. destruct wakes; simpl; rewrite H; reflexivity. Qed.

(** X2.  While the start instant is negotiated, the timer publishes a
    ready status with stamp 0 before every wait of at most 2000 ms.
    Wake-ups without a valid sample go by; the first valid sample decides:
    the negotiation returns its [next_start], and neither the samples
    behind it in the same [take()] nor any later wake-up is looked at.  A
    [stop] from another thread before any valid sample makes it return the
    stop signal instead. *)
Theorem start_negotiation (pre : list Wake) (w : Wake) (post : list Wake)
    (tm : TimerFD.t) :
  active tm = true ->
  Forall (fun w => stop_requested w = false /\ first_valid (samples w) = None) pre ->
  let keep_alive :=
    concat (replicate (S (length pre))
              [WriteReadyStatus (node_id tm) 0; WaitsetWait (Some 2000)]) in
  (forall s,
     first_valid (samples w) = Some s ->
     receiveStartTime (pre ++ w :: post) tm
       = (Some (next_start s), (if stop_requested w then stop tm else tm),
          keep_alive)) /\
  (first_valid (samples w) = None -> stop_requested w = true ->
   receiveStartTime (pre ++ w :: post) tm
     = (Some (stop_signal tm), stop tm, keep_alive)).
Proof.
  intros Hact Hpre keep_alive. subst keep_alive.
  induction Hpre as [|w0 pre [Hs0 Hv0] _ IH].
  - change ([] ++ w :: post) with (w :: post).
    cbn [receiveStartTime]. rewrite Hact. cbn [negb]. split.
    + intros s Hs. rewrite Hs. reflexivity.
    + intros Hnone Hstop. rewrite Hnone, Hstop.
      assert (Hoff : active (stop tm) = false) by apply stop_flags.
      assert (Hsig : stop_signal (stop tm) = stop_signal tm)
        by apply same_config_stop.
      rewrite (receiveStartTime_inactive post (stop tm) Hoff), Hsig.
      reflexivity.
  - destruct IH as [IH1 IH2]. split.
    + intros s Hs. specialize (IH1 s Hs).
      change ((w0 :: pre) ++ w :: post) with (w0 :: (pre ++ w :: post)).
      cbn [receiveStartTime]. rewrite Hact, Hs0, Hv0. cbn [negb].
      rewrite IH1. reflexivity.
    + intros Hnone Hstop. specialize (IH2 Hnone Hstop).
      change ((w0 :: pre) ++ w :: post) with (w0 :: (pre ++ w :: post)).
      cbn [receiveStartTime]. rewrite Hact, Hs0, Hv0. cbn [negb].
      rewrite IH2. reflexivity.
Qed.

Lemma start_negotiation_witness :
  let tm := mk 200 5 "timer" true TRIGGER_STOP_SYMBOL
               true false 0 false None None false in
  receiveStartTime
    ([mkWake [] false; mkWake [mkSample false 9] false]
       ++ mkWake [mkSample false 1; mkSample true 1000; mkSample true 2000] false
       :: [mkWake [mkSample true 3000] false]) tm
    = (Some 1000, tm,
       [WriteReadyStatus "timer" 0; WaitsetWait (Some 2000);
        WriteReadyStatus "timer" 0; WaitsetWait (Some 2000);
        WriteReadyStatus "timer" 0; WaitsetWait (Some 2000)]).
Proof.
  intros tm.
  destruct (start_negotiation
              [mkWake [] false; mkWake [mkSample false 9] false]
              (mkWake [mkSample false 1; mkSample true 1000; mkSample true 2000] false)
              [mkWake [mkSample true 3000] false] tm eq_refl)
    as [H _].
  - repeat constructor.
  - exact (H (mkSample true 1000) eq_refl).
Defined.

(** X3.  For a start instant [s] at or above the offset, with [s + P]
    within 64 bits, the initial deadline is the first instant at or after
    [s] that is congruent to the offset modulo the period: it is below
    [s + P], and every deadline a run of [start] hands to the callback is
    at or after [s] and congruent to the offset. *)
Theorem ticks_on_boundaries_above_offset (ucs : Z -> bool) (scs : bool)
    (cb : option nat) (wakes : list Wake) (now : Z) (ticks : list Tick)
    (tm : TimerFD.t) (s : Z) :
  active tm = false -> cancelled tm = false ->
  0 <= offset_nanoseconds tm < period_nanoseconds tm ->
  (if wait_for_start tm
   then (receiveStartTime wakes (set_update_callback cb (set_active true tm))).1.1
   else Some now) = Some s ->
  offset_nanoseconds tm <= s -> s + period_nanoseconds tm <= 2 ^ 64 ->
  Forall (tick_in_range (period_nanoseconds tm)) ticks ->
  let P := period_nanoseconds tm in
  let O := offset_nanoseconds tm in
  let d0 := initial_deadline P O s in
  (s <= d0 < s + P /\ (d0 - O) mod P = 0 /\
   forall d, s <= d -> (d - O) mod P = 0 -> d0 <= d) /\
  (forall d, d ∈ callbacks (start ucs scs cb wakes now ticks tm).2 ->
             s <= d /\ d mod P = O).
Proof.
  intros Hact Hcan HO Hneg HS Hfit Hticks P O d0. subst P O d0.
  assert (HP : 0 < period_nanoseconds tm) by lia.
  destruct (initial_deadline_aligned _ _ s HP HO HS Hfit) as [Hrange Hal].
  split.
  - split; [exact Hrange|]. split; [exact Hal|].
    intros d Hd Hmod. apply initial_deadline_least; assumption.
  - intros d Hin.
    destruct (start_ticks_on_boundaries ucs scs cb wakes now ticks tm s d
                Hact Hcan HP HO Hneg HS Hfit Hticks Hin) as [Hge Hmod].
    split; [exact Hge|].
    apply Z.mod_divide in Hmod; [|lia]. destruct Hmod as [k Hk].
    replace d with (offset_nanoseconds tm + k * period_nanoseconds tm) by lia.
    rewrite Z.mod_add by lia. apply Z.mod_small. lia.
Qed.

(** The alignment scenario: period 200 ms, offset 5 ms, start at 1000 s. *)
Lemma ticks_on_boundaries_above_offset_witness :
  let tm := mk 200000000 5000000 "timer" true TRIGGER_STOP_SYMBOL
               false false 0 false None None false in
  initial_deadline 200000000 5000000 1000000000000 = 1000005000000 /\
  forall d,
    d ∈ callbacks
          (start (fun _ => false) false (Some 1%nat)
             [mkWake [mkSample true 1000000000000] false] 0
             [mkTick 1000005000100 1000005000200 [] false;
              mkTick 1000205000100 1000205000200 [] false] tm).2 ->
    1000000000000 <= d /\ d mod 200000000 = 5000000.
Proof.
  intros tm.
  destruct (ticks_on_boundaries_above_offset (fun _ => false) false (Some 1%nat)
              [mkWake [mkSample true 1000000000000] false] 0
              [mkTick 1000005000100 1000005000200 [] false;
               mkTick 1000205000100 1000205000200 [] false] tm 1000000000000)
    as [_ Hrun]; try reflexivity.
  - simpl. lia.
  - simpl. lia.
  - simpl. lia.
  - repeat constructor; simpl; lia.
  - split; [vm_compute; reflexivity | exact Hrun].
Defined.

End TimerFDNegotiationMore.

Section TimerFDLoopMore.
Import TimerFD.

Lemma received_stop_signal_iff tm l :
  received_stop_signal tm l = true <->
  exists s, s ∈ l /\ valid s = true /\ next_start s = stop_signal tm.
Proof.
  induction l as [|s l IH]; simpl.
  - split; [discriminate | intros (s & Hin & _); inversion Hin].
  - destruct (valid s && (next_start s =? stop_signal tm)) eqn:E.
    + split; [|reflexivity]. intros _.
      apply andb_true_iff in E as [Hv He]. apply Z.eqb_eq in He.
      exists s. split; [apply elem_of_cons; left; reflexivity | auto].
    + rewrite IH. split.
      * intros (s' & Hin & Hv & He). exists s'.
        split; [apply elem_of_cons; right; exact Hin | auto].
      * intros (s' & Hin & Hv & He). apply elem_of_cons in Hin as [->|Hin].
        -- rewrite Hv in E. simpl in E. apply Z.eqb_neq in E. contradiction.
        -- exists s'. auto.
Qed.

Lemma tick_callbacks_short ucs scs tk tm d :
  callbacks (tick ucs scs tk tm d).2 = [] \/
  (callbacks (tick ucs scs tk tm d).2 = [d] /\ d <= t_wake tk).
Proof.
  unfold tick.
  destruct (t_wake tk >=? d) eqn:E; [|left; reflexivity].
  apply Z.geb_le in E.
  pose proof (correct_missed_callbacks (period_nanoseconds tm)
                (add64 d (period_nanoseconds tm)) (t_after tk)) as Hm.
  destruct (correct_missed _ _ _) as [d2 trm]. simpl in Hm.
  destruct (m_update_callback tm), (received_stop_signal tm (taken tk)),
    (m_stop_callback tm); simpl;
    rewrite ?callbacks_app, ?Hm; simpl; auto.
Qed.

(** X4.  A run of the main loop invokes the update callback at most once
    per wake-up of the timer, and every deadline it hands to the callback
    is at or before the clock value some wake-up of the run read: the
    callback is never invoked ahead of its deadline. *)
Theorem main_loop_callbacks_bounded (ucs : Z -> bool) (scs : bool)
    (ticks : list Tick) (tm : TimerFD.t) (d : Z) :
  (length (callbacks (main_loop ucs scs ticks tm d).2) <= length ticks)%nat /\
  (forall x, x ∈ callbacks (main_loop ucs scs ticks tm d).2 ->
             exists tk, tk ∈ ticks /\ x <= t_wake tk).
Proof.
  revert tm d. induction ticks as [|tk ticks IH]; intros tm d; simpl;
    destruct (active tm); simpl;
    try (split; [lia | intros x Hx; inversion Hx]).
  pose proof (tick_callbacks_short ucs scs tk tm d) as Hshort.
  destruct (tick ucs scs tk tm d) as [[tm' d'] tr]. simpl in Hshort.
  specialize (IH tm' d').
  destruct (main_loop ucs scs ticks tm' d') as [o tr']. simpl in *.
  rewrite callbacks_app, length_app. destruct IH as [IHlen IHin].
  split.
  - destruct Hshort as [->|[-> _]]; simpl; lia.
  - intros x Hx. apply elem_of_app in Hx as [Hx|Hx].
    + destruct Hshort as [H0|[H1 Hle]].
      * rewrite H0 in Hx. inversion Hx.
      * rewrite H1 in Hx. apply list_elem_of_singleton in Hx. subst x.
        exists tk. split; [apply elem_of_cons; left; reflexivity | exact Hle].
    + destruct (IHin x Hx) as (tk' & Hin & Hle).
      exists tk'. split; [apply elem_of_cons; right; exact Hin | exact Hle].
Qed.

(** X5.  After every pass of the main loop that fired, the next deadline
    lies strictly after the clock value read after the callback, on the
    grid of the period, and no further away than one period after that
    clock value or one period after the deadline that fired. *)
Theorem next_deadline_in_the_future (ucs : Z -> bool) (scs : bool)
    (tk : Tick) (tm : TimerFD.t) (d : Z) :
  0 < period_nanoseconds tm ->
  0 <= d <= t_wake tk ->
  tick_in_range (period_nanoseconds tm) tk ->
  let P := period_nanoseconds tm in
  let d' := (tick ucs scs tk tm d).1.2 in
  t_after tk < d' /\ d' <= Z.max (d + P) (t_after tk + P) /\
  exists j, 1 <= j /\ d' = d + j * P.
Proof.
  intros HP Hd Hr P d'. subst d'.
  destruct (Z_lt_le_dec (t_after tk) (d + P)) as [Hin|Hlate].
  - destruct (tick_on_time ucs scs tk tm d HP Hd Hr Hin) as (-> & _).
    fold P. repeat split; [lia | lia |]. exists 1. lia.
  - destruct (tick_late ucs scs tk tm d HP Hd Hr Hlate) as (-> & _).
    fold P.
    pose proof (Z.div_mod (t_after tk - (d + P)) P ltac:(lia)) as Hdm.
    pose proof (Z.mod_pos_bound (t_after tk - (d + P)) P HP) as Hrem.
    assert (0 <= (t_after tk - (d + P)) / P) by (apply Z.div_pos; lia).
    set (q := (t_after tk - (d + P)) / P) in *.
    set (r := (t_after tk - (d + P)) mod P) in *. clearbody q r.
    assert (Hmul : (q + 1) * P = t_after tk - (d + P) - r + P) by lia.
    repeat split; [lia | lia |]. exists (q + 2). lia.
Qed.

Lemma next_deadline_in_the_future_witness :
  let tm := mk 100 0 "timer" false TRIGGER_STOP_SYMBOL
               true false 1000 true (Some 1%nat) None false in
  let d' := (tick (fun _ => false) false (mkTick 1003 1250 [] false) tm 1000).1.2 in
  1250 < d' /\ d' <= 1350.
Proof.
  intros tm d'.
  destruct (next_deadline_in_the_future (fun _ => false) false
              (mkTick 1003 1250 [] false) tm 1000)
    as (H1 & H2 & _);
    [simpl; lia | simpl; lia | unfold tick_in_range; simpl; lia |].
  split; [exact H1 | exact H2].
Defined.

(** X6.  If the pass fired at most [jitter] after its deadline [d] and the
    callback then ran for [m] whole periods plus [r], with [jitter + r]
    below one period, the next deadline is [d + (m + 1) * P]: exactly [m]
    period boundaries are skipped, and one warning with [m] is logged when
    [m] is positive and none otherwise. *)
Theorem overrun_by_whole_periods (ucs : Z -> bool) (scs : bool)
    (tk : Tick) (tm : TimerFD.t) (d m r : Z) :
  let P := period_nanoseconds tm in
  0 < P -> 0 <= d <= t_wake tk ->
  0 <= m <= 2147483647 -> 0 <= r ->
  t_after tk = t_wake tk + m * P + r ->
  (t_wake tk - d) + r < P ->
  t_after tk + P < 2 ^ 64 ->
  (tick ucs scs tk tm d).1.2 = d + (m + 1) * P /\
  missed_warnings (tick ucs scs tk tm d).2 = (if m =? 0 then [] else [m]).
Proof.
  intros P HP Hd Hm Hr0 Hafter Hjit Hfit.
  assert (Hrange : tick_in_range P tk).
  { unfold tick_in_range. nia. }
  destruct (Z.eq_dec m 0) as [->|Hm0].
  - destruct (tick_on_time ucs scs tk tm d HP Hd Hrange) as (H1 & _ & H3);
      [fold P; lia|].
    fold P in H1. rewrite H1, H3. split; [lia | reflexivity].
  - assert (Hlate : d + P <= t_after tk) by nia.
    destruct (tick_late ucs scs tk tm d HP Hd Hrange Hlate) as (H1 & _ & H3).
    fold P in H1, H3.
    assert (Hk : (t_after tk - (d + P)) / P + 1 = m).
    { replace (t_after tk - (d + P)) with ((t_wake tk - d + r) + (m - 1) * P) by lia.
      rewrite Z.div_add by lia. rewrite Z.div_small by lia. lia. }
    rewrite Hk in H1, H3. rewrite H1, H3.
    rewrite static_cast_int_small by lia.
    destruct (m =? 0) eqn:E; [apply Z.eqb_eq in E; contradiction|].
    split; [lia | reflexivity].
Qed.

(** The accuracy test: period 200 ms, the callback sleeps for
    [(count mod 3) * period + period / 3]. *)
Lemma overrun_by_whole_periods_witness :
  let tm := mk 200000000 5000000 "asdfg" true TRIGGER_STOP_SYMBOL
               true false 0 true (Some 1%nat) None false in
  let tk := mkTick 1000005100000 (1000005100000 + 2 * 200000000 + 66666666)
                   [] false in
  (tick (fun _ => false) false tk tm 1000005000000).1.2 = 1000005000000 + 3 * 200000000 /\
  missed_warnings (tick (fun _ => false) false tk tm 1000005000000).2 = [2].
Proof.
  intros tm tk.
  apply (overrun_by_whole_periods (fun _ => false) false tk tm
           1000005000000 2 66666666);
    simpl; lia.
Defined.

End TimerFDLoopMore.

Section TimerFDRunMore.
Import TimerFD.

Lemma main_loop_same_config ucs scs ticks : forall tm d,
  same_config tm (state_of (main_loop ucs scs ticks tm d).1).
Proof.
  induction ticks as [|tk ticks IH]; intros tm d; simpl;
    destruct (active tm); simpl; try apply same_config_refl.
  pose proof (tick_same_config ucs scs tk tm d) as Hcfg.
  destruct (tick ucs scs tk tm d) as [[tm' d'] tr]. simpl in Hcfg.
  specialize (IH tm' d').
  destruct (main_loop ucs scs ticks tm' d') as [o tr']. simpl in *.
  eapply same_config_trans; eassumption.
Qed.

Lemma main_loop_inactive ucs scs ticks tm d :
  active tm = false ->
  main_loop ucs scs ticks tm d = (Returned tm, [TimerfdClose]).
Proof. intros H. destruct ticks; simpl; rewrite H; reflexivity. Qed.

Lemma main_loop_returned_inactive ucs scs ticks : forall tm d tm' tr,
  main_loop ucs scs ticks tm d = (Returned tm', tr) -> active tm' = false.
Proof.
  induction ticks as [|tk ticks IH]; intros tm d tm' tr; simpl;
    destruct (active tm) eqn:Hact; simpl.
  - discriminate.
  - intros H. injection H as <- _. exact Hact.
  - destruct (tick ucs scs tk tm d) as [[tm1 d1] tr1].
    destruct (main_loop ucs scs ticks tm1 d1) as [o tr2] eqn:Hrun.
    intros H. injection H as -> _. eapply IH. exact Hrun.
  - intros H. injection H as <- _. exact Hact.
Qed.

(** X7.  A pass of the main loop that fires and takes a valid sample
    carrying the stop signal still invokes the update callback for its
    deadline first.  Without a stop callback the timer is then inactive
    and [start]'s loop returns after closing the timer, whatever wake-ups
    would follow; with a stop callback that does not call [stop], the stop
    callback is invoked and the loop goes on with the following
    wake-ups. *)
Theorem stop_signal_in_main_loop (ucs : Z -> bool) (scs : bool)
    (tk : Tick) (ticks : list Tick) (tm : TimerFD.t) (d : Z) (s : Sample) :
  active tm = true ->
  d <= t_wake tk ->
  s ∈ taken tk -> valid s = true -> next_start s = stop_signal tm ->
  (m_stop_callback tm = None ->
   exists tm' tr,
     main_loop ucs scs (tk :: ticks) tm d = (Returned tm', tr ++ [TimerfdClose]) /\
     active tm' = false /\
     callbacks tr = callback_of tm d /\
     tr = (tick ucs scs tk tm d).2) /\
  (m_stop_callback tm <> None -> scs = false ->
   tick_stop_requested tk = false ->
   (m_update_callback tm <> None -> ucs d = false) ->
   exists d' tr,
     tick ucs scs tk tm d = (tm, d', tr) /\
     StopCallback ∈ tr /\
     callbacks tr = callback_of tm d /\
     main_loop ucs scs (tk :: ticks) tm d
       = ((main_loop ucs scs ticks tm d').1,
          tr ++ (main_loop ucs scs ticks tm d').2)).
Proof.
  intros Hact Hfire Hin Hv Hs.
  assert (Hstop : received_stop_signal tm (taken tk) = true)
    by (apply received_stop_signal_iff; eauto).
  assert (Hge : (t_wake tk >=? d) = true) by (apply Z.geb_le; exact Hfire).
  pose proof (correct_missed_callbacks (period_nanoseconds tm)
                (add64 d (period_nanoseconds tm)) (t_after tk)) as Hm.
  split.
  - intros Hnone. simpl. rewrite Hact. simpl.
    unfold tick at 1 2. rewrite Hge, Hstop, Hnone.
    destruct (correct_missed _ _ _) as [d2 trm]. simpl in Hm.
    set (tm2 := if tick_stop_requested tk then _ else _).
    rewrite (main_loop_inactive ucs scs ticks (set_active false tm2) d2 eq_refl).
    eexists _, _. split; [reflexivity|]. split; [reflexivity|].
    split; [|reflexivity].
    unfold callback_of. destruct (m_update_callback tm); simpl;
      rewrite ?callbacks_app, Hm; reflexivity.
  - intros Hsome Hscs Hext Hucs. subst scs.
    assert (Htick : exists d' tr,
      tick ucs false tk tm d = (tm, d', tr) /\ StopCallback ∈ tr /\
      callbacks tr = callback_of tm d).
    { unfold tick. rewrite Hge, Hstop, Hext.
      destruct (correct_missed _ _ _) as [d2 trm]. simpl in Hm.
      destruct (m_stop_callback tm); [|congruence].
      unfold callback_of.
      destruct (m_update_callback tm) eqn:Hcb.
      - rewrite (Hucs ltac:(discriminate)).
        eexists _, _. split; [reflexivity|]. split.
        + apply elem_of_cons. right. apply elem_of_app. right.
          apply elem_of_app. right. apply list_elem_of_singleton. reflexivity.
        + simpl. rewrite callbacks_app, Hm. reflexivity.
      - eexists _, _. split; [reflexivity|]. split.
        + apply elem_of_cons. right. apply elem_of_app. right.
          apply elem_of_app. right. apply list_elem_of_singleton. reflexivity.
        + simpl. rewrite callbacks_app, Hm. reflexivity. }
    destruct Htick as (d' & tr & Htick & Hsc & Hcb).
    exists d', tr. split; [exact Htick|]. split; [exact Hsc|]. split; [exact Hcb|].
    simpl. rewrite Hact. simpl. rewrite Htick.
    destruct (main_loop ucs false ticks tm d'). reflexivity.
Qed.

Lemma stop_signal_in_main_loop_witness :
  let tm := mk 100 0 "timer" false TRIGGER_STOP_SYMBOL
               true false 1000 true (Some 1%nat) None false in
  exists tm' tr,
    main_loop (fun _ => false) false
      [mkTick 1000 1001 [mkSample true TRIGGER_STOP_SYMBOL] false;
       mkTick 1100 1101 [] false] tm 1000
      = (Returned tm', tr ++ [TimerfdClose]) /\
    active tm' = false /\ callbacks tr = [1000].
Proof.
  intros tm.
  destruct (stop_signal_in_main_loop (fun _ => false) false
              (mkTick 1000 1001 [mkSample true TRIGGER_STOP_SYMBOL] false)
              [mkTick 1100 1101 [] false] tm 1000
              (mkSample true TRIGGER_STOP_SYMBOL))
    as [Hnone _]; try reflexivity.
  - apply list_elem_of_singleton. reflexivity.
  - destruct (Hnone eq_refl) as (tm' & tr & Hrun & Hact & Hcb & _).
    exists tm', tr. split; [exact Hrun|]. split; [exact Hact | exact Hcb].
Defined.

(** X8.  When the update callback of a timer started with the blocking
    [start] calls [stop] from inside a pass (as the accuracy test does
    after its last round), that pass is completed and
    the loop then returns with the timer inactive and not cancelled; the
    callback is not invoked for any later wake-up. *)
Theorem stop_from_update_callback (ucs : Z -> bool) (scs : bool)
    (tk : Tick) (ticks : list Tick) (tm : TimerFD.t) (d : Z) :
  active tm = true -> runner_joinable tm = false -> d <= t_wake tk ->
  m_update_callback tm <> None -> ucs d = true ->
  exists tm' tr,
    main_loop ucs scs (tk :: ticks) tm d = (Returned tm', tr ++ [TimerfdClose]) /\
    active tm' = false /\ cancelled tm' = false /\
    callbacks (tr ++ [TimerfdClose]) = [d].
Proof.
  intros Hact _ Hfire Hcb Hucs.
  assert (Hge : (t_wake tk >=? d) = true) by (apply Z.geb_le; exact Hfire).
  pose proof (correct_missed_callbacks (period_nanoseconds tm)
                (add64 d (period_nanoseconds tm)) (t_after tk)) as Hm.
  simpl. rewrite Hact. simpl. unfold tick. rewrite Hge, Hucs.
  destruct (m_update_callback tm) as [c|] eqn:Hc; [|congruence].
  destruct (correct_missed _ _ _) as [d2 trm]. simpl in Hm.
  destruct (stop_flags tm) as (Ha & Hc' & _).
  assert (Hss : forall x, active (stop x) = false /\ cancelled (stop x) = false)
    by (intros x; destruct (stop_flags x) as (? & ? & _); auto).
  set (tm2 := if tick_stop_requested tk then stop (stop tm) else stop tm).
  assert (Htm2 : active tm2 = false /\ cancelled tm2 = false)
    by (subst tm2; destruct (tick_stop_requested tk); apply Hss).
  destruct Htm2 as [Ha2 Hc2].
  destruct (received_stop_signal tm (taken tk)); [destruct (m_stop_callback tm)|].
  - set (tm3 := if scs then stop tm2 else tm2).
    assert (Htm3 : active tm3 = false /\ cancelled tm3 = false)
      by (subst tm3; destruct scs; [apply Hss | auto]).
    destruct Htm3 as [Ha3 Hc3].
    rewrite (main_loop_inactive ucs scs ticks tm3 d2 Ha3).
    eexists _, _. split; [reflexivity|]. split; [exact Ha3|]. split; [exact Hc3|].
    simpl. rewrite !callbacks_app, Hm. reflexivity.
  - rewrite (main_loop_inactive ucs scs ticks (set_active false tm2) d2 eq_refl).
    eexists _, _. split; [reflexivity|]. split; [reflexivity|]. split; [exact Hc2|].
    simpl. rewrite !callbacks_app, Hm. reflexivity.
  - rewrite (main_loop_inactive ucs scs ticks tm2 d2 Ha2).
    eexists _, _. split; [reflexivity|]. split; [exact Ha2|]. split; [exact Hc2|].
    simpl. rewrite !callbacks_app, Hm. reflexivity.
Qed.

Lemma stop_from_update_callback_witness :
  let tm := mk 100 0 "timer" false TRIGGER_STOP_SYMBOL
               true false 1000 true (Some 1%nat) None false in
  exists tm' tr,
    main_loop (fun t => 1200 <=? t) false
      [mkTick 1200 1201 [] false; mkTick 1300 1301 [] false] tm 1200
      = (Returned tm', tr ++ [TimerfdClose]) /\
    active tm' = false /\ cancelled tm' = false /\
    callbacks (tr ++ [TimerfdClose]) = [1200].
Proof.
  intros tm.
  apply (stop_from_update_callback (fun t => 1200 <=? t) false
           (mkTick 1200 1201 [] false) [mkTick 1300 1301 [] false] tm 1200);
    [reflexivity | reflexivity | simpl; lia | discriminate | reflexivity].
Defined.

End TimerFDRunMore.

Section TimerFDStartMore.
Import TimerFD.

(** X9.  Once [start] has taken a start instant that is not the stop
    signal, [get_start_time] returns that instant: at every later point of
    the run, after the loop returned, and after a later [stop]. *)
Theorem get_start_time_after_start (ucs : Z -> bool) (scs : bool)
    (cb : option nat) (wakes : list Wake) (now : Z) (ticks : list Tick)
    (tm : TimerFD.t) (s : Z) :
  active tm = false -> cancelled tm = false ->
  (if wait_for_start tm
   then (receiveStartTime wakes (set_update_callback cb (set_active true tm))).1.1
   else Some now) = Some s ->
  (wait_for_start tm = true -> s <> stop_signal tm) ->
  let tm' := state_of (start ucs scs cb wakes now ticks tm).1 in
  get_start_time tm' = s /\ get_start_time (stop tm') = s.
Proof.
  intros Hact Hcan Hneg Hns tm'. subst tm'. unfold start.
  rewrite Hact. simpl. rewrite Hcan. simpl.
  set (tm1 := set_update_callback cb (set_active true tm)) in *.
  assert (Hneg' :
    exists tm2 tr, (if wait_for_start tm then receiveStartTime wakes tm1
                    else (Some now, tm1, [])) = (Some s, tm2, tr)
                   /\ same_config tm1 tm2).
  { destruct (wait_for_start tm).
    - pose proof (receiveStartTime_quiet wakes tm1) as [Hcfg _].
      destruct (receiveStartTime wakes tm1) as [[r tm2] tr]. simpl in *.
      subst r. exists tm2, tr. auto.
    - injection Hneg as ->. exists tm1, []. split; [reflexivity|].
      apply same_config_refl. }
  destruct Hneg' as (tm2 & tr & -> & Hcfg).
  destruct Hcfg as (_ & _ & _ & Hw2 & Hsig2 & _). simpl in Hw2, Hsig2. simpl.
  rewrite Hw2, Hsig2.
  destruct (wait_for_start tm && (s =? stop_signal tm)) eqn:E.
  { apply andb_true_iff in E as [Hw He]. apply Z.eqb_eq in He.
    exfalso. exact (Hns Hw He). }
  set (tm3 := set_start_point_initialized true (set_start_point s tm2)).
  pose proof (main_loop_same_config ucs scs ticks tm3
                (initial_deadline (period_nanoseconds tm2)
                                  (offset_nanoseconds tm2) s)) as Hloop.
  destruct (main_loop ucs scs ticks tm3 _) as [o tr']. simpl in *.
  destruct Hloop as (_ & _ & _ & _ & _ & Hsp & Hspi & _). simpl in Hsp, Hspi.
  assert (Hg : get_start_time (state_of o) = s)
    by (unfold get_start_time; rewrite Hspi, Hsp; reflexivity).
  split; [exact Hg|].
  destruct (same_config_stop (state_of o)) as (_ & _ & _ & _ & _ & Hsp' & Hspi' & _).
  unfold get_start_time in *. rewrite Hspi', Hsp'. exact Hg.
Qed.

Lemma get_start_time_after_start_witness :
  let tm := mk 200 5 "timer" true TRIGGER_STOP_SYMBOL
               false false 0 false None None false in
  get_start_time
    (state_of (start (fun _ => false) false (Some 1%nat)
                 [mkWake [] false; mkWake [mkSample true 1000] false] 0
                 [mkTick 1005 1006 [mkSample true TRIGGER_STOP_SYMBOL] false]
                 tm).1) = 1000.
Proof.
  intros tm.
  apply (get_start_time_after_start (fun _ => false) false (Some 1%nat)
           [mkWake [] false; mkWake [mkSample true 1000] false] 0
           [mkTick 1005 1006 [mkSample true TRIGGER_STOP_SYMBOL] false] tm 1000);
    try reflexivity.
  intros _. discriminate.
Defined.

Lemma receiveStartTime_keeps_active wakes : forall tm,
  Forall (fun w => stop_requested w = false) wakes ->
  active (receiveStartTime wakes tm).1.2 = active tm.
Proof.
  induction wakes as [|w wakes IH]; intros tm Hall; simpl;
    destruct (active tm) eqn:Hact; simpl; try assumption; try reflexivity.
  apply Forall_cons in Hall as [Hw Hall]. rewrite Hw.
  destruct (first_valid (samples w)); simpl; [exact Hact|].
  specialize (IH tm Hall).
  destruct (receiveStartTime wakes tm) as [[r tm''] tr]. simpl in *. congruence.
Qed.

Lemma stop_during_negotiation_returns ucs scs cb pre w post s now ticks tm :
  active tm = false -> cancelled tm = false -> wait_for_start tm = true ->
  Forall (fun w => first_valid (samples w) = None) pre ->
  first_valid (samples w) = Some s -> next_start s = stop_signal tm ->
  Forall (fun w => stop_requested w = false) (pre ++ w :: post) ->
  exists tm' tr,
    start ucs scs cb (pre ++ w :: post) now ticks tm = (Returned tm', tr) /\
    active tm' = true.
Proof.
  intros Hact Hcan Hwait Hpre Hw Hs Hnostop. unfold start.
  rewrite Hact. simpl. rewrite Hcan, Hwait. simpl.
  set (tm1 := set_update_callback cb (set_active true tm)).
  pose proof (receiveStartTime_quiet (pre ++ w :: post) tm1) as [Hcfg _].
  pose proof (receiveStartTime_stop_signal pre w post s tm1 Hpre Hw Hs) as Hres.
  pose proof (receiveStartTime_keeps_active (pre ++ w :: post) tm1 Hnostop) as Hkeep.
  destruct (receiveStartTime (pre ++ w :: post) tm1) as [[r tm2] tr].
  simpl in Hcfg, Hres, Hkeep. subst r.
  destruct Hcfg as (_ & _ & _ & Hwait2 & Hsig2 & _).
  simpl in Hwait2, Hsig2. simpl.
  rewrite Hwait2, Hwait, Hsig2, Z.eqb_refl. simpl.
  eexists _, _. split; [reflexivity|]. simpl. exact Hkeep.
Qed.

(** X10.  A [start] that returns without entering the loop leaves the timer
    marked active: this is so when the timer was cancelled at the call,
    and when the stop signal arrived during the negotiation of the start
    instant with nobody calling [stop].  A following [start] then throws
    [ErrorTimerStart]; after [stop] the timer is inactive again. *)
Theorem early_return_leaves_timer_active (ucs : Z -> bool) (scs : bool)
    (cb : option nat) (now : Z) (ticks : list Tick) (tm : TimerFD.t) :
  active tm = false ->
  (cancelled tm = true ->
   forall wakes,
     start ucs scs cb wakes now ticks tm = (Returned (set_active true tm), [])) /\
  (cancelled tm = false -> wait_for_start tm = true ->
   forall pre w post s,
     Forall (fun w => first_valid (samples w) = None) pre ->
     Forall (fun w => stop_requested w = false) (pre ++ w :: post) ->
     first_valid (samples w) = Some s -> next_start s = stop_signal tm ->
     exists tm' tr,
       start ucs scs cb (pre ++ w :: post) now ticks tm = (Returned tm', tr) /\
       active tm' = true /\
       (forall cb' wakes' now' ticks',
          (start ucs scs cb' wakes' now' ticks' tm').1
            = Thrown ErrorTimerStart tm') /\
       active (stop tm') = false).
Proof.
  intros Hact. split.
  - intros Hcan wakes. unfold start. rewrite Hact. simpl. rewrite Hcan. reflexivity.
  - intros Hcan Hwait pre w post s Hpre Hnostop Hw Hs.
    destruct (stop_during_negotiation_returns ucs scs cb pre w post s now ticks tm
                Hact Hcan Hwait Hpre Hw Hs) as (tm' & tr & Hrun & Hactive).
    + exact Hnostop.
    + exists tm', tr. split; [exact Hrun|]. split; [exact Hactive|]. split.
      * intros cb' wakes' now' ticks'. unfold start. rewrite Hactive. reflexivity.
      * apply stop_flags.
Qed.

Lemma early_return_leaves_timer_active_witness :
  let tm := mk 200 5 "timer" true TRIGGER_STOP_SYMBOL
               false false 0 false None None false in
  exists tm' tr,
    start (fun _ => false) false (Some 1%nat)
      ([mkWake [] false] ++ mkWake [mkSample true TRIGGER_STOP_SYMBOL] false :: [])
      0 [] tm = (Returned tm', tr) /\
    active tm' = true /\
    (start (fun _ => false) false (Some 1%nat) [] 0 [] tm').1
      = Thrown ErrorTimerStart tm'.
Proof.
  intros tm.
  destruct (early_return_leaves_timer_active (fun _ => false) false (Some 1%nat)
              0 [] tm eq_refl) as [_ H].
  destruct (H eq_refl eq_refl [mkWake [] false]
              (mkWake [mkSample true TRIGGER_STOP_SYMBOL] false) []
              (mkSample true TRIGGER_STOP_SYMBOL))
    as (tm' & tr & Hrun & Hact & Hthrow & _).
  - repeat constructor.
  - repeat constructor.
  - reflexivity.
  - reflexivity.
  - exists tm', tr. split; [exact Hrun|]. split; [exact Hact|]. apply Hthrow.
Defined.

(** X11.  The guards against a second start do not cover every entry point.
    The two-argument [start] stores the stop callback before the guard: on
    an active timer it throws [ErrorTimerStart] with the stop callback
    already replaced.  [start_async] looks at the worker thread only: on a
    timer that is active without a joinable worker (started with the
    blocking [start]) it does not throw, replaces the update callback and
    creates a worker.  Both timers behave this way. *)
Theorem second_start_side_effects :
  (forall ucs scs cb scb wakes now ticks tm,
     TimerFD.active tm = true ->
     TimerFD.start2 ucs scs cb scb wakes now ticks tm
       = (Thrown ErrorTimerStart (TimerFD.set_stop_callback scb tm),
          [LogWrite 2 MsgStartedTwice])) /\
  (forall cb tm,
     TimerFD.active tm = true -> TimerFD.runner_joinable tm = false ->
     exists tm',
       TimerFD.start_async cb tm = (Returned tm', []) /\
       TimerFD.m_update_callback tm' = cb /\
       TimerFD.runner_joinable tm' = true /\ TimerFD.active tm' = true) /\
  (forall ucs scs cb scb wakes tm,
     TimerSimulated.active tm = true ->
     TimerSimulated.start2 ucs scs cb scb wakes tm
       = (Thrown ErrorTimerStart (TimerSimulated.set_stop_callback scb tm),
          [LogWrite 2 MsgStartedTwice])) /\
  (forall cb tm,
     TimerSimulated.active tm = true -> TimerSimulated.runner_joinable tm = false ->
     exists tm',
       TimerSimulated.start_async cb tm = (Returned tm', []) /\
       TimerSimulated.m_update_callback tm' = cb /\
       TimerSimulated.runner_joinable tm' = true /\
       TimerSimulated.active tm' = true).
Proof.
  repeat apply conj.
  - intros ucs scs cb scb wakes now ticks tm H.
    unfold TimerFD.start2, TimerFD.start. simpl. rewrite H. reflexivity.
  - intros cb tm Ha Hj. unfold TimerFD.start_async. rewrite Hj. simpl.
    eexists. split; [reflexivity|]. repeat split. exact Ha.
  - intros ucs scs cb scb wakes tm H.
    unfold TimerSimulated.start2, TimerSimulated.start. simpl. rewrite H. reflexivity.
  - intros cb tm Ha Hj. unfold TimerSimulated.start_async. rewrite Hj. simpl.
    eexists. split; [reflexivity|]. repeat split. exact Ha.
Qed.

Lemma second_start_side_effects_witness :
  let running := mk 10 0 "timer" false TRIGGER_STOP_SYMBOL
                    true false 0 true (Some 1%nat) (Some 7%nat) false in
  TimerFD.start2 (fun _ => false) false (Some 2%nat) (Some 8%nat) [] 0 [] running
    = (Thrown ErrorTimerStart (TimerFD.set_stop_callback (Some 8%nat) running),
       [LogWrite 2 MsgStartedTwice]) /\
  exists tm', TimerFD.start_async (Some 2%nat) running = (Returned tm', []) /\
              TimerFD.m_update_callback tm' = Some 2%nat.
Proof.
  intros running.
  destruct second_start_side_effects as (H1 & H2 & _).
  split.
  - apply H1. reflexivity.
  - destruct (H2 (Some 2%nat) running eq_refl eq_refl) as (tm' & Hr & Hcb & _).
    exists tm'. split; [exact Hr | exact Hcb].
Defined.

(** X12.  On a timer without a joinable worker (never started, or started
    with the blocking [start]), [stop] is idempotent and touches nothing
    but the flags [active] and [cancelled]: the timer still has no
    joinable worker, a second [stop] changes nothing, and period, offset,
    id, callbacks, the start point with [get_start_time] and, for the
    simulated timer, [get_time] survive it. *)
Theorem stop_is_idempotent :
  (forall tm : TimerFD.t,
     TimerFD.runner_joinable tm = false ->
     TimerFD.runner_joinable (TimerFD.stop tm) = false /\
     TimerFD.stop (TimerFD.stop tm) = TimerFD.stop tm /\
     TimerFD.same_config tm (TimerFD.stop tm) /\
     TimerFD.get_start_time (TimerFD.stop tm) = TimerFD.get_start_time tm) /\
  (forall tm : TimerSimulated.t,
     TimerSimulated.runner_joinable tm = false ->
     TimerSimulated.runner_joinable (TimerSimulated.stop tm) = false /\
     TimerSimulated.stop (TimerSimulated.stop tm) = TimerSimulated.stop tm /\
     TimerSimulated.same_config tm (TimerSimulated.stop tm) /\
     TimerSimulated.get_time (TimerSimulated.stop tm) = TimerSimulated.get_time tm).
Proof.
  split.
  - intros tm Hj. destruct tm as [? ? ? ? ? ? ? ? ? ? ? j]. simpl in Hj. subst j.
    repeat split.
  - intros tm Hj. destruct tm as [? ? ? ? ? ? ? ? j]. simpl in Hj. subst j.
    repeat split.
Qed.

Lemma stop_is_idempotent_witness :
  let running := mk 10 0 "timer" false TRIGGER_STOP_SYMBOL
                    true false 1000 true (Some 1%nat) None false in
  let simulated := TimerSimulated.mk 10 0 "sim" 20 true false
                     (Some 1%nat) None false in
  (TimerFD.stop (TimerFD.stop running) = TimerFD.stop running /\
   TimerFD.get_start_time (TimerFD.stop running) = 1000) /\
  (TimerSimulated.stop (TimerSimulated.stop simulated)
     = TimerSimulated.stop simulated /\
   TimerSimulated.node_id (TimerSimulated.stop simulated) = "sim"%string /\
   TimerSimulated.get_time (TimerSimulated.stop simulated) = 20).
Proof.
  intros running simulated.
  destruct stop_is_idempotent as [Hfd Hsim].
  destruct (Hfd running eq_refl) as (_ & H1 & _ & H3).
  destruct (Hsim simulated eq_refl) as (_ & G1 & (_ & _ & Gid & _) & G3).
  split; [split; [exact H1 | exact H3]|].
  split; [exact G1|]. split; [exact Gid | exact G3].
Defined.

End TimerFDStartMore.

(** * Further properties of the simulated timer *)

Lemma ready_stamps_app tr1 tr2 :
  ready_stamps (tr1 ++ tr2) = ready_stamps tr1 ++ ready_stamps tr2.
Proof.
  induction tr1 as [|e tr1 IH]; [reflexivity|].
  destruct e; simpl; rewrite IH; reflexivity.
Qed.

Lemma progression_length d P n : length (progression d P n) = n.
Proof. revert d. induction n as [|n IH]; intros d; simpl; [|rewrite IH]; reflexivity. Qed.

Lemma last_cons_default (l : list Z) (a x : Z) :
  List.last (a :: l) x = List.last l a.
Proof.
  revert a x. induction l as [|b l IH]; intros a x; [reflexivity|].
  change (List.last (b :: l) x = List.last (b :: l) a).
  rewrite (IH b x), (IH b a). reflexivity.
Qed.

Lemma last_app_default (l1 l2 : list Z) (x : Z) :
  List.last (l1 ++ l2) x = List.last l2 (List.last l1 x).
Proof.
  revert x. induction l1 as [|a l1 IH]; intros x; [reflexivity|].
  rewrite <- app_comm_cons, !last_cons_default. apply IH.
Qed.

Lemma progression_last d P n :
  List.last (progression d P (S n)) d = d + Z.of_nat n * P.
Proof.
  revert d. induction n as [|n IH]; intros d.
  - simpl. lia.
  - change (progression d P (S (S n))) with (d :: progression (d + P) P (S n)).
    rewrite last_cons_default.
    assert (H : forall x, List.last (progression (d + P) P (S n)) x
                          = List.last (progression (d + P) P (S n)) (d + P)).
    { intros x. change (progression (d + P) P (S n))
        with ((d + P) :: progression (d + P + P) P n).
      rewrite !last_cons_default. reflexivity. }
    rewrite H, IH. lia.
Qed.

Section TimerSimulatedMore.
Import TimerSimulated.

Lemma sim_same_config_refl tm : same_config tm tm.
Proof. repeat split. Qed.

Lemma sim_same_config_trans tm1 tm2 tm3 :
  same_config tm1 tm2 -> same_config tm2 tm3 -> same_config tm1 tm3.
Proof. unfold same_config. intuition congruence. Qed.

Lemma sim_same_config_stop tm :
  same_config tm (stop tm) /\ current_time (stop tm) = current_time tm /\
  active (stop tm) = false.
Proof. destruct tm as [? ? ? ? ? ? ? ? []]; repeat split. Qed.

Lemma on_sample_match ucs scs s gv gn tm d :
  valid s = true -> next_start s = d ->
  exists tm2,
    on_sample ucs scs s gv gn tm d
      = (false, (true, true, tm2, add64 d (period_nanoseconds tm)),
         match m_update_callback tm with
         | Some _ => [UpdateCallback d]
         | None => []
         end ++ [WriteReadyStatus (node_id tm) (add64 d (period_nanoseconds tm))]) /\
    same_config tm tm2 /\ current_time tm2 = d.
Proof.
  intros Hv Hd. unfold on_sample. rewrite Hv, Hd, Z.eqb_refl. simpl.
  destruct (m_update_callback tm) eqn:Hcb; simpl.
  - destruct (ucs d).
    + eexists. split; [reflexivity|].
      destruct tm as [? ? ? ? ? ? ? ? []]; repeat split.
    + eexists. split; [reflexivity|]. repeat split.
  - eexists. split; [reflexivity|]. repeat split.
Qed.

(** What the processing of one batch does, with an update callback
    registered and no wrap-around of the deadline. *)
Lemma handle_samples_progression ucs scs l : forall gv gn tm d,
  m_update_callback tm <> None ->
  0 <= period_nanoseconds tm -> 0 <= d ->
  d + Z.of_nat (length l) * period_nanoseconds tm < 2 ^ 64 ->
  exists n,
    (n <= length l)%nat /\
    callbacks (handle_samples ucs scs l gv gn tm d).2
      = progression d (period_nanoseconds tm) n /\
    ready_stamps (handle_samples ucs scs l gv gn tm d).2
      = progression (d + period_nanoseconds tm) (period_nanoseconds tm) n /\
    (handle_samples ucs scs l gv gn tm d).1.2
      = d + Z.of_nat n * period_nanoseconds tm /\
    same_config tm (handle_samples ucs scs l gv gn tm d).1.1.2 /\
    current_time (handle_samples ucs scs l gv gn tm d).1.1.2
      = List.last (callbacks (handle_samples ucs scs l gv gn tm d).2)
                  (current_time tm).
Proof.
  induction l as [|s l IH]; intros gv gn tm d Hcb HP Hd Hfit.
  - exists 0%nat. simpl. repeat split; try lia.
  - change (length (s :: l)) with (S (length l)) in Hfit.
    rewrite Nat2Z.inj_succ in Hfit.
    destruct (sample_cases d s) as [Hig|[[Hv Hm]|(Hv & Hne & Hstop)]].
    + pose proof (on_sample_ignored ucs scs s gv gn tm d Hig) as Hstep.
      simpl in Hstep. simpl. rewrite Hstep.
      assert (Hfit' : d + Z.of_nat (length l) * period_nanoseconds tm < 2 ^ 64).
      { rewrite Z.mul_succ_l in Hfit. lia. }
      destruct (IH (gv || valid s) gn tm d Hcb HP Hd Hfit')
        as (n & Hn & H1 & H2 & H3 & H4 & H5).
      destruct (handle_samples ucs scs l (gv || valid s) gn tm d)
        as [[[a tm'] d'] tr]. cbn [fst snd] in *.
      exists n. split; [simpl; lia|]. auto.
    + destruct (on_sample_match ucs scs s gv gn tm d Hv Hm)
        as (tm2 & Hstep & Hcfg & Hct).
      simpl. rewrite Hstep.
      rewrite add64_small by (unfold is_u64; lia).
      assert (Hcb2 : m_update_callback tm2 <> None)
        by (destruct Hcfg as (_ & _ & _ & -> & _); exact Hcb).
      assert (HP2 : period_nanoseconds tm2 = period_nanoseconds tm)
        by (destruct Hcfg as (-> & _); reflexivity).
      destruct (IH true true tm2 (d + period_nanoseconds tm) Hcb2
                  ltac:(lia) ltac:(lia) ltac:(rewrite HP2; lia))
        as (n & Hn & H1 & H2 & H3 & H4 & H5).
      destruct (handle_samples ucs scs l true true tm2 _)
        as [[[a tm'] d'] tr]. cbn [fst snd] in *.
      rewrite HP2 in *.
      destruct (m_update_callback tm) eqn:Hsome; [|congruence].
      exists (S n).
      rewrite !callbacks_app, !ready_stamps_app, H1, H2, H3.
      split; [simpl; lia|]. split; [reflexivity|]. split; [reflexivity|].
      split; [lia|]. split; [eapply sim_same_config_trans; eassumption|].
      rewrite H5, Hct.
      change (callbacks [UpdateCallback d]) with [d].
      change (callbacks [WriteReadyStatus (node_id tm)
                           (d + period_nanoseconds tm)]) with (@nil Z).
      rewrite app_nil_r, H1.
      change ([d] ++ progression (d + period_nanoseconds tm)
                       (period_nanoseconds tm) n)
        with (d :: progression (d + period_nanoseconds tm)
                     (period_nanoseconds tm) n).
      rewrite last_cons_default. reflexivity.
    + pose proof (on_sample_stop ucs scs s gv gn tm d Hv Hne Hstop) as Hstep.
      simpl in Hstep. simpl. rewrite Hstep.
      exists 0%nat.
      destruct (m_stop_callback tm); simpl.
      * repeat split; try lia.
        all: destruct scs; try reflexivity;
          destruct (sim_same_config_stop tm) as (Hc & Ht & _);
          try apply Hc; try exact Ht; apply sim_same_config_refl.
      * repeat split; lia.
Qed.

Lemma progression_app d P n m :
  progression d P (n + m)
    = progression d P n ++ progression (d + Z.of_nat n * P) P m.
Proof.
  revert d. induction n as [|n IH]; intros d.
  - simpl. rewrite Z.add_0_r. reflexivity.
  - change (S n + m)%nat with (S (n + m)). simpl progression.
    rewrite IH. rewrite Nat2Z.inj_succ.
    replace (d + P + Z.of_nat n * P) with (d + Z.succ (Z.of_nat n) * P) by lia.
    reflexivity.
Qed.

Lemma total_samples_cons w wakes :
  total_samples (w :: wakes) = (length (samples w) + total_samples wakes)%nat.
Proof. unfold total_samples. simpl. apply length_app. Qed.

(** One wake-up of either loop of [start]: the timer after a possible stop
    request, then the processing of the batch. *)
Lemma wake_progression ucs scs w tm d :
  m_update_callback tm <> None ->
  0 <= period_nanoseconds tm -> 0 <= d ->
  d + Z.of_nat (length (samples w)) * period_nanoseconds tm < 2 ^ 64 ->
  let r := handle_system_trigger ucs scs (samples w)
             (if stop_requested w then stop tm else tm) d in
  exists n,
    (n <= length (samples w))%nat /\
    callbacks r.2 = progression d (period_nanoseconds tm) n /\
    r.1.2 = d + Z.of_nat n * period_nanoseconds tm /\
    same_config tm r.1.1.2 /\
    current_time r.1.1.2 = List.last (callbacks r.2) (current_time tm).
Proof.
  intros Hcb HP Hd Hfit r. subst r. unfold handle_system_trigger.
  set (tm1 := if stop_requested w then stop tm else tm).
  assert (H1 : same_config tm tm1 /\ current_time tm1 = current_time tm).
  { subst tm1. destruct (stop_requested w).
    - destruct (sim_same_config_stop tm) as (? & ? & _). auto.
    - split; [apply sim_same_config_refl | reflexivity]. }
  destruct H1 as [Hcfg Hct].
  assert (HP1 : period_nanoseconds tm1 = period_nanoseconds tm)
    by (destruct Hcfg as (-> & _); reflexivity).
  assert (Hcb1 : m_update_callback tm1 <> None)
    by (destruct Hcfg as (_ & _ & _ & -> & _); exact Hcb).
  destruct (handle_samples_progression ucs scs (samples w) false false tm1 d
              Hcb1 ltac:(lia) Hd ltac:(rewrite HP1; exact Hfit))
    as (n & Hn & G1 & _ & G3 & G4 & G5).
  rewrite HP1 in *. exists n.
  split; [exact Hn|]. split; [exact G1|]. split; [exact G3|].
  split; [eapply sim_same_config_trans; eassumption|].
  rewrite G5, Hct. reflexivity.
Qed.

Lemma main_loop_progression ucs scs wakes : forall tm d,
  m_update_callback tm <> None ->
  0 <= period_nanoseconds tm -> 0 <= d ->
  d + Z.of_nat (total_samples wakes) * period_nanoseconds tm < 2 ^ 64 ->
  exists n,
    (n <= total_samples wakes)%nat /\
    callbacks (main_loop ucs scs wakes tm d).2
      = progression d (period_nanoseconds tm) n /\
    same_config tm (state_of (main_loop ucs scs wakes tm d).1) /\
    current_time (state_of (main_loop ucs scs wakes tm d).1)
      = List.last (callbacks (main_loop ucs scs wakes tm d).2) (current_time tm).
Proof.
  induction wakes as [|w wakes IH]; intros tm d Hcb HP Hd Hfit; simpl;
    destruct (active tm); simpl;
    try (exists 0%nat; repeat split; lia).
  rewrite total_samples_cons, Nat2Z.inj_add in Hfit.
  destruct (wake_progression ucs scs w tm d Hcb HP Hd ltac:(nia))
    as (n1 & Hn1 & G1 & G2 & G3 & G4).
  destruct (handle_system_trigger ucs scs (samples w) _ d)
    as [[[a tm2] d2] tr]. cbn [fst snd] in *.
  assert (HP2 : period_nanoseconds tm2 = period_nanoseconds tm)
    by (destruct G3 as (-> & _); reflexivity).
  assert (Hcb2 : m_update_callback tm2 <> None)
    by (destruct G3 as (_ & _ & _ & -> & _); exact Hcb).
  destruct (IH tm2 d2 Hcb2 ltac:(lia) ltac:(nia) ltac:(rewrite HP2; nia))
    as (n2 & Hn2 & K1 & K2 & K3).
  destruct (main_loop ucs scs wakes tm2 d2) as [o tr']. cbn [fst snd] in *.
  rewrite HP2 in *. exists (n1 + n2)%nat.
  rewrite total_samples_cons.
  change (callbacks (WaitsetWait None :: tr ++ tr')) with (callbacks (tr ++ tr')).
  rewrite callbacks_app, last_app_default, G1, K1, progression_app, <- G2.
  split; [lia|]. split; [reflexivity|].
  split; [eapply sim_same_config_trans; eassumption|].
  rewrite K3, G4, G1, K1. reflexivity.
Qed.

Lemma ready_loop_progression ucs scs wakes : forall tm d,
  m_update_callback tm <> None ->
  0 <= period_nanoseconds tm -> 0 <= d ->
  d + Z.of_nat (total_samples wakes) * period_nanoseconds tm < 2 ^ 64 ->
  exists n,
    (n <= total_samples wakes)%nat /\
    callbacks (ready_loop ucs scs wakes tm d).2
      = progression d (period_nanoseconds tm) n /\
    same_config tm (state_of (ready_loop ucs scs wakes tm d).1) /\
    current_time (state_of (ready_loop ucs scs wakes tm d).1)
      = List.last (callbacks (ready_loop ucs scs wakes tm d).2) (current_time tm).
Proof.
  induction wakes as [|w wakes IH]; intros tm d Hcb HP Hd Hfit.
  - simpl. destruct (active tm); simpl; exists 0%nat; repeat split; lia.
  - cbn [ready_loop]. destruct (active tm) eqn:Hact; cbn [negb].
    + rewrite total_samples_cons, Nat2Z.inj_add in Hfit.
      destruct (wake_progression ucs scs w tm d Hcb HP Hd ltac:(nia))
        as (n1 & Hn1 & G1 & G2 & G3 & G4).
      destruct (handle_system_trigger ucs scs (samples w) _ d)
        as [[[a tm2] d2] tr]. cbn [fst snd] in *.
      assert (HP2 : period_nanoseconds tm2 = period_nanoseconds tm)
        by (destruct G3 as (-> & _); reflexivity).
      assert (Hcb2 : m_update_callback tm2 <> None)
        by (destruct G3 as (_ & _ & _ & -> & _); exact Hcb).
      assert (Hrest : exists n2,
        (n2 <= total_samples wakes)%nat /\
        callbacks (match a with
                   | NONE => ready_loop ucs scs wakes tm2 d2
                   | _ => main_loop ucs scs wakes tm2 d2
                   end).2 = progression d2 (period_nanoseconds tm2) n2 /\
        same_config tm2 (state_of (match a with
                   | NONE => ready_loop ucs scs wakes tm2 d2
                   | _ => main_loop ucs scs wakes tm2 d2
                   end).1) /\
        current_time (state_of (match a with
                   | NONE => ready_loop ucs scs wakes tm2 d2
                   | _ => main_loop ucs scs wakes tm2 d2
                   end).1)
          = List.last (callbacks (match a with
                   | NONE => ready_loop ucs scs wakes tm2 d2
                   | _ => main_loop ucs scs wakes tm2 d2
                   end).2) (current_time tm2)).
      { destruct a;
          [apply main_loop_progression | apply main_loop_progression
          | apply main_loop_progression | apply IH];
          try assumption; try lia; rewrite HP2; nia. }
      destruct Hrest as (n2 & Hn2 & K1 & K2 & K3).
      destruct (match a with
                | NONE => ready_loop ucs scs wakes tm2 d2
                | _ => main_loop ucs scs wakes tm2 d2
                end) as [o tr']. cbn [fst snd] in *.
      rewrite HP2 in *. exists (n1 + n2)%nat.
      rewrite total_samples_cons.
      change (callbacks (WriteReadyStatus (node_id tm) d
                           :: WaitsetWait (Some 2000) :: tr ++ tr'))
        with (callbacks (tr ++ tr')).
      rewrite callbacks_app, last_app_default, G1, K1, progression_app, <- G2.
      split; [lia|]. split; [reflexivity|].
      split; [eapply sim_same_config_trans; eassumption|].
      rewrite K3, G4, G1, K1. reflexivity.
    + destruct (main_loop_progression ucs scs (w :: wakes) tm d Hcb HP Hd Hfit)
        as (n & Hn & K1 & K2 & K3).
      exists n. auto.
Qed.

End TimerSimulatedMore.

Section TimerSimulatedClaimsMore.
Import TimerSimulated.

(** X13.  With an update callback registered and no wrap-around, the
    processing of one batch of trigger samples invokes the callback for
    consecutive deadlines [d], [d + P], ... only, publishes exactly one
    ready status per callback, each carrying the deadline that follows the
    one just dispatched, leaves the deadline one period after the last
    dispatched one, and sets the current time to the last dispatched
    deadline. *)
Theorem batch_dispatches_consecutive_deadlines (ucs : Z -> bool) (scs : bool)
    (l : list Sample) (tm : TimerSimulated.t) (d : Z) :
  m_update_callback tm <> None ->
  0 <= period_nanoseconds tm -> 0 <= d ->
  d + Z.of_nat (length l) * period_nanoseconds tm < 2 ^ 64 ->
  let P := period_nanoseconds tm in
  let r := handle_system_trigger ucs scs l tm d in
  exists n,
    (n <= length l)%nat /\
    callbacks r.2 = progression d P n /\
    ready_stamps r.2 = progression (d + P) P n /\
    r.1.2 = d + Z.of_nat n * P /\
    get_time r.1.1.2 = List.last (callbacks r.2) (get_time tm).
Proof.
  intros Hcb HP Hd Hfit P r. subst P r. unfold handle_system_trigger, get_time.
  destruct (handle_samples_progression ucs scs l false false tm d Hcb HP Hd Hfit)
    as (n & Hn & H1 & H2 & H3 & _ & H5).
  exists n. auto.
Qed.

Lemma batch_dispatches_consecutive_deadlines_witness :
  let tm := mk 10 0 "sim" 20 true false (Some 1%nat) None false in
  let r := handle_system_trigger (fun _ => false) false
             [mkSample true 30; mkSample true 40; mkSample true 30;
              mkSample false 50; mkSample true 60] tm 30 in
  exists n, callbacks r.2 = progression 30 10 n /\
            ready_stamps r.2 = progression 40 10 n /\
            r.1.2 = 30 + Z.of_nat n * 10.
Proof.
  intros tm r.
  destruct (batch_dispatches_consecutive_deadlines (fun _ => false) false
              [mkSample true 30; mkSample true 40; mkSample true 30;
               mkSample false 50; mkSample true 60] tm 30)
    as (n & _ & H1 & H2 & H3 & _);
    [discriminate | simpl; lia | lia | simpl; lia |].
  exists n. split; [exact H1|]. split; [exact H2 | exact H3].
Defined.

(** X14.  With an update callback given, a run of [start] of the
    simulated timer hands the callback exactly the deadlines [offset],
    [offset + P], [offset + 2 * P], ... in this order, without gap and
    without repetition, however the triggers arrive; and [get_time] of the
    timer as the run left it is the last deadline dispatched, or the
    offset if none was. *)
Theorem simulated_run_dispatches_in_order (ucs : Z -> bool) (scs : bool)
    (c : nat) (wakes : list Wake) (tm : TimerSimulated.t) :
  active tm = false -> cancelled tm = false ->
  0 <= period_nanoseconds tm -> 0 <= offset_nanoseconds tm ->
  offset_nanoseconds tm
    + Z.of_nat (total_samples wakes) * period_nanoseconds tm < 2 ^ 64 ->
  let run := start ucs scs (Some c) wakes tm in
  exists n,
    (n <= total_samples wakes)%nat /\
    callbacks run.2
      = progression (offset_nanoseconds tm) (period_nanoseconds tm) n /\
    get_time (state_of run.1)
      = List.last (callbacks run.2) (offset_nanoseconds tm).
Proof.
  intros Hact Hcan HP HO Hfit run. subst run. unfold start, get_time.
  rewrite Hact. simpl. rewrite Hcan. simpl.
  set (tm1 := set_current_time (offset_nanoseconds tm)
                (set_update_callback (Some c) (set_active true tm))).
  destruct (ready_loop_progression ucs scs wakes tm1 (offset_nanoseconds tm))
    as (n & Hn & H1 & _ & H3); try assumption; try discriminate.
  exists n. auto.
Qed.

Lemma simulated_run_dispatches_in_order_witness :
  let tm := mk 10 0 "sim" 0 false false None None false in
  let run := start (fun _ => false) false (Some 1%nat)
               [mkWake [] false; mkWake [mkSample true 0] false;
                mkWake [mkSample true 20; mkSample true 10] false;
                mkWake [mkSample true 20; mkSample true TRIGGER_STOP_SYMBOL] false]
               tm in
  exists n, callbacks run.2 = progression 0 10 n /\
            get_time (state_of run.1) = List.last (callbacks run.2) 0.
Proof.
  intros tm run.
  destruct (simulated_run_dispatches_in_order (fun _ => false) false 1%nat
              [mkWake [] false; mkWake [mkSample true 0] false;
               mkWake [mkSample true 20; mkSample true 10] false;
               mkWake [mkSample true 20; mkSample true TRIGGER_STOP_SYMBOL] false]
              tm)
    as (n & _ & H1 & H2);
    [reflexivity | reflexivity | simpl; lia | simpl; lia | vm_compute; reflexivity |].
  exists n. split; [exact H1 | exact H2].
Defined.

Lemma handle_samples_skip ucs scs pre : forall rest gv gn tm d,
  Forall (ignored d) pre ->
  handle_samples ucs scs (pre ++ rest) gv gn tm d
    = handle_samples ucs scs rest (gv || existsb valid pre) gn tm d.
Proof.
  induction pre as [|s pre IH]; intros rest gv gn tm d Hall.
  - simpl. rewrite orb_false_r. reflexivity.
  - apply Forall_cons in Hall as [Hs Hall].
    pose proof (on_sample_ignored ucs scs s gv gn tm d Hs) as Hstep.
    simpl in Hstep. simpl. rewrite Hstep.
    rewrite (IH rest (gv || valid s) gn tm d Hall), orb_assoc.
    destruct (handle_samples ucs scs rest _ gn tm d) as [[[a tm'] d'] tr].
    reflexivity.
Qed.

Lemma handle_samples_burst ucs scs n : forall gv gn tm d,
  m_update_callback tm <> None ->
  0 <= period_nanoseconds tm -> 0 <= d ->
  d + Z.of_nat n * period_nanoseconds tm < 2 ^ 64 ->
  callbacks (handle_samples ucs scs
               (map (mkSample true) (progression d (period_nanoseconds tm) n))
               gv gn tm d).2
    = progression d (period_nanoseconds tm) n /\
  (handle_samples ucs scs
     (map (mkSample true) (progression d (period_nanoseconds tm) n))
     gv gn tm d).1.2 = d + Z.of_nat n * period_nanoseconds tm.
Proof.
  induction n as [|n IH]; intros gv gn tm d Hcb HP Hd Hfit.
  - simpl. split; [reflexivity | lia].
  - rewrite Nat2Z.inj_succ, Z.mul_succ_l in Hfit.
    destruct (on_sample_match ucs scs (mkSample true d) gv gn tm d eq_refl eq_refl)
      as (tm2 & Hstep & Hcfg & _).
    simpl. rewrite Hstep.
    rewrite add64_small by (unfold is_u64; lia).
    assert (HP2 : period_nanoseconds tm2 = period_nanoseconds tm)
      by (destruct Hcfg as (-> & _); reflexivity).
    assert (Hcb2 : m_update_callback tm2 <> None)
      by (destruct Hcfg as (_ & _ & _ & -> & _); exact Hcb).
    destruct (IH true true tm2 (d + period_nanoseconds tm) Hcb2
                ltac:(lia) ltac:(lia) ltac:(rewrite HP2; lia)) as [H1 H2].
    rewrite HP2 in *.
    destruct (handle_samples ucs scs _ true true tm2 _) as [[[a tm'] d'] tr].
    cbn [fst snd] in *.
    destruct (m_update_callback tm); [|congruence].
    rewrite !callbacks_app, H1, H2. split; [reflexivity|].
    rewrite Nat2Z.inj_succ. lia.
Qed.

(** X15.  Within one batch the timer follows its own deadline: a burst of
    valid triggers for [d], [d + P], ..., in this order, dispatches every
    one of them, while a trigger repeated [n] times dispatches once, the
    repetitions being stale for the advanced deadline. *)
Theorem burst_and_duplicates (ucs : Z -> bool) (scs : bool)
    (n : nat) (tm : TimerSimulated.t) (d : Z) :
  m_update_callback tm <> None ->
  0 < period_nanoseconds tm -> 0 <= d ->
  d + Z.of_nat (S n) * period_nanoseconds tm < 2 ^ 64 ->
  let P := period_nanoseconds tm in
  (callbacks (handle_system_trigger ucs scs
                (map (mkSample true) (progression d P (S n))) tm d).2
     = progression d P (S n) /\
   (handle_system_trigger ucs scs
      (map (mkSample true) (progression d P (S n))) tm d).1.2
     = d + Z.of_nat (S n) * P) /\
  (callbacks (handle_system_trigger ucs scs
                (replicate (S n) (mkSample true d)) tm d).2 = [d] /\
   (handle_system_trigger ucs scs
      (replicate (S n) (mkSample true d)) tm d).1.2 = d + P).
Proof.
  intros Hcb HP Hd Hfit P. subst P. unfold handle_system_trigger. split.
  - apply handle_samples_burst; try assumption. lia.
  - rewrite Nat2Z.inj_succ, Z.mul_succ_l in Hfit.
    assert (Hn : 0 <= Z.of_nat n * period_nanoseconds tm) by nia.
    destruct (on_sample_match ucs scs (mkSample true d) false false tm d
                eq_refl eq_refl) as (tm2 & Hstep & _ & _).
    simpl. rewrite Hstep.
    rewrite add64_small by (unfold is_u64; lia).
    assert (Hall : Forall (ignored (d + period_nanoseconds tm))
                          (replicate n (mkSample true d))).
    { apply Forall_replicate. right. simpl. unfold TRIGGER_STOP_SYMBOL.
      split; lia. }
    pose proof (handle_samples_ignored ucs scs _ true true tm2 _ Hall) as Hrest.
    simpl in Hrest. rewrite Hrest. cbn [fst snd].
    destruct (m_update_callback tm); [|congruence].
    split; reflexivity.
Qed.

Lemma burst_and_duplicates_witness :
  let tm := mk 10 0 "sim" 20 true false (Some 1%nat) None false in
  callbacks (handle_system_trigger (fun _ => false) false
               [mkSample true 30; mkSample true 40; mkSample true 50] tm 30).2
    = [30; 40; 50] /\
  callbacks (handle_system_trigger (fun _ => false) false
               [mkSample true 30; mkSample true 30; mkSample true 30] tm 30).2
    = [30].
Proof.
  intros tm.
  destruct (burst_and_duplicates (fun _ => false) false 2 tm 30)
    as [[H1 _] [H2 _]];
    [discriminate | simpl; lia | lia | simpl; lia |].
  split; [exact H1 | exact H2].
Defined.

(** X16.  A valid sample with the stop symbol ends the processing of its
    batch: the samples behind it in the same [take()] are dropped
    unprocessed, even a trigger for the current deadline, and no callback
    or ready status results.  Without a stop callback the timer is then
    inactive and the main loop of [start] returns, whatever wake-ups would
    follow. *)
Theorem stop_symbol_ends_batch (ucs : Z -> bool) (scs : bool)
    (pre : list Sample) (s : Sample) (tm : TimerSimulated.t) (d : Z) :
  Forall (ignored d) pre ->
  valid s = true -> next_start s = TRIGGER_STOP_SYMBOL -> d <> TRIGGER_STOP_SYMBOL ->
  exists tm' tr,
    (forall post,
       handle_system_trigger ucs scs (pre ++ s :: post) tm d = (STOP, tm', d, tr)) /\
    callbacks tr = [] /\ ready_stamps tr = [] /\
    (m_stop_callback tm = None ->
     active tm' = false /\
     (active tm = true ->
      forall post wakes,
        main_loop ucs scs (mkWake (pre ++ s :: post) false :: wakes) tm d
          = (Returned tm', [WaitsetWait None]))).
Proof.
  intros Hpre Hv Hs Hd.
  assert (Hne : next_start s <> d) by congruence.
  pose proof (on_sample_stop ucs scs s (false || existsb valid pre) false tm d
                Hv Hne Hs) as Hstep. simpl in Hstep.
  assert (Hbatch : forall post,
    handle_system_trigger ucs scs (pre ++ s :: post) tm d
      = match m_stop_callback tm with
        | Some _ => (STOP, (if scs then stop tm else tm), d, [StopCallback])
        | None => (STOP, set_active false tm, d, [])
        end).
  { intros post. unfold handle_system_trigger.
    rewrite handle_samples_skip by exact Hpre. simpl. simpl in Hstep.
    rewrite Hstep. destruct (m_stop_callback tm); reflexivity. }
  destruct (m_stop_callback tm) as [c|] eqn:Hsc.
  - eexists _, _. split; [exact Hbatch|]. repeat split; discriminate.
  - eexists _, _. split; [exact Hbatch|]. split; [reflexivity|]. split; [reflexivity|].
    intros _. split; [reflexivity|].
    intros Hact post wakes. cbn [main_loop]. rewrite Hact. cbn [negb].
    cbn [stop_requested samples]. rewrite Hbatch.
    destruct wakes; reflexivity.
Qed.

Lemma stop_symbol_ends_batch_witness :
  let tm := mk 10 0 "sim" 20 true false (Some 1%nat) None false in
  exists tm',
    main_loop (fun _ => false) false
      [mkWake ([mkSample true 7] ++ mkSample true TRIGGER_STOP_SYMBOL
                 :: [mkSample true 30]) false;
       mkWake [mkSample true 30] false] tm 30
      = (Returned tm', [WaitsetWait None]) /\ active tm' = false.
Proof.
  intros tm.
  destruct (stop_symbol_ends_batch (fun _ => false) false [mkSample true 7]
              (mkSample true TRIGGER_STOP_SYMBOL) tm 30)
    as (tm' & tr & _ & _ & _ & Hnone);
    [constructor; [right; split; discriminate | constructor]
    | reflexivity | reflexivity | discriminate |].
  destruct (Hnone eq_refl) as [Hoff Hrun].
  exists tm'. split; [|exact Hoff].
  apply (Hrun eq_refl [mkSample true 30] [mkWake [mkSample true 30] false]).
Defined.

End TimerSimulatedClaimsMore.

(** * Further properties of the round-trip-time aggregator *)

Section RTTMore.
Import RTTAggregator.

Lemma wf_entry a id :
  wf a ->
  (exists b w x c m l,
     current_best_rtt a !! id = Some b /\ current_worst_rtt a !! id = Some w /\
     all_time_worst_rtt a !! id = Some x /\ measure_count a !! id = Some c /\
     missed_answers a !! id = Some m /\ last_msg_timestamp a !! id = Some l /\
     id ∈ received_ids a /\
     0 <= b <= w /\ w <= x /\ 1 <= c /\ 0 <= m < c) \/
  (current_best_rtt a !! id = None /\ current_worst_rtt a !! id = None /\
   all_time_worst_rtt a !! id = None /\ measure_count a !! id = None /\
   missed_answers a !! id = None /\ last_msg_timestamp a !! id = None /\
   id ∉ received_ids a).
Proof.
  intros Hwf. specialize (Hwf id). unfold view, ok_view in Hwf.
  destruct (current_best_rtt a !! id) as [b|];
    destruct (current_worst_rtt a !! id) as [w|];
    destruct (all_time_worst_rtt a !! id) as [x|];
    destruct (measure_count a !! id) as [c|];
    destruct (missed_answers a !! id) as [m|];
    destruct (last_msg_timestamp a !! id) as [l|];
    destruct (bool_decide (id ∈ received_ids a)) eqn:Hk;
    try contradiction.
  - left. exists b, w, x, c, m, l. apply bool_decide_eq_true in Hk.
    repeat split; try reflexivity; try exact Hk; lia.
  - right. apply bool_decide_eq_false in Hk. repeat split; exact Hk.
Qed.

(** X17.  In every reachable state the six maps have the same key set, and
    it is the set of known ids: an id has either a complete entry or no
    trace at all. *)
Theorem maps_share_their_keys (a : RTTAggregator.t) :
  reachable a ->
  dom (current_best_rtt a) = received_ids a /\
  dom (current_worst_rtt a) = received_ids a /\
  dom (all_time_worst_rtt a) = received_ids a /\
  dom (measure_count a) = received_ids a /\
  dom (missed_answers a) = received_ids a /\
  dom (last_msg_timestamp a) = received_ids a.
Proof.
  intros Hreach. pose proof (reachable_wf a Hreach) as Hwf.
  repeat split; apply set_eq; intros id; rewrite elem_of_dom;
    destruct (wf_entry a id Hwf)
      as [(b & w & x & c & m & l & H1 & H2 & H3 & H4 & H5 & H6 & Hk & _)
         |(H1 & H2 & H3 & H4 & H5 & H6 & Hk)];
    rewrite ?H1, ?H2, ?H3, ?H4, ?H5, ?H6;
    (split; [intros [? Hs]; first [exact Hk | discriminate Hs]
            | intros Hin; first [eexists; reflexivity | contradiction]]).
Qed.

Lemma maps_share_their_keys_witness :
  dom (current_best_rtt vehicle_rounds) = received_ids vehicle_rounds /\
  dom (measure_count vehicle_rounds) = received_ids vehicle_rounds.
Proof.
  destruct (maps_share_their_keys vehicle_rounds vehicle_rounds_reachable)
    as (H1 & _ & _ & H4 & _).
  split; [exact H1 | exact H4].
Defined.

(** X18.  The classes do not interfere.  What a measurement round does to
    an id depends only on what the aggregator held for that id, on the
    round's result for that id and on the clock read for it; and a round
    in which an unknown id gets no response leaves that id without any
    entry. *)
Theorem rounds_are_local (a a' : RTTAggregator.t) (r r' : Round) (id : string) :
  view a id = view a' id ->
  rtt r !! id = rtt r' !! id ->
  now r id = now r' id ->
  view (measurement_round r a) id = view (measurement_round r' a') id /\
  (rtt r !! id = None -> id ∉ received_ids a ->
   view (measurement_round r a) id = view a id).
Proof.
  intros Hv Hr Hn. rewrite !view_measurement_round, <- Hv, <- Hr.
  split.
  - destruct (rtt r !! id) as [e|].
    + unfold entry_step. rewrite Hn. reflexivity.
    + unfold missing_step. rewrite Hn. reflexivity.
  - intros Hnone Hunknown. rewrite Hnone. unfold view at 1. simpl.
    rewrite bool_decide_eq_false_2 by exact Hunknown. reflexivity.
Qed.

Lemma rounds_are_local_witness :
  let r := mkRound (measure_rtt [("hlc"%string, 4)]) (fun _ => 400) in
  let r' := mkRound (measure_rtt [("middleware"%string, 6)]) (fun _ => 400) in
  view (measurement_round r vehicle_rounds) "vehicle"
    = view (measurement_round r' vehicle_rounds) "vehicle".
Proof.
  intros r r'.
  apply (rounds_are_local vehicle_rounds vehicle_rounds r r' "vehicle"%string);
    reflexivity.
Defined.

(** X19.  For an id with an entry that the round does not delete, every
    measurement round adds exactly one to the measurement count; the count
    of missed answers grows by one when the round brought no response for
    the id and stays when it did; and only a response moves the time
    stamp of the last message. *)
Theorem round_counts (a : RTTAggregator.t) (r : Round) (id : string)
    (c m last : Z) :
  id ∈ received_ids a ->
  measure_count a !! id = Some c ->
  missed_answers a !! id = Some m ->
  last_msg_timestamp a !! id = Some last ->
  let a1 := measurement_round r a in
  (forall e, rtt r !! id = Some e ->
     measure_count a1 !! id = Some (c + 1) /\
     missed_answers a1 !! id = Some m /\
     last_msg_timestamp a1 !! id = Some (now r id) /\
     current_best_rtt a1 !! id = Some e.1 /\
     current_worst_rtt a1 !! id = Some e.2) /\
  (rtt r !! id = None ->
   0 <= now r id - last <= delete_entry_timeout_ns ->
   measure_count a1 !! id = Some (c + 1) /\
   missed_answers a1 !! id = Some (m + 1) /\
   last_msg_timestamp a1 !! id = Some last).
Proof.
  intros Hk Hc Hm Hl a1. subst a1.
  pose proof (view_measurement_round r a id) as Hv.
  split.
  - intros e He. rewrite He in Hv. unfold entry_step, view at 2 in Hv.
    simpl in Hv. rewrite Hc, Hm in Hv.
    destruct (view_fields _ _ _ _ _ _ _ _ _ Hv) as (H1 & H2 & _ & H4 & H5 & H6 & _).
    auto.
  - intros Hnone Hrange. rewrite Hnone in Hv. unfold view at 2 in Hv. simpl in Hv.
    rewrite bool_decide_eq_true_2 in Hv by exact Hk.
    unfold missing_step, view in Hv. simpl in Hv. rewrite Hl, Hc, Hm in Hv.
    simpl in Hv.
    rewrite sub64_small in Hv
      by (unfold delete_entry_timeout_ns in Hrange; unfold is_u64; lia).
    destruct (now r id - last >? delete_entry_timeout_ns) eqn:E;
      [rewrite Z.gtb_ltb in E; apply Z.ltb_lt in E; lia|].
    fold (view (measurement_round r a) id) in Hv.
    destruct (view_fields _ _ _ _ _ _ _ _ _ Hv) as (_ & _ & _ & H4 & H5 & H6 & _).
    auto.
Qed.

Lemma round_counts_witness :
  let r := mkRound (measure_rtt []) (fun _ => 400) in
  measure_count (measurement_round r vehicle_rounds) !! "vehicle"%string = Some 4 /\
  missed_answers (measurement_round r vehicle_rounds) !! "vehicle"%string = Some 2.
Proof.
  intros r.
  destruct (round_counts vehicle_rounds r "vehicle"%string 3 1 200)
    as [_ Hsilent]; try (vm_compute; reflexivity).
  destruct (Hsilent eq_refl) as (Hc & Hm & _).
  - unfold delete_entry_timeout_ns. simpl. lia.
  - split; [exact Hc | exact Hm].
Defined.

(** X20.  While an id keeps its entry, its all-time worst round-trip time
    never decreases: a round with a response raises it to the round's
    worst value if that is larger, so it is at least the current worst
    value, and a round without response leaves it as it was. *)
Theorem all_time_worst_is_monotone (a : RTTAggregator.t) (r : Round)
    (id : string) (x last : Z) :
  id ∈ received_ids a ->
  is_Some (measure_count a !! id) ->
  all_time_worst_rtt a !! id = Some x ->
  last_msg_timestamp a !! id = Some last ->
  let a1 := measurement_round r a in
  (forall e, rtt r !! id = Some e ->
     exists x', all_time_worst_rtt a1 !! id = Some x' /\
                x' = Z.max e.2 x /\ x <= x' /\
                current_worst_rtt a1 !! id = Some e.2 /\ e.2 <= x') /\
  (rtt r !! id = None ->
   0 <= now r id - last <= delete_entry_timeout_ns ->
   all_time_worst_rtt a1 !! id = Some x).
Proof.
  intros Hk [c Hc] Hx Hl a1. subst a1.
  pose proof (view_measurement_round r a id) as Hv.
  split.
  - intros e He. rewrite He in Hv. unfold entry_step, view at 2 in Hv.
    simpl in Hv. rewrite Hc, Hx in Hv. simpl in Hv.
    destruct (view_fields _ _ _ _ _ _ _ _ _ Hv) as (_ & H2 & H3 & _).
    exists (Z.max e.2 x). repeat split; try assumption; lia.
  - intros Hnone Hrange. rewrite Hnone in Hv. unfold view at 2 in Hv. simpl in Hv.
    rewrite bool_decide_eq_true_2 in Hv by exact Hk.
    unfold missing_step, view in Hv. simpl in Hv. rewrite Hl, Hc, Hx in Hv.
    simpl in Hv.
    rewrite sub64_small in Hv
      by (unfold delete_entry_timeout_ns in Hrange; unfold is_u64; lia).
    destruct (now r id - last >? delete_entry_timeout_ns) eqn:E;
      [rewrite Z.gtb_ltb in E; apply Z.ltb_lt in E; lia|].
    fold (view (measurement_round r a) id) in Hv.
    destruct (view_fields _ _ _ _ _ _ _ _ _ Hv) as (_ & _ & H3 & _).
    exact H3.
Qed.

Lemma all_time_worst_is_monotone_witness :
  let r := mkRound (measure_rtt [("vehicle"%string, 4)]) (fun _ => 400) in
  exists x', all_time_worst_rtt (measurement_round r vehicle_rounds)
               !! "vehicle"%string = Some x' /\ 9 <= x' /\ 4 <= x'.
Proof.
  intros r.
  destruct (all_time_worst_is_monotone vehicle_rounds r "vehicle"%string 9 200)
    as [Hresp _]; try (vm_compute; reflexivity).
  - vm_compute. eauto.
  - destruct (Hresp (4, 4) eq_refl) as (x' & Hx & _ & Hle & _ & Hw).
    exists x'. split; [exact Hx|]. split; [exact Hle | exact Hw].
Defined.

(** X21.  A query does not change a reachable state, although it reads the
    maps with the inserting subscript; asking again gives the same
    answer. *)
Theorem query_is_read_only (a : RTTAggregator.t) (id : string) (out : Outputs) :
  reachable a ->
  (get_rtt id out a).2 = a /\
  forall id' out',
    get_rtt id' out' (get_rtt id out a).2 = get_rtt id' out' a.
Proof.
  intros Hreach.
  pose proof (get_rtt_state id out a (reachable_wf a Hreach)) as Hs.
  split; [exact Hs|]. intros id' out'. rewrite Hs. reflexivity.
Qed.

Lemma query_is_read_only_witness :
  (get_rtt "vehicle" (mkOutputs 7 7 7 7%Q) vehicle_rounds).2 = vehicle_rounds.
Proof.
  apply (query_is_read_only vehicle_rounds "vehicle"%string (mkOutputs 7 7 7 7%Q)
           vehicle_rounds_reachable).
Defined.

(** X22.  The age of an entry is an unsigned difference.  If the clock
    read for a silent id is below the time stamp of its last message (the
    clock stepped back), the difference wraps around to a value above the
    timeout and the entry is deleted at once. *)
Theorem clock_step_back_evicts (a : RTTAggregator.t) (r : Round) (id : string)
    (last : Z) :
  id ∈ received_ids a ->
  rtt r !! id = None ->
  last_msg_timestamp a !! id = Some last ->
  0 <= now r id < last -> last < 2 ^ 64 - delete_entry_timeout_ns ->
  let a1 := measurement_round r a in
  current_best_rtt a1 !! id = None /\ measure_count a1 !! id = None /\
  (id ∉ received_ids a1) /\
  forall out, get_rtt id out a1 = (false, out, [], a1).
Proof.
  intros Hk Hnone Hl Hnow Hlast a1.
  assert (Hv : view a1 id = no_entry).
  { subst a1. rewrite view_measurement_round, Hnone.
    unfold view at 1. simpl. rewrite bool_decide_eq_true_2 by exact Hk.
    unfold missing_step, view. simpl. rewrite Hl. simpl.
    assert (Hwrap : sub64 (now r id) last = now r id - last + 2 ^ 64).
    { unfold sub64, wrap64.
      rewrite <- (Z.mod_add (now r id - last) 1 (2 ^ 64)) by lia.
      apply Z.mod_small. unfold delete_entry_timeout_ns in Hlast. lia. }
    rewrite Hwrap.
    destruct (now r id - last + 2 ^ 64 >? delete_entry_timeout_ns) eqn:E;
      [reflexivity|].
    rewrite Z.gtb_ltb in E. apply Z.ltb_ge in E.
    unfold delete_entry_timeout_ns in *. lia. }
  destruct (view_fields _ _ _ _ _ _ _ _ _ Hv) as (H1 & _ & _ & H4 & _ & _ & H7).
  split; [exact H1|]. split; [exact H4|].
  split; [apply bool_decide_eq_false in H7; exact H7|].
  intros out. unfold get_rtt. rewrite H1. reflexivity.
Qed.

Lemma clock_step_back_evicts_witness :
  let r := mkRound (measure_rtt []) (fun _ => 150) in
  get_rtt "vehicle" (mkOutputs 7 7 7 7%Q) (measurement_round r vehicle_rounds)
    = (false, mkOutputs 7 7 7 7%Q, [], measurement_round r vehicle_rounds).
Proof.
  intros r.
  assert (Hnow : 0 <= now r "vehicle"%string < 200) by (simpl; lia).
  assert (Hlast : 200 < 2 ^ 64 - delete_entry_timeout_ns)
    by (unfold delete_entry_timeout_ns; lia).
  exact (proj2 (proj2 (proj2
    (clock_step_back_evicts vehicle_rounds r "vehicle"%string 200
       ltac:(vm_compute; reflexivity) eq_refl ltac:(vm_compute; reflexivity)
       Hnow Hlast))) (mkOutputs 7 7 7 7%Q)).
Defined.

(** X23.  An entry is created by a response and every later round adds at
    most one missed answer per measurement: in every reachable state the
    missed answers of an id with an entry are fewer than its measurements,
    so the fraction a query returns is strictly below 1. *)
Theorem missed_fraction_below_one (a : RTTAggregator.t) (id : string)
    (out : Outputs) :
  reachable a -> is_Some (current_best_rtt a !! id) ->
  exists m c,
    missed_answers a !! id = Some m /\ measure_count a !! id = Some c /\
    0 <= m < c /\
    (_missed_answers (get_rtt id out a).1.1.2 < 1)%Q /\
    (m = 0 <-> (_missed_answers (get_rtt id out a).1.1.2 == 0)%Q).
Proof.
  intros Hreach [b Hb].
  destruct (wf_entry a id (reachable_wf a Hreach))
    as [(b' & w & x & c & m & l & H1 & H2 & H3 & H4 & H5 & H6 & Hk & _ & _ & Hc & Hm)
       |(H1 & _)]; [|congruence].
  exists m, c. split; [exact H5|]. split; [exact H4|]. split; [exact Hm|].
  unfold get_rtt, subscript. rewrite H1, H2, H3, H4, H5. simpl.
  destruct (c <=? 0) eqn:E; [apply Z.leb_le in E; lia|]. simpl.
  split.
  - unfold Qlt. simpl. rewrite Z2Pos.id by lia. lia.
  - unfold Qeq. simpl. lia.
Qed.

Lemma missed_fraction_below_one_witness :
  (_missed_answers
     (get_rtt "vehicle" (mkOutputs 7 7 7 7%Q) vehicle_rounds).1.1.2 < 1)%Q.
Proof.
  destruct (missed_fraction_below_one vehicle_rounds "vehicle"%string
              (mkOutputs 7 7 7 7%Q) vehicle_rounds_reachable)
    as (m & c & _ & _ & _ & H & _).
  - vm_compute. eauto.
  - exact H.
Defined.

End RTTMore.
